(** * GlowSpace: the Socket.IO presence and chat-room coordinator

    A shallow embedding of the real-time part of the GlowSpace backend
    (the Socket.IO authentication middleware and the event handlers
    registered in [io.on('connection', ...)]), together with the
    properties of it that the design document states.

    Conventions of the embedding.
    - The four process-wide [Map]s ([activeUsers], [chatRooms],
      [messageTimestamps], [typingUsers]) are insertion-ordered
      association lists with unique keys, as a JavaScript [Map] is; a
      JavaScript [Set] is a duplicate-free list in insertion order.
    - A handler is a computation in a small state/exception/output monad:
      it may read and write the coordinator, [throw], and emit outbound
      events.  [try { ... } catch (error) { ... }] is [tryCatch]; writes
      and emissions made before a [throw] are kept, as in JavaScript.
    - [Date.now()] / [new Date()] is the argument [now] (milliseconds).
    - The answers of the external collaborators (the Mongo message
      collection, the user collection, [jwt.verify]) are arguments of the
      handler that consults them.
    - [socket.emit] is addressed [ToSocket], [io.to(room).emit] is
      addressed [ToRoom], [io.emit] is addressed [ToAll].  Who receives a
      [ToRoom] event is decided by Socket.IO's own subscription lists
      ([socket.join] / [socket.leave]), which are the transport's and are
      not part of the coordinator.
    - An inbound event comes with its payload, or with none: a payload
      that is [undefined] or [null] is [None], and destructuring it raises
      a [TypeError] as in JavaScript.
    - Each handler performs all its writes to the four maps in one
      synchronous segment, before its first [await]; [run] handles the
      events one after another.  What [joinRoom] does after its [await]
      reads the maps again; it is a definition of its own
      ([joinRoomAfterAwait]) so that it can also be resumed in the
      coordinator that events handled in the meantime have produced. *)

From Stdlib Require Import List String Ascii ZArith Lia Bool Arith.
From Stdlib Require Import DecimalString DecimalPos DecimalZ Sorted Permutation.
Import ListNotations.

Open Scope string_scope.
Open Scope list_scope.

(** ** JavaScript values that the handlers inspect *)

(** [socket.userId]: a guest carries a primitive string, a registered user
    the [ObjectId] object of the Mongoose document.  An [ObjectId] object
    holds the user's 12-byte id, [hex] in hexadecimal, and has an identity
    of its own, [ref]: every [findById] builds a new document with a new
    [ObjectId] object, so two connections of one user carry the same [hex]
    under different [ref]s.  As a [Map]/[Set] key a string is compared by
    value and an object by reference. *)
Inductive Ident : Type :=
| GuestId (s : string)
| ObjectId (hex : string) (ref : nat).

(** The id as a client receives it and as the user collection knows it:
    the string itself, or what [ObjectId.prototype.toJSON] gives. *)
Definition idValue (id : Ident) : string :=
  match id with
  | GuestId s => s
  | ObjectId hex _ => hex
  end.

(** Keys of a JavaScript [Map] or [Set], compared with SameValueZero. *)
Class Key (K : Type) := {
  same : K -> K -> bool;
  same_spec : forall a b : K, same a b = true <-> a = b
}.

#[export, refine] Instance string_Key : Key string := {| same := String.eqb |}.
Proof. intros a b. apply String.eqb_eq. Defined.

(** Two [ObjectId]s are the same object when they are the same value of
    this type: an object has one identity and holds one id. *)
Definition ident_same (a b : Ident) : bool :=
  match a, b with
  | GuestId s, GuestId t => String.eqb s t
  | ObjectId h m, ObjectId k n => Nat.eqb m n && String.eqb h k
  | _, _ => false
  end.

#[export, refine] Instance Ident_Key : Key Ident := {| same := ident_same |}.
Proof.
  intros [s|h m] [t|k n]; simpl; split; intro H; try discriminate.
  - apply String.eqb_eq in H. now subst.
  - injection H as ->. apply String.eqb_refl.
  - apply andb_prop in H as [Hn Hh].
    apply Nat.eqb_eq in Hn. apply String.eqb_eq in Hh. now subst.
  - injection H as -> ->. now rewrite Nat.eqb_refl, String.eqb_refl.
Defined.

(** Truthiness of an optional string field: [undefined] and the empty
    string are falsy. *)
Definition truthy (v : option string) : bool :=
  match v with
  | Some s => negb (String.eqb s "")
  | None => false
  end.

(** [String.prototype.startsWith]. *)
Definition startsWith (p s : string) : bool := String.prefix p s.

(** [s.substring(start)] for [0 <= start]. *)
Definition substring_from (start : nat) (s : string) : string :=
  String.substring start (String.length s - start) s.

(** The decimal rendering of a number inside a template literal. *)
Definition decimal (z : Z) : string := NilZero.string_of_int (Z.to_int z).

(** ** Insertion-ordered maps and sets *)

Module JsMap.
Section Ops.
Context {K V : Type} `{Key K}.

Fixpoint get (k : K) (m : list (K * V)) : option V :=
  match m with
  | [] => None
  | (k', v) :: rest => if same k' k then Some v else get k rest
  end.

Definition has (k : K) (m : list (K * V)) : bool :=
  match get k m with Some _ => true | None => false end.

(** [m.set(k, v)]: an existing key keeps its position. *)
Fixpoint set (k : K) (v : V) (m : list (K * V)) : list (K * V) :=
  match m with
  | [] => [(k, v)]
  | (k', v') :: rest =>
      if same k' k then (k', v) :: rest else (k', v') :: set k v rest
  end.

Fixpoint delete (k : K) (m : list (K * V)) : list (K * V) :=
  match m with
  | [] => []
  | (k', v') :: rest =>
      if same k' k then rest else (k', v') :: delete k rest
  end.

Definition values (m : list (K * V)) : list V := map snd m.
End Ops.
End JsMap.

Module JsSet.
Section Ops.
Context {K : Type} `{Key K}.

Fixpoint has (k : K) (s : list K) : bool :=
  match s with
  | [] => false
  | k' :: rest => if same k' k then true else has k rest
  end.

Definition add (k : K) (s : list K) : list K :=
  if has k s then s else s ++ [k].

Fixpoint delete (k : K) (s : list K) : list K :=
  match s with
  | [] => []
  | k' :: rest => if same k' k then rest else k' :: delete k rest
  end.

Definition size (s : list K) : nat := List.length s.
End Ops.
End JsSet.

(** ** Data model *)

(** [socket.user]: the guest object literal or the Mongoose user document. *)
Record User : Type := {
  _id : Ident;
  username : string;
  profilePicture : string
}.

Record Socket : Type := {
  socket_id : string;
  userId : Ident;
  user : User
}.

(** A value of [activeUsers]. *)
Record ActiveUser : Type := {
  au_id : Ident;
  au_socketId : string;
  au_username : string;
  au_profilePicture : string;
  au_lastSeen : Z;
  au_status : string
}.

(** A document of the message collection.

    Modelled from the spec: the Mongoose model [./models/Message.model] is
    not part of the sources.  A stored message carries the fields the
    handler passes to the constructor plus the identifier and the
    [createdAt] instant that the store assigns when the write commits. *)
Record Message : Type := {
  m_id : string;
  m_content : string;
  m_sender : Ident;
  m_senderType : string;
  m_senderName : string;
  m_senderAvatar : string;
  m_room : string;
  m_type : string;
  m_createdAt : Z
}.

(** The coordinator: the four module-level maps of the server and the
    contents of the message collection. *)
Record Coordinator : Type := {
  activeUsers : list (Ident * ActiveUser);
  chatRooms : list (string * list Ident);
  messageTimestamps : list (Ident * list Z);
  typingUsers : list (Ident * string);
  messageStore : list Message
}.

Definition emptyCoordinator : Coordinator :=
  {| activeUsers := []; chatRooms := []; messageTimestamps := [];
     typingUsers := []; messageStore := [] |}.

Definition with_activeUsers (f : list (Ident * ActiveUser) -> list (Ident * ActiveUser))
  (c : Coordinator) : Coordinator :=
  {| activeUsers := f (activeUsers c); chatRooms := chatRooms c;
     messageTimestamps := messageTimestamps c; typingUsers := typingUsers c;
     messageStore := messageStore c |}.

Definition with_chatRooms (f : list (string * list Ident) -> list (string * list Ident))
  (c : Coordinator) : Coordinator :=
  {| activeUsers := activeUsers c; chatRooms := f (chatRooms c);
     messageTimestamps := messageTimestamps c; typingUsers := typingUsers c;
     messageStore := messageStore c |}.

Definition with_messageTimestamps (f : list (Ident * list Z) -> list (Ident * list Z))
  (c : Coordinator) : Coordinator :=
  {| activeUsers := activeUsers c; chatRooms := chatRooms c;
     messageTimestamps := f (messageTimestamps c); typingUsers := typingUsers c;
     messageStore := messageStore c |}.

Definition with_typingUsers (f : list (Ident * string) -> list (Ident * string))
  (c : Coordinator) : Coordinator :=
  {| activeUsers := activeUsers c; chatRooms := chatRooms c;
     messageTimestamps := messageTimestamps c; typingUsers := f (typingUsers c);
     messageStore := messageStore c |}.

Definition with_messageStore (f : list Message -> list Message)
  (c : Coordinator) : Coordinator :=
  {| activeUsers := activeUsers c; chatRooms := chatRooms c;
     messageTimestamps := messageTimestamps c; typingUsers := typingUsers c;
     messageStore := f (messageStore c) |}.

(** ** Values that travel in payloads *)

(** A value carried by a client payload.  Only strings are told apart: no
    other JSON value is ever [===] a user id, which is a string or an
    [ObjectId] object. *)
Inductive Json : Type :=
| JString (s : string)
| JOther (text : string).

(** A field of the object that [privateMessage] delivers. *)
Inductive Value : Type :=
| FromClient (j : Json)
| UserIdValue (uid : Ident)
| DateValue (t : Z).

(** ** Outbound events *)

Inductive Target : Type :=
| ToSocket (socketId : string)
| ToRoom (room : string)
| ToAll.

(** An element of the [participants] / [updateParticipants] arrays;
    [status] is only present in [chatHistory]. *)
Record Participant : Type := {
  p_id : Ident;
  p_username : string;
  p_profilePicture : string;
  p_status : option string
}.

(** The [messageData] object literal of the [groupMessage] handler. *)
Record MessageData : Type := {
  md_id : string;
  md_content : string;
  md_createdAt : Z;
  md_sender : User
}.

Inductive Payload : Type :=
| ActiveUsersEv (users : list ActiveUser)
| UserLeftEv (uid : Ident) (uname : option string) (roomId : option string) (timestamp : Z)
| ChatHistoryEv (messages : list Message) (participants : list Participant)
| UserJoinedEv (uid : Ident) (uname : string) (timestamp : Z)
| UpdateParticipantsEv (participants : list Participant)
| TypingStatusEv (typingData : list (Ident * string))
| UserStoppedTypingEv (uid : Ident)
| GroupMessageEv (messageData : MessageData)
| PrivateMessageEv (object : list (string * Value))
| ErrorEv (message : string).

Definition Emit : Type := (Target * Payload)%type.

(** ** The handler monad *)

Inductive Completion (A : Type) : Type :=
| Normal (a : A)
| Thrown (message : string).
Arguments Normal {A} a.
Arguments Thrown {A} message.

Definition Handler (A : Type) : Type :=
  Coordinator -> Completion A * Coordinator * list Emit.

Definition ret {A} (a : A) : Handler A := fun c => (Normal a, c, []).

Definition bind {A B} (m : Handler A) (k : A -> Handler B) : Handler B :=
  fun c =>
    match m c with
    | (Normal a, c1, out1) =>
        match k a c1 with
        | (r, c2, out2) => (r, c2, out1 ++ out2)
        end
    | (Thrown e, c1, out1) => (Thrown e, c1, out1)
    end.

Definition throw {A} (e : string) : Handler A := fun c => (Thrown e, c, []).

Definition emit (to : Target) (p : Payload) : Handler unit :=
  fun c => (Normal tt, c, [(to, p)]).

Definition gets {A} (f : Coordinator -> A) : Handler A :=
  fun c => (Normal (f c), c, []).

Definition modify (f : Coordinator -> Coordinator) : Handler unit :=
  fun c => (Normal tt, f c, []).

Definition tryCatch {A} (body : Handler A) (handler : string -> Handler A) : Handler A :=
  fun c =>
    match body c with
    | (Normal a, c1, out1) => (Normal a, c1, out1)
    | (Thrown e, c1, out1) =>
        match handler e c1 with
        | (r, c2, out2) => (r, c2, out1 ++ out2)
        end
    end.

Definition when (b : bool) (m : Handler unit) : Handler unit :=
  if b then m else ret tt.

(** Reading a property of [undefined] raises a [TypeError]. *)
Definition typeError (prop : string) : string :=
  ("Cannot read properties of undefined (reading '" ++ prop ++ "')")%string.

Definition defined {A} (v : option A) (prop : string) : Handler A :=
  match v with
  | Some a => ret a
  | None => throw (typeError prop)
  end.

(** [const { ... } = data], or a destructuring parameter: when the value
    is [undefined] or [null] a [TypeError] is raised. *)
Definition destructureError (prop source : string) : string :=
  ("Cannot destructure property '" ++ prop ++ "' of '" ++ source
   ++ "' as it is undefined.")%string.

Definition destructure {A} (data : option A) (prop source : string) : Handler A :=
  match data with
  | Some fields => ret fields
  | None => throw (destructureError prop source)
  end.

Declare Scope handler_scope.
Delimit Scope handler_scope with handler.
Notation "x <- m ;; k" := (bind m (fun x => k))
  (at level 61, m at next level, right associativity) : handler_scope.
Notation "m ;; k" := (bind m (fun _ => k))
  (at level 61, right associativity) : handler_scope.
Open Scope handler_scope.

Definition stateOf {A} (r : Completion A * Coordinator * list Emit) : Coordinator :=
  snd (fst r).

Definition outputOf {A} (r : Completion A * Coordinator * list Emit) : list Emit :=
  snd r.

(** Running an event listener.  [None] when an exception escapes the
    listener: nothing handles it.  For a synchronous listener that is an
    uncaught exception, which ends the process; for an [async] listener
    it is the rejection of its promise, which ends the process under
    Node's default for unhandled rejections. *)
Definition listen (h : Handler unit) (c : Coordinator) : option (Coordinator * list Emit) :=
  match h c with
  | (Normal _, c', out) => Some (c', out)
  | (Thrown _, _, _) => None
  end.

Fixpoint mapM {A B} (f : A -> Handler B) (l : list A) : Handler (list B) :=
  match l with
  | [] => ret []
  | a :: rest => b <- f a ;; bs <- mapM f rest ;; ret (b :: bs)
  end.

Fixpoint emitAll (out : list Emit) : Handler unit :=
  match out with
  | [] => ret tt
  | (to, p) :: rest => emit to p ;; emitAll rest
  end.

(** ** The Socket.IO authentication middleware ([io.use]) *)

(** What [User.findById(decoded.id).select('-password')] settles to. *)
Inductive Lookup : Type :=
| LookupRejects (reason : string)
| LookupNull
| LookupDoc (doc : User).

(** What the middleware hands to [next]. *)
Inductive Admission : Type :=
| Accepted (uid : Ident) (u : User)
| Rejected (message : string).

(** The guest object literal, built from [Date.now()]. *)
Definition guestUser (now : Z) : User :=
  let guestId := ("guest-" ++ decimal now)%string in
  let guestName :=
    ("Guest-" ++ substring_from (String.length guestId - 4) guestId)%string in
  {| _id := GuestId guestId;
     username := guestName;
     profilePicture :=
       ("https://ui-avatars.com/api/?name=" ++ guestName ++ "&background=random")%string |}.

Definition asGuest (now : Z) : Admission :=
  Accepted (_id (guestUser now)) (guestUser now).

Section Middleware.

(** [jwt.verify(token, process.env.JWT_SECRET)]: [None] when it throws,
    otherwise the [id] claim of the decoded payload (which may be
    missing). *)
Variable jwt_verify : string -> option (option string).
Variable findById : option string -> Lookup.

(** [socket.handshake.auth] is always an object under Socket.IO, so the
    read of [auth.token] does not throw and the outer [catch] of the
    middleware has nothing to catch. *)
Definition authMiddleware (token : option string) (now : Z) : Admission :=
  match token with
  | Some tok =>
      if truthy token then
        match jwt_verify tok with
        | Some decoded_id =>
            match findById decoded_id with
            | LookupDoc doc => Accepted (_id doc) doc
            | LookupNull => Rejected "Authentication error: User not found"
            | LookupRejects _ => asGuest now
            end
        | None => asGuest now
        end
      else asGuest now
  | None => asGuest now
  end.

End Middleware.

(** ** The message collection *)

(** What [message.save()] settles to: the identifier and [createdAt] that
    the store assigned, or a rejection. *)
Inductive SaveReply : Type :=
| Saved (id : string) (createdAt : Z)
| SaveRejected (reason : string).

(** Whether the collection answers a query. *)
Inductive QueryReply : Type :=
| Answered
| QueryRejected (reason : string).

Fixpoint insertByCreatedAt (m : Message) (sorted : list Message) : list Message :=
  match sorted with
  | [] => [m]
  | m' :: rest =>
      if (m_createdAt m <? m_createdAt m')%Z then m :: m' :: rest
      else m' :: insertByCreatedAt m rest
  end.

(** [.sort({ createdAt: 1 })]: ascending, ties in storage order. *)
Definition sortByCreatedAt (ms : list Message) : list Message :=
  fold_right insertByCreatedAt [] ms.

(** [Message.find({ room }).sort({ createdAt: 1 }).limit(50).lean()]. *)
Definition findRoomMessages (room : string) (store : list Message) : list Message :=
  firstn 50 (sortByCreatedAt (filter (fun m => String.eqb (m_room m) room) store)).

(** ** Event handlers *)

Section Handlers.

Variable socket : Socket.

(** The loop "Leave previous rooms if any" of [joinRoom]: walks the
    entries of [chatRooms] in order, removes the user from every other
    room that holds it and notifies that room. *)
Fixpoint leavePreviousRooms (room : string) (now : Z)
  (entries : list (string * list Ident)) : list (string * list Ident) * list Emit :=
  match entries with
  | [] => ([], [])
  | (roomId, members) :: rest =>
      let (rest', out) := leavePreviousRooms room now rest in
      if JsSet.has (userId socket) members && negb (String.eqb roomId room) then
        ((roomId, JsSet.delete (userId socket) members) :: rest',
         (ToRoom roomId,
          UserLeftEv (userId socket) (Some (username (user socket))) None now) :: out)
      else ((roomId, members) :: rest', out)
  end.

(** The loop of [disconnect]: the same walk without the exception for
    the room being joined. *)
Fixpoint leaveAllRooms (now : Z)
  (entries : list (string * list Ident)) : list (string * list Ident) * list Emit :=
  match entries with
  | [] => ([], [])
  | (roomId, members) :: rest =>
      let (rest', out) := leaveAllRooms now rest in
      if JsSet.has (userId socket) members then
        ((roomId, JsSet.delete (userId socket) members) :: rest',
         (ToRoom roomId,
          UserLeftEv (userId socket) (Some (username (user socket))) None now) :: out)
      else ((roomId, members) :: rest', out)
  end.

(** [chatRooms.get(room).<mutator>(...)]: the member set is a shared
    object, so the mutation shows in the map. *)
Definition mutateMembers (room : string) (f : list Ident -> list Ident)
  (rooms : list (string * list Ident)) : list (string * list Ident) :=
  match JsMap.get room rooms with
  | Some members => JsMap.set room (f members) rooms
  | None => rooms
  end.

(** [Array.from(chatRooms.get(room)).map(userId => ...)]. *)
Definition participantsOf (room : string) (withStatus : bool) : Handler (list Participant) :=
  members <- gets (fun c => JsMap.get room (chatRooms c)) ;;
  members <- match members with
             | Some members => ret members
             | None => throw "undefined is not iterable"
             end ;;
  mapM (fun uid =>
          u <- gets (fun c => JsMap.get uid (activeUsers c)) ;;
          u <- defined u "username" ;;
          ret {| p_id := uid;
                 p_username := au_username u;
                 p_profilePicture := au_profilePicture u;
                 p_status := if withStatus then Some (au_status u) else None |})
       members.

Definition connection (now : Z) : Handler unit :=
  modify (with_activeUsers
            (JsMap.set (userId socket)
               {| au_id := userId socket;
                  au_socketId := socket_id socket;
                  au_username := username (user socket);
                  au_profilePicture := profilePicture (user socket);
                  au_lastSeen := now;
                  au_status := "online" |})) ;;
  users <- gets activeUsers ;;
  emit ToAll (ActiveUsersEv (JsMap.values users)).

(** The synchronous segment of [joinRoom], from the start of its [try]
    block to [await Message.find(...)]: the previous rooms are left and
    the room is joined. *)
Definition joinRoomEnter (room : string) (now : Z) : Handler unit :=
  entries <- gets chatRooms ;;
  (let (entries', left) := leavePreviousRooms room now entries in
   modify (with_chatRooms (fun _ => entries')) ;;
   emitAll left) ;;
  exists_ <- gets (fun c => JsMap.has room (chatRooms c)) ;;
  when (negb exists_) (modify (with_chatRooms (JsMap.set room []))) ;;
  modify (with_chatRooms (mutateMembers room (JsSet.add (userId socket)))).

(** The rest of the [try] block, which runs once the history query has
    settled: it reads [chatRooms] and [activeUsers] as they are then. *)
Definition joinRoomResume (room : string) (query : QueryReply) (now : Z) : Handler unit :=
  messages <- match query with
              | Answered => gets (fun c => findRoomMessages room (messageStore c))
              | QueryRejected reason => throw reason
              end ;;
  participants <- participantsOf room true ;;
  emit (ToSocket (socket_id socket)) (ChatHistoryEv messages participants) ;;
  emit (ToRoom room) (UserJoinedEv (userId socket) (username (user socket)) now) ;;
  participants <- participantsOf room false ;;
  emit (ToRoom room) (UpdateParticipantsEv participants).

(** The [catch] clause of [joinRoom]. *)
Definition joinRoomCatch (error : string) : Handler unit :=
  emit (ToSocket (socket_id socket)) (ErrorEv "Failed to join room").

(** The [joinRoom] listener, [async ({ username, room }) => { try ... }],
    when no other event is handled while its history query is pending.
    [data] is [None] when the event came without a payload and otherwise
    the [room] property of the payload ([username] is never read); the
    parameter is destructured before the [try] block is entered. *)
Definition joinRoom (data : option string) (query : QueryReply) (now : Z) : Handler unit :=
  room <- destructure data "username" "undefined" ;;
  tryCatch (joinRoomEnter room now ;; joinRoomResume room query now) joinRoomCatch.

(** What is left of a [joinRoom] after its [await], still inside the [try]
    block: it is run in the coordinator of the moment the query settles,
    which the events handled in the meantime may have changed. *)
Definition joinRoomAfterAwait (room : string) (query : QueryReply) (now : Z)
  : Handler unit :=
  tryCatch (joinRoomResume room query now) joinRoomCatch.

Definition leaveRoom (roomId : string) (now : Z) : Handler unit :=
  exists_ <- gets (fun c => JsMap.has roomId (chatRooms c)) ;;
  when exists_
    (modify (with_chatRooms (mutateMembers roomId (JsSet.delete (userId socket)))) ;;
     members <- gets (fun c => JsMap.get roomId (chatRooms c)) ;;
     members <- defined members "size" ;;
     when (Nat.eqb (JsSet.size members) 0)
       (modify (with_chatRooms (JsMap.delete roomId)))) ;;
  emit (ToRoom roomId) (UserLeftEv (userId socket) None (Some roomId) now).

(** The [typingData] array: the entries of [typingUsers] for [room], each
    with the user name found in [activeUsers]. *)
Definition typingSnapshot (room : string) : Handler (list (Ident * string)) :=
  marks <- gets typingUsers ;;
  mapM (fun entry : Ident * string =>
          u <- gets (fun c => JsMap.get (fst entry) (activeUsers c)) ;;
          u <- defined u "username" ;;
          ret (fst entry, au_username u))
       (filter (fun entry : Ident * string => String.eqb (snd entry) room) marks).

(** The [typing] listener.  [data] is [None] when the event came without
    a payload and otherwise the [room] property of the payload ([None]
    when it has none) with the truthiness of [isTyping]. *)
Definition typing (data : option (option string * bool)) : Handler unit :=
  fields <- destructure data "room" "data" ;;
  let (room, isTyping) := fields in
  match room with
  | Some r =>
      exists_ <- gets (fun c => JsMap.has r (chatRooms c)) ;;
      when (truthy room && exists_)
        ((if isTyping
          then modify (with_typingUsers (JsMap.set (userId socket) r))
          else modify (with_typingUsers (JsMap.delete (userId socket)))) ;;
         typingData <- typingSnapshot r ;;
         emit (ToRoom r) (TypingStatusEv typingData))
  | None => ret tt
  end.

(** The [stopTyping] listener; [data] is [None] when the event came
    without a payload and otherwise the [room] property of the payload.
    [typingUsers.has(room)] looks the room name up among the user ids
    that key [typingUsers]; only a guest id, a string, can equal it. *)
Definition stopTyping (data : option (option string)) : Handler unit :=
  room <- destructure data "room" "data" ;;
  match room with
  | Some r =>
      marked <- gets (fun c => JsMap.has (GuestId r) (typingUsers c)) ;;
      when marked
        (modify (with_typingUsers (JsMap.delete (userId socket))) ;;
         emit (ToRoom r) (UserStoppedTypingEv (userId socket)))
  | None => ret tt
  end.

(** [messageTimestamps.get(socket.userId) || []]. *)
Definition userTimestampsOf (c : Coordinator) : list Z :=
  match JsMap.get (userId socket) (messageTimestamps c) with
  | Some userTimestamps => userTimestamps
  | None => []
  end.

(** [userTimestamps.filter(time => timestamp - time < 1000)]. *)
Definition recentMessages (timestamp : Z) (userTimestamps : list Z) : list Z :=
  filter (fun time => (timestamp - time <? 1000)%Z) userTimestamps.

(** [socket.user._id.startsWith('guest-') ? 'guest' : 'user']: an
    [ObjectId] has no [startsWith] method, so the call raises a
    [TypeError] for a registered user. *)
Definition senderTypeOf (id : Ident) : Handler string :=
  match id with
  | GuestId s => ret (if startsWith "guest-" s then "guest" else "user")
  | ObjectId _ _ => throw "socket.user._id.startsWith is not a function"
  end.

(** The [groupMessage] listener, for an event whose payload is an object:
    [room] and [content] are its properties of these names, [None] when
    the payload has none. *)
Definition groupMessage (room content : option string) (timestamp : Z)
  (save : SaveReply) : Handler unit :=
  tryCatch
    (when (negb (truthy room) || negb (truthy content))
       (throw "Room and content are required") ;;
     room <- defined room "room" ;;
     content <- defined content "content" ;;
     exists_ <- gets (fun c => JsMap.has room (chatRooms c)) ;;
     when (negb exists_) (throw "Room does not exist") ;;
     members <- gets (fun c => JsMap.get room (chatRooms c)) ;;
     members <- defined members "has" ;;
     when (negb (JsSet.has (userId socket) members))
       (throw "User is not in this room") ;;
     userTimestamps <- gets userTimestampsOf ;;
     when (5 <=? List.length (recentMessages timestamp userTimestamps))%nat
       (throw "Message rate limit exceeded") ;;
     modify (with_messageTimestamps
               (JsMap.set (userId socket) (userTimestamps ++ [timestamp]))) ;;
     senderType <- senderTypeOf (_id (user socket)) ;;
     message <- match save with
                | Saved id createdAt =>
                    (let message :=
                       {| m_id := id;
                          m_content := content;
                          m_sender := userId socket;
                          m_senderType := senderType;
                          m_senderName := username (user socket);
                          m_senderAvatar := profilePicture (user socket);
                          m_room := room;
                          m_type := "group";
                          m_createdAt := createdAt |} in
                     modify (with_messageStore (fun store => store ++ [message])) ;;
                     ret message)
                | SaveRejected reason => throw reason
                end ;;
     emit (ToRoom room)
       (GroupMessageEv
          {| md_id := m_id message;
             md_content := m_content message;
             md_createdAt := m_createdAt message;
             md_sender := {| _id := userId socket;
                             username := username (user socket);
                             profilePicture := profilePicture (user socket) |} |}))
    (fun message => emit (ToSocket (socket_id socket)) (ErrorEv message)).

Definition disconnect (now : Z) : Handler unit :=
  modify (with_activeUsers (JsMap.delete (userId socket))) ;;
  users <- gets activeUsers ;;
  emit ToAll (ActiveUsersEv (JsMap.values users)) ;;
  entries <- gets chatRooms ;;
  (let (entries', left) := leaveAllRooms now entries in
   modify (with_chatRooms (fun _ => entries')) ;;
   emitAll left) ;;
  modify (with_typingUsers (JsMap.delete (userId socket))).

End Handlers.

(** ** Private messages *)

(** [s.userId === data.to]: strict equality of a user id with a field
    that came over the wire ([None] when the field is missing). *)
Definition strictEqTo (uid : Ident) (to : option Json) : bool :=
  match uid, to with
  | GuestId g, Some (JString s) => String.eqb g s
  | _, _ => false
  end.

(** [{ ...data, from: socket.userId, timestamp: new Date() }]: the fields
    of [data] in their order, [from] and [timestamp] overwritten in place
    or appended. *)
Definition stamped (socket : Socket) (data : list (string * Json)) (now : Z)
  : list (string * Value) :=
  JsMap.set "timestamp" (DateValue now)
    (JsMap.set "from" (UserIdValue (userId socket))
       (map (fun field : string * Json => (fst field, FromClient (snd field))) data)).

(** The [privateMessage] listener.  [sockets] is
    [Array.from(io.sockets.sockets.values())], the connected sockets in
    connection order; [data] is [None] when the client sent no payload.
    The result is the socket id the event is emitted to, with the emitted
    object, if any. *)
Definition privateMessage (socket : Socket) (sockets : list Socket)
  (data : option (list (string * Json))) (now : Z)
  : Completion (option (string * list (string * Value))) :=
  match data with
  | Some fields =>
      match find (fun s => strictEqTo (userId s) (JsMap.get "to" fields)) sockets with
      | Some recipientSocket =>
          Normal (Some (socket_id recipientSocket, stamped socket fields now))
      | None => Normal None
      end
  | None => Thrown (typeError "to")
  end.

(** The listener in the event loop: it touches none of the coordinator's
    maps. *)
Definition onPrivateMessage (socket : Socket) (sockets : list Socket)
  (data : option (list (string * Json))) (now : Z) : Handler unit :=
  match privateMessage socket sockets data now with
  | Normal (Some (recipient, object)) =>
      emit (ToSocket recipient) (PrivateMessageEv object)
  | Normal None => ret tt
  | Thrown error => throw error
  end.

(** ** The event loop *)

(** An inbound event together with the socket it arrives on, its payload
    ([None] when there is none) and the answers the environment gives
    while it is handled.  A [leaveRoom] event is given by the room name it
    carries, a [groupMessage] event by the [room] and [content] properties
    of its payload object. *)
Inductive Event : Type :=
| Connection (socket : Socket) (now : Z)
| JoinRoom (socket : Socket) (data : option string) (query : QueryReply) (now : Z)
| LeaveRoom (socket : Socket) (roomId : string) (now : Z)
| Typing (socket : Socket) (data : option (option string * bool))
| StopTyping (socket : Socket) (data : option (option string))
| GroupMessage (socket : Socket) (room content : option string) (timestamp : Z)
    (save : SaveReply)
| Disconnect (socket : Socket) (now : Z)
| PrivateMessage (socket : Socket) (sockets : list Socket)
    (data : option (list (string * Json))) (now : Z).

Definition dispatch (ev : Event) : Handler unit :=
  match ev with
  | Connection socket now => connection socket now
  | JoinRoom socket data query now => joinRoom socket data query now
  | LeaveRoom socket roomId now => leaveRoom socket roomId now
  | Typing socket data => typing socket data
  | StopTyping socket data => stopTyping socket data
  | GroupMessage socket room content timestamp save =>
      groupMessage socket room content timestamp save
  | Disconnect socket now => disconnect socket now
  | PrivateMessage socket sockets data now => onPrivateMessage socket sockets data now
  end.

(** Handles the events of [trace] in order, starting from [c]; the
    emitted events are collected in order.  [None] when a listener lets
    an exception escape. *)
Fixpoint run (trace : list Event) (c : Coordinator) : option (Coordinator * list Emit) :=
  match trace with
  | [] => Some (c, [])
  | ev :: rest =>
      match listen (dispatch ev) c with
      | Some (c1, out1) =>
          match run rest c1 with
          | Some (c2, out2) => Some (c2, out1 ++ out2)
          | None => None
          end
      | None => None
      end
  end.

(** ** Vocabulary of the properties *)

(** The four ways in which [groupMessage] refuses a message before it
    touches any state, in the order the handler tests them. *)
Inductive Refusal : Type :=
| MissingField
| UnknownRoom
| NotMember
| RateLimited.

Definition refusalMessage (r : Refusal) : string :=
  match r with
  | MissingField => "Room and content are required"
  | UnknownRoom => "Room does not exist"
  | NotMember => "User is not in this room"
  | RateLimited => "Message rate limit exceeded"
  end.

(** The sender is a member of an existing room [room]. *)
Definition memberOf (uid : Ident) (room : string) (c : Coordinator) : bool :=
  match JsMap.get room (chatRooms c) with
  | Some members => JsSet.has uid members
  | None => false
  end.

(** [refused socket room content timestamp c r]: the event fails for the
    reason [r] (every earlier test of the handler having passed). *)
Definition refused (socket : Socket) (room content : option string)
  (timestamp : Z) (c : Coordinator) (r : Refusal) : bool :=
  match r with
  | MissingField => negb (truthy room) || negb (truthy content)
  | UnknownRoom =>
      truthy room && truthy content &&
      match room with
      | Some name => negb (JsMap.has name (chatRooms c))
      | None => false
      end
  | NotMember =>
      truthy room && truthy content &&
      match room with
      | Some name =>
          JsMap.has name (chatRooms c) && negb (memberOf (userId socket) name c)
      | None => false
      end
  | RateLimited =>
      truthy room && truthy content &&
      match room with
      | Some name =>
          memberOf (userId socket) name c &&
          (5 <=? List.length (recentMessages timestamp (userTimestampsOf socket c)))%nat
      | None => false
      end
  end.

(** The event passes the three validity tests of [groupMessage] and
    reaches the rate limiter. *)
Definition wellAddressed (socket : Socket) (room content : option string)
  (c : Coordinator) : bool :=
  truthy room && truthy content &&
  match room with
  | Some name => memberOf (userId socket) name c
  | None => false
  end.

(** The rate limiter let the attempt at [timestamp] through: the instant
    was appended to the sender's recorded sequence. *)
Definition recorded (socket : Socket) (timestamp : Z) (before after : Coordinator) : Prop :=
  JsMap.get (userId socket) (messageTimestamps after)
  = Some (userTimestampsOf socket before ++ [timestamp]).

(** A run of attempts by one socket to one room. *)
Definition attempts (socket : Socket) (room content : string)
  (tries : list (Z * SaveReply)) : list Event :=
  map (fun attempt : Z * SaveReply =>
         GroupMessage socket (Some room) (Some content) (fst attempt) (snd attempt))
      tries.

(** The document that [groupMessage] hands to the store. *)
Definition storedMessage (socket : Socket) (room content : string) (senderType : string)
  (id : string) (createdAt : Z) : Message :=
  {| m_id := id;
     m_content := content;
     m_sender := userId socket;
     m_senderType := senderType;
     m_senderName := username (user socket);
     m_senderAvatar := profilePicture (user socket);
     m_room := room;
     m_type := "group";
     m_createdAt := createdAt |}.

(** Whether an outbound event is a [groupMessage] broadcast. *)
Definition isGroupMessage (e : Emit) : bool :=
  match snd e with
  | GroupMessageEv _ => true
  | _ => false
  end.

(** [l.map(f)] for a callback that may raise: the results in order, or
    nothing when some call raises. *)
Fixpoint traverse {A B} (f : A -> option B) (l : list A) : option (list B) :=
  match l with
  | [] => Some []
  | a :: rest =>
      match f a with
      | Some b =>
          match traverse f rest with
          | Some bs => Some (b :: bs)
          | None => None
          end
      | None => None
      end
  end.

(** The entry of a participant list for [uid], when [uid] is registered
    in [activeUsers]. *)
Definition describe (withStatus : bool) (users : list (Ident * ActiveUser))
  (uid : Ident) : option Participant :=
  match JsMap.get uid users with
  | Some u =>
      Some {| p_id := uid;
              p_username := au_username u;
              p_profilePicture := au_profilePicture u;
              p_status := if withStatus then Some (au_status u) else None |}
  | None => None
  end.

Definition typingEntry (users : list (Ident * ActiveUser)) (entry : Ident * string)
  : option (Ident * string) :=
  match JsMap.get (fst entry) users with
  | Some u => Some (fst entry, au_username u)
  | None => None
  end.

(** The typing marks that point at [room]. *)
Definition marksFor (room : string) (marks : list (Ident * string)) : list (Ident * string) :=
  filter (fun entry : Ident * string => String.eqb (snd entry) room) marks.

(** What one iteration of the "leave previous rooms" loop does to an
    entry of [chatRooms]. *)
Definition leaveIfOther (uid : Ident) (room : string) (entry : string * list Ident)
  : string * list Ident :=
  if JsSet.has uid (snd entry) && negb (String.eqb (fst entry) room)
  then (fst entry, JsSet.delete uid (snd entry))
  else entry.

Definition leaveIfMember (uid : Ident) (entry : string * list Ident)
  : string * list Ident :=
  if JsSet.has uid (snd entry)
  then (fst entry, JsSet.delete uid (snd entry))
  else entry.

(** [if (!chatRooms.has(room)) chatRooms.set(room, new Set())]. *)
Definition ensureRoom (room : string) (rooms : list (string * list Ident))
  : list (string * list Ident) :=
  if JsMap.has room rooms then rooms else JsMap.set room [] rooms.

(** The membership table after the synchronous part of [joinRoom]. *)
Definition joinedRooms (socket : Socket) (room : string) (now : Z)
  (rooms : list (string * list Ident)) : list (string * list Ident) :=
  mutateMembers room (JsSet.add (userId socket))
    (ensureRoom room (fst (leavePreviousRooms socket room now rooms))).

(** The membership table after [leaveRoom]. *)
Definition roomsAfterLeave (uid : Ident) (roomId : string)
  (rooms : list (string * list Ident)) : list (string * list Ident) :=
  match JsMap.get roomId rooms with
  | Some members =>
      if Nat.eqb (JsSet.size (JsSet.delete uid members)) 0
      then JsMap.delete roomId (JsMap.set roomId (JsSet.delete uid members) rooms)
      else JsMap.set roomId (JsSet.delete uid members) rooms
  | None => rooms
  end.

(** The rooms whose member set contains [uid], in table order. *)
Definition roomsHolding (uid : Ident) (rooms : list (string * list Ident)) : list string :=
  map fst (filter (fun entry : string * list Ident => JsSet.has uid (snd entry)) rooms).

(** No participant is a member of two different rooms. *)
Definition exclusive (rooms : list (string * list Ident)) : Prop :=
  forall uid r1 m1 r2 m2,
    In (r1, m1) rooms -> In (r2, m2) rooms ->
    JsSet.has uid m1 = true -> JsSet.has uid m2 = true -> r1 = r2.

(** The table is a well-formed [Map] of [Set]s with exclusive membership. *)
Definition tidy (rooms : list (string * list Ident)) : Prop :=
  NoDup (map fst rooms)
  /\ Forall (fun entry : string * list Ident => NoDup (snd entry)) rooms
  /\ exclusive rooms.

(** What [joinRoom] emits after the membership update, in the state [c1]
    that the update produced: the snapshot to the joining socket and the
    two room broadcasts, or the [error] event of the [catch] clause. *)
Definition joinOutput (socket : Socket) (room : string) (query : QueryReply) (now : Z)
  (c1 : Coordinator) : list Emit :=
  let failed := [(ToSocket (socket_id socket), ErrorEv "Failed to join room")] in
  match query with
  | QueryRejected _ => failed
  | Answered =>
      match JsMap.get room (chatRooms c1) with
      | Some members =>
          match traverse (describe true (activeUsers c1)) members with
          | Some participants =>
              (ToSocket (socket_id socket),
               ChatHistoryEv (findRoomMessages room (messageStore c1)) participants)
              :: (ToRoom room, UserJoinedEv (userId socket) (username (user socket)) now)
              :: match traverse (describe false (activeUsers c1)) members with
                 | Some participants' =>
                     [(ToRoom room, UpdateParticipantsEv participants')]
                 | None => failed
                 end
          | None => failed
          end
      | None => failed
      end
  end.

(** The coordinator after [disconnect]. *)
Definition disconnected (socket : Socket) (now : Z) (c : Coordinator) : Coordinator :=
  with_typingUsers (JsMap.delete (userId socket))
    (with_chatRooms (fun rooms => fst (leaveAllRooms socket now rooms))
       (with_activeUsers (JsMap.delete (userId socket)) c)).

(** The three keyed tables are well-formed [Map]s and membership is
    exclusive. *)
Definition consistent (c : Coordinator) : Prop :=
  tidy (chatRooms c)
  /\ NoDup (map fst (activeUsers c))
  /\ NoDup (map fst (typingUsers c)).

Definition isUserJoined (e : Emit) : bool :=
  match snd e with
  | UserJoinedEv _ _ _ => true
  | _ => false
  end.

Definition isUserLeft (e : Emit) : bool :=
  match snd e with
  | UserLeftEv _ _ _ _ => true
  | _ => false
  end.


Definition isChatHistory (e : Emit) : bool :=
  match snd e with
  | ChatHistoryEv _ _ => true
  | _ => false
  end.



(** The stored messages of [room], oldest first: the query of [joinRoom]
    before its [limit]. *)
Definition roomHistory (room : string) (store : list Message) : list Message :=
  sortByCreatedAt (filter (fun m => String.eqb (m_room m) room) store).

Definition oldestFirst (a b : Message) : Prop := (m_createdAt a <= m_createdAt b)%Z.

(** The design document's reading of the snapshot: the last [n] elements
    of a list, in their order. *)
Definition lastN {A} (n : nat) (l : list A) : list A :=
  skipn (List.length l - n) l.

(** ** Scenarios

    Sockets and reachable states on which the statements are exercised. *)

Definition alice : Socket :=
  {| socket_id := "sock-a";
     userId := _id (guestUser 1700000000001);
     user := guestUser 1700000000001 |}.

Definition bob : Socket :=
  {| socket_id := "sock-b";
     userId := _id (guestUser 1700000000002);
     user := guestUser 1700000000002 |}.

(** A registered user: [socket.userId] is the document's [ObjectId]. *)
Definition carolHex : string := "64f1c0a2b3d4e5f607182930".

Definition carol : Socket :=
  {| socket_id := "sock-c";
     userId := ObjectId carolHex 7;
     user := {| _id := ObjectId carolHex 7; username := "carol";
                profilePicture := "/avatars/carol.png" |} |}.

(** The same user connected a second time (another browser tab, the same
    token): the middleware has fetched the user document again, whose
    [_id] is another [ObjectId] object holding the same id. *)
Definition carolSecondTab : Socket :=
  {| socket_id := "sock-c2";
     userId := ObjectId carolHex 8;
     user := {| _id := ObjectId carolHex 8; username := "carol";
                profilePicture := "/avatars/carol.png" |} |}.

(** A second guest admitted in the same millisecond as Alice: the same
    id string on another socket. *)
Definition aliceTwin : Socket :=
  {| socket_id := "sock-a2";
     userId := _id (guestUser 1700000000001);
     user := guestUser 1700000000001 |}.

Definition dave : Socket :=
  {| socket_id := "sock-d";
     userId := _id (guestUser 1700000000004);
     user := guestUser 1700000000004 |}.

(** The state and the output of the server after [trace], from start-up. *)
Definition finalState (trace : list Event) : Coordinator :=
  match run trace emptyCoordinator with
  | Some (c, _) => c
  | None => emptyCoordinator
  end.

Definition finalOutput (trace : list Event) : list Emit :=
  match run trace emptyCoordinator with
  | Some (_, out) => out
  | None => []
  end.

(** Alice and Bob connected, both in room ["r1"]. *)
Definition twoInRoomTrace : list Event :=
  [Connection alice 1; Connection bob 2;
   JoinRoom alice (Some "r1") Answered 3; JoinRoom bob (Some "r1") Answered 4].

Definition twoInRoom : Coordinator := finalState twoInRoomTrace.

(** Alice connected and alone in room ["r1"]. *)
Definition aliceInRoomTrace : list Event :=
  [Connection alice 1; JoinRoom alice (Some "r1") Answered 2].

Definition aliceInRoom : Coordinator := finalState aliceInRoomTrace.

(** Alice and Bob in ["r1"], Alice typing there. *)
Definition aliceTypingTrace : list Event :=
  twoInRoomTrace ++ [Typing alice (Some (Some "r1", true))].

Definition aliceTyping : Coordinator := finalState aliceTypingTrace.



(** The identifier the store gives to the [i]-th message of the
    scenario below. *)
Definition messageName (i : nat) : string := ("m" ++ decimal (Z.of_nat i))%string.

(** Alice, alone in ["r1"], sends 51 messages one second apart; they are
    stored as ["m1"] ... ["m51"].  Then Bob connects. *)
Definition fiftyOneMessages : list Event :=
  map (fun i : nat =>
         GroupMessage alice (Some "r1") (Some "hello") (1000 * Z.of_nat i)
           (Saved (messageName i) (1000 * Z.of_nat i + 1)))
      (seq 1 51).

Definition busyRoomTrace : list Event :=
  aliceInRoomTrace ++ fiftyOneMessages ++ [Connection bob 60000].

Definition busyRoom : Coordinator := finalState busyRoomTrace.

(** Carol, connected twice, joins ["r1"] on one connection and ["r2"] on
    the other. *)
Definition twoTabsTrace : list Event :=
  [Connection carol 1; Connection carolSecondTab 2;
   JoinRoom carol (Some "r1") Answered 3;
   JoinRoom carolSecondTab (Some "r2") Answered 4].

Definition twoTabs : Coordinator := finalState twoTabsTrace.

(** Alice and Bob in ["r1"]; Bob asks to join ["r2"] and then leaves
    ["r2"].  The coordinator after these events is also the one in which
    the rest of Bob's join runs when his [leaveRoom] is handled while the
    history query is still pending: an event changes the coordinator only
    before its first [await]. *)
Definition interruptedJoinTrace : list Event :=
  twoInRoomTrace ++ [JoinRoom bob (Some "r2") Answered 7; LeaveRoom bob "r2" 8].

(** The same moves by two sockets that share a guest id. *)
Definition twinGuestsTrace : list Event :=
  [Connection alice 1; Connection aliceTwin 1;
   JoinRoom alice (Some "r1") Answered 3;
   JoinRoom aliceTwin (Some "r2") Answered 4].

Definition twinGuests : Coordinator := finalState twinGuestsTrace.

(** A verifier and a user collection to exercise the middleware: one
    token of a stored user, one token whose user has been deleted; every
    other token fails verification. *)
Definition sampleVerify (tok : string) : option (option string) :=
  if String.eqb tok "token-of-carol" then Some (Some "carol-id")
  else if String.eqb tok "token-of-deleted-user" then Some (Some "deleted-id")
  else None.

Definition sampleFindById (id : option string) : Lookup :=
  match id with
  | Some name => if String.eqb name "carol-id" then LookupDoc (user carol) else LookupNull
  | None => LookupNull
  end.

(** ** The Express error-handling middleware *)

(** The error object that reaches the Express error-handling middleware:
    the three properties the middleware reads.  [err_status] is [None]
    when the error has no [status] and otherwise its value, an integer (a
    status that is not an integer is not modelled). *)
Record ServerError : Type := {
  err_name : option string;
  err_status : option Z;
  err_message : option string
}.

(** The JSON body of the error response. *)
Inductive ErrorBody : Type :=
| WithDetails (error : string) (details : option string)
| WithStatus (error : string) (status : Z).

Definition nameIs (name : option string) (expected : string) : bool :=
  match name with
  | Some n => String.eqb n expected
  | None => false
  end.

(** What [res.status(status).json(body)] comes to: the status code and
    the body are handed to the response, or the call raises a
    [RangeError] because the status code is not one that Node accepts, in
    which case this middleware answers nothing and the error goes on to
    Express's own final handler. *)
Inductive ErrorResponse : Type :=
| Sent (status : Z) (body : ErrorBody)
| StatusRefused (status : Z).

(** The status codes that Node (and Express's [res.status]) accept. *)
Definition validStatus (status : Z) : bool :=
  (100 <=? status)%Z && (status <=? 999)%Z.

Definition respond (status : Z) (body : ErrorBody) : ErrorResponse :=
  if validStatus status then Sent status body else StatusRefused status.

(** [app.use((err, req, res, next) => ...)].  [err.status || 500]
    replaces a missing or zero status, [err.message || '...'] a missing or
    empty message. *)
Definition errorMiddleware (err : ServerError) : ErrorResponse :=
  if nameIs (err_name err) "ValidationError" then
    respond 400 (WithDetails "Validation Error" (err_message err))
  else if nameIs (err_name err) "UnauthorizedError" then
    respond 401 (WithDetails "Unauthorized" (err_message err))
  else
    let status := match err_status err with
                  | Some s => if (s =? 0)%Z then 500%Z else s
                  | None => 500%Z
                  end in
    let message := match err_message err with
                   | Some m => if truthy (err_message err) then m
                               else "Internal Server Error"
                   | None => "Internal Server Error"
                   end in
    respond status (WithStatus message status).

(** ** Vocabulary of the further properties *)

(** [uid] is in the member set stored under [room]. *)
Definition holds (uid : Ident) (room : string) (rooms : list (string * list Ident)) : bool :=
  match JsMap.get room rooms with
  | Some members => JsSet.has uid members
  | None => false
  end.

(** The socket an event arrives on. *)
Definition senderOf (ev : Event) : Socket :=
  match ev with
  | Connection socket _ => socket
  | JoinRoom socket _ _ _ => socket
  | LeaveRoom socket _ _ => socket
  | Typing socket _ => socket
  | StopTyping socket _ => socket
  | GroupMessage socket _ _ _ _ => socket
  | Disconnect socket _ => socket
  | PrivateMessage socket _ _ _ => socket
  end.


(** A socket object is compared by identity; a value of [Socket] stands
    for one socket object. *)
Definition socket_same (a b : Socket) : bool :=
  String.eqb (socket_id a) (socket_id b)
  && same (userId a) (userId b)
  && (same (_id (user a)) (_id (user b))
      && String.eqb (username (user a)) (username (user b))
      && String.eqb (profilePicture (user a)) (profilePicture (user b))).

#[export, refine] Instance Socket_Key : Key Socket := {| same := socket_same |}.
Proof.
  intros [ia ua [xa na pa]] [ib ub [xb nb pb]]. unfold socket_same.
  cbn [socket_id userId user _id username profilePicture].
  split.
  - intro H. apply andb_prop in H as [H Hu]. apply andb_prop in H as [Hi Hid].
    apply andb_prop in Hu as [Hu Hp]. apply andb_prop in Hu as [Hx Hn].
    apply String.eqb_eq in Hi, Hn, Hp.
    apply same_spec in Hid, Hx. now subst.
  - intro H. injection H as -> -> -> -> ->.
    rewrite !String.eqb_refl.
    rewrite (proj2 (same_spec ub ub) eq_refl), (proj2 (same_spec xb xb) eq_refl).
    reflexivity.
Defined.

(** The sockets that are connected once [ev] has been handled, given
    those connected before, in connection order. *)
Definition connectedAfterEvent (live : list Socket) (ev : Event) : list Socket :=
  match ev with
  | Connection socket _ => JsSet.add socket live
  | Disconnect socket _ => JsSet.delete socket live
  | _ => live
  end.

Definition connectedAfter (live : list Socket) (trace : list Event) : list Socket :=
  fold_left connectedAfterEvent trace live.

(** Every event of [trace] other than a connection arrives on a socket
    that is connected at that moment. *)
Fixpoint inSession (live : list Socket) (trace : list Event) : bool :=
  match trace with
  | [] => true
  | ev :: rest =>
      match ev with
      | Connection _ _ => true
      | _ => JsSet.has (senderOf ev) live
      end
      && inSession (connectedAfterEvent live ev) rest
  end.

(** No socket connects while a connected socket carries the same user
    id (as a second guest admitted in the same millisecond would). *)
Fixpoint distinctIds (live : list Socket) (trace : list Event) : bool :=
  match trace with
  | [] => true
  | ev :: rest =>
      match ev with
      | Connection socket _ =>
          forallb (fun other : Socket => negb (same (userId other) (userId socket))) live
      | _ => true
      end
      && distinctIds (connectedAfterEvent live ev) rest
  end.

(** The event came with a payload object. *)
Definition carriesPayload (ev : Event) : bool :=
  match ev with
  | JoinRoom _ None _ _ => false
  | Typing _ None => false
  | StopTyping _ None => false
  | PrivateMessage _ _ None _ => false
  | _ => true
  end.

(** The presence registry lists exactly the ids of [live], and every room
    member and every typing participant is among them. *)
Definition registered (live : list Ident) (c : Coordinator) : Prop :=
  NoDup live
  /\ (forall u, JsMap.has u (activeUsers c) = JsSet.has u live)
  /\ (forall r m u, In (r, m) (chatRooms c) -> In u m -> In u live)
  /\ (forall u r, In (u, r) (typingUsers c) -> In u live).

(** Each instant of [later] was recorded with fewer than five of the
    instants before it less than 1000ms older. *)
Fixpoint pacedFrom (earlier later : list Z) : bool :=
  match later with
  | [] => true
  | t :: rest =>
      (List.length (recentMessages t earlier) <? 5)%nat
      && pacedFrom (earlier ++ [t]) rest
  end.

Definition paced (recorded : list Z) : bool := pacedFrom [] recorded.

(** The [groupMessage] broadcasts of an output, in order. *)
Definition groupBroadcasts (out : list Emit) : list MessageData :=
  flat_map (fun e : Emit =>
              match snd e with
              | GroupMessageEv messageData => [messageData]
              | _ => []
              end) out.

(** The events of a trace that are not [leaveRoom]. *)
Definition isLeaveRoom (ev : Event) : bool :=
  match ev with
  | LeaveRoom _ _ _ => true
  | _ => false
  end.

(** * Properties *)

(** ** Stepping through a handler *)

Ltac hsimpl :=
  cbv beta iota delta
    [bind ret throw emit gets modify tryCatch when defined destructure
     JsMap.has stateOf outputOf];
  cbn [negb orb andb fst snd app].

(** An event whose payload is missing where the listener destructures
    it is not handled: the listener raises. *)
Ltac absent_payload :=
  let H := fresh "H" in
  match goal with
  | |- listen (joinRoom _ None _ _) _ = Some _ -> _ => intro H; cbv in H; discriminate H
  | |- listen (typing _ None) _ = Some _ -> _ => intro H; cbv in H; discriminate H
  | |- listen (stopTyping _ None) _ = Some _ -> _ => intro H; cbv in H; discriminate H
  end.

Lemma leb_5_true (n : nat) : 5 <= n -> (5 <=? n)%nat = true.
Proof. intro H. now apply Nat.leb_le. Qed.

Lemma leb_5_false (n : nat) : n < 5 -> (5 <=? n)%nat = false.
Proof. intro H. now apply Nat.leb_gt. Qed.

(** ** [groupMessage] *)

Section GroupMessage.

Variable socket : Socket.

Lemma groupMessage_missing room content timestamp save c :
  negb (truthy room) || negb (truthy content) = true ->
  groupMessage socket room content timestamp save c
  = (Normal tt, c,
     [(ToSocket (socket_id socket), ErrorEv "Room and content are required")]).
Proof.
  intro H. unfold groupMessage. hsimpl. rewrite H. reflexivity.
Qed.

Lemma groupMessage_unknown_room room content timestamp save c :
  truthy (Some room) = true -> truthy (Some content) = true ->
  JsMap.get room (chatRooms c) = None ->
  groupMessage socket (Some room) (Some content) timestamp save c
  = (Normal tt, c, [(ToSocket (socket_id socket), ErrorEv "Room does not exist")]).
Proof.
  intros Hr Hc Hg. unfold groupMessage.
  repeat (hsimpl; rewrite ?Hr, ?Hc, ?Hg). reflexivity.
Qed.

Lemma groupMessage_not_member room content timestamp save c members :
  truthy (Some room) = true -> truthy (Some content) = true ->
  JsMap.get room (chatRooms c) = Some members ->
  JsSet.has (userId socket) members = false ->
  groupMessage socket (Some room) (Some content) timestamp save c
  = (Normal tt, c, [(ToSocket (socket_id socket), ErrorEv "User is not in this room")]).
Proof.
  intros Hr Hc Hg Hm. unfold groupMessage.
  repeat (hsimpl; rewrite ?Hr, ?Hc, ?Hg, ?Hm). reflexivity.
Qed.

Lemma groupMessage_rate_limited room content timestamp save c members :
  truthy (Some room) = true -> truthy (Some content) = true ->
  JsMap.get room (chatRooms c) = Some members ->
  JsSet.has (userId socket) members = true ->
  5 <= List.length (recentMessages timestamp (userTimestampsOf socket c)) ->
  groupMessage socket (Some room) (Some content) timestamp save c
  = (Normal tt, c, [(ToSocket (socket_id socket), ErrorEv "Message rate limit exceeded")]).
Proof.
  intros Hr Hc Hg Hm Hn. apply leb_5_true in Hn. unfold groupMessage.
  repeat (hsimpl; rewrite ?Hr, ?Hc, ?Hg, ?Hm, ?Hn). reflexivity.
Qed.

(** What the handler does once the rate limiter has let the message
    through: the instant is recorded, then the sender type is computed,
    the document is saved and only then broadcast. *)
Lemma groupMessage_passed room content timestamp save c members :
  truthy (Some room) = true -> truthy (Some content) = true ->
  JsMap.get room (chatRooms c) = Some members ->
  JsSet.has (userId socket) members = true ->
  List.length (recentMessages timestamp (userTimestampsOf socket c)) < 5 ->
  let c1 := with_messageTimestamps
              (JsMap.set (userId socket) (userTimestampsOf socket c ++ [timestamp])) c in
  groupMessage socket (Some room) (Some content) timestamp save c
  = match _id (user socket), save with
    | ObjectId _ _, _ =>
        (Normal tt, c1,
         [(ToSocket (socket_id socket),
           ErrorEv "socket.user._id.startsWith is not a function")])
    | GuestId _, SaveRejected reason =>
        (Normal tt, c1, [(ToSocket (socket_id socket), ErrorEv reason)])
    | GuestId s, Saved id createdAt =>
        (Normal tt,
         with_messageStore
           (fun store =>
              store ++ [storedMessage socket room content
                          (if startsWith "guest-" s then "guest" else "user")
                          id createdAt]) c1,
         [(ToRoom room,
           GroupMessageEv
             {| md_id := id; md_content := content; md_createdAt := createdAt;
                md_sender := {| _id := userId socket;
                                username := username (user socket);
                                profilePicture := profilePicture (user socket) |} |})])
    end.
Proof.
  intros Hr Hc Hg Hm Hn c1. apply leb_5_false in Hn. unfold groupMessage.
  repeat (hsimpl; rewrite ?Hr, ?Hc, ?Hg, ?Hm, ?Hn).
  destruct (_id (user socket)) as [s|h n]; cbn [senderTypeOf]; hsimpl;
    [destruct save; hsimpl|]; reflexivity.
Qed.

End GroupMessage.

(** ** Facts about insertion-ordered maps and sets *)

Section MapFacts.

Context {K V : Type} `{Key K}.

Lemma same_refl (k : K) : same k k = true.
Proof. now apply same_spec. Qed.

Lemma same_false (a b : K) : a <> b -> same a b = false.
Proof.
  intro Hne. destruct (same a b) eqn:E; [|reflexivity].
  apply same_spec in E. contradiction.
Qed.

Lemma same_true_eq (a b : K) : same a b = true -> a = b.
Proof. apply same_spec. Qed.

Lemma get_set_same (k : K) (v : V) (m : list (K * V)) :
  JsMap.get k (JsMap.set k v m) = Some v.
Proof.
  induction m as [|[k' v'] m IH]; simpl.
  - now rewrite same_refl.
  - destruct (same k' k) eqn:E; simpl; rewrite E; [reflexivity | exact IH].
Qed.

Lemma get_set_other (k k' : K) (v : V) (m : list (K * V)) :
  k <> k' -> JsMap.get k' (JsMap.set k v m) = JsMap.get k' m.
Proof.
  intro Hne. induction m as [|[k0 v0] m IH]; simpl.
  - now rewrite same_false.
  - destruct (same k0 k) eqn:E; simpl.
    + apply same_true_eq in E. subst k0. now rewrite same_false.
    + now rewrite IH.
Qed.

End MapFacts.

(** ** The rate limiter and the refusals of [groupMessage] *)

Section GroupMessageClaims.

Variable socket : Socket.



Lemma recentMessages_all (timestamp : Z) (userTimestamps : list Z) :
  (forall t, In t userTimestamps -> (timestamp - t < 1000)%Z) ->
  recentMessages timestamp userTimestamps = userTimestamps.
Proof.
  unfold recentMessages. induction userTimestamps as [|t l IH]; intro Hall; simpl.
  - reflexivity.
  - assert (Ht : (timestamp - t <? 1000)%Z = true)
      by (apply Z.ltb_lt, Hall; now left).
    rewrite Ht. f_equal. apply IH. intros t' Hin. apply Hall. now right.
Qed.

(** Every event is either refused for one of the four reasons or passes
    the rate limiter. *)
Lemma groupMessage_cases room content timestamp c :
  (exists r, refused socket room content timestamp c r = true)
  \/ (exists name text members,
        room = Some name /\ content = Some text /\
        truthy room = true /\ truthy content = true /\
        JsMap.get name (chatRooms c) = Some members /\
        JsSet.has (userId socket) members = true /\
        List.length (recentMessages timestamp (userTimestampsOf socket c)) < 5).
Proof.
  destruct (truthy room) eqn:Hr; [|left; exists MissingField; cbn [refused]; now rewrite Hr].
  destruct (truthy content) eqn:Hc;
    [|left; exists MissingField; cbn [refused]; rewrite Hr, Hc; reflexivity].
  destruct room as [name|]; [|discriminate].
  destruct content as [text|]; [|discriminate].
  destruct (JsMap.get name (chatRooms c)) as [members|] eqn:Hg.
  - destruct (JsSet.has (userId socket) members) eqn:Hm.
    + destruct (Nat.leb_spec 5
                  (List.length (recentMessages timestamp (userTimestampsOf socket c))))
        as [Hn|Hn].
      * left. exists RateLimited. cbn [refused]. unfold memberOf. rewrite Hr, Hc, Hg, Hm.
        cbn [andb]. now apply Nat.leb_le.
      * right. exists name, text, members. repeat split; assumption.
    + left. exists NotMember. cbn [refused]. unfold memberOf, JsMap.has.
      rewrite Hr, Hc, Hg, Hm. reflexivity.
  - left. exists UnknownRoom. cbn [refused]. unfold JsMap.has. rewrite Hr, Hc, Hg. reflexivity.
Qed.

Lemma wellAddressed_inv room content c :
  wellAddressed socket room content c = true ->
  exists name text members,
    room = Some name /\ content = Some text /\
    truthy (Some name) = true /\ truthy (Some text) = true /\
    JsMap.get name (chatRooms c) = Some members /\
    JsSet.has (userId socket) members = true.
Proof.
  unfold wellAddressed, memberOf. intro H.
  apply andb_prop in H as [H Hm]. apply andb_prop in H as [Hr Hc].
  destruct room as [name|]; [|discriminate].
  destruct content as [text|]; [|discriminate].
  destruct (JsMap.get name (chatRooms c)) as [members|] eqn:Hg; [|discriminate].
  exists name, text, members. repeat split; assumption.
Qed.

Lemma refused_sound room content timestamp save c r :
  refused socket room content timestamp c r = true ->
  groupMessage socket room content timestamp save c
  = (Normal tt, c, [(ToSocket (socket_id socket), ErrorEv (refusalMessage r))]).
Proof.
  destruct r; cbn [refused refusalMessage]; intro H.
  - now apply groupMessage_missing.
  - apply andb_prop in H as [H Hx]. apply andb_prop in H as [Hr Hc].
    destruct room as [name|]; [|discriminate].
    destruct content as [text|]; [|discriminate].
    unfold JsMap.has in Hx.
    destruct (JsMap.get name (chatRooms c)) eqn:Hg; [discriminate|].
    now apply groupMessage_unknown_room.
  - apply andb_prop in H as [H Hx]. apply andb_prop in H as [Hr Hc].
    destruct room as [name|]; [|discriminate].
    destruct content as [text|]; [|discriminate].
    unfold JsMap.has, memberOf in Hx.
    destruct (JsMap.get name (chatRooms c)) as [members|] eqn:Hg; [|discriminate].
    cbn [andb] in Hx. apply negb_true_iff in Hx.
    now apply groupMessage_not_member with (members := members).
  - apply andb_prop in H as [H Hx]. apply andb_prop in H as [Hr Hc].
    destruct room as [name|]; [|discriminate].
    destruct content as [text|]; [|discriminate].
    apply andb_prop in Hx as [Hm Hn]. unfold memberOf in Hm.
    destruct (JsMap.get name (chatRooms c)) as [members|] eqn:Hg; [|discriminate].
    apply Nat.leb_le in Hn.
    now apply groupMessage_rate_limited with (members := members).
Qed.

End GroupMessageClaims.

(** C10.  A [groupMessage] event that fails because a field is missing,
    the room does not exist, the sender is not a member, or the rate limit
    is reached leaves the whole coordinator as it was (maps, recorded
    timestamps and message store alike), broadcasts nothing, and emits
    exactly one [error] event, carrying the failure message, to the
    sender's socket. *)
Theorem groupMessage_refusal_changes_nothing :
  forall (socket : Socket) (room content : option string) (timestamp : Z)
         (save : SaveReply) (c : Coordinator) (r : Refusal),
    refused socket room content timestamp c r = true ->
    groupMessage socket room content timestamp save c
    = (Normal tt, c, [(ToSocket (socket_id socket), ErrorEv (refusalMessage r))]).
Proof.
  intros. now apply refused_sound.
Qed.

Lemma groupMessage_refusal_changes_nothing_witness :
  refused alice (Some "r2") (Some "hi") 10 twoInRoom UnknownRoom = true
  /\ groupMessage alice (Some "r2") (Some "hi") 10 (Saved "m1" 11) twoInRoom
     = (Normal tt, twoInRoom, [(ToSocket "sock-a", ErrorEv "Room does not exist")]).
Proof.
  split; [reflexivity|].
  apply (groupMessage_refusal_changes_nothing
           alice (Some "r2") (Some "hi") 10 (Saved "m1" 11) twoInRoom UnknownRoom).
  reflexivity.
Defined.

Section GroupMessageOrder.

Variable socket : Socket.

(** The handler always completes: its [catch] turns every exception into
    an [error] event. *)
Lemma groupMessage_completes room content timestamp save c :
  fst (fst (groupMessage socket room content timestamp save c)) = Normal tt.
Proof.
  destruct (groupMessage_cases socket room content timestamp c)
    as [[r Hr] | (name & text & members & -> & -> & Hr & Hc & Hg & Hm & Hn)].
  - now rewrite (refused_sound socket _ _ _ save _ _ Hr).
  - rewrite (groupMessage_passed socket _ _ _ save _ _ Hr Hc Hg Hm Hn).
    destruct (_id (user socket)); [destruct save|]; reflexivity.
Qed.

Lemma groupMessage_chatRooms room content timestamp save c :
  chatRooms (stateOf (groupMessage socket room content timestamp save c)) = chatRooms c.
Proof.
  destruct (groupMessage_cases socket room content timestamp c)
    as [[r Hr] | (name & text & members & -> & -> & Hr & Hc & Hg & Hm & Hn)].
  - now rewrite (refused_sound socket _ _ _ save _ _ Hr).
  - rewrite (groupMessage_passed socket _ _ _ save _ _ Hr Hc Hg Hm Hn).
    destruct (_id (user socket)); [destruct save|]; reflexivity.
Qed.

Lemma groupMessage_listen room content timestamp save c :
  listen (groupMessage socket room content timestamp save) c
  = Some (stateOf (groupMessage socket room content timestamp save c),
          outputOf (groupMessage socket room content timestamp save c)).
Proof.
  unfold listen, stateOf, outputOf.
  pose proof (groupMessage_completes room content timestamp save c) as H.
  destruct (groupMessage socket room content timestamp save c) as [[r c'] out].
  simpl in *. now subst r.
Qed.



End GroupMessageOrder.

(** C1.  A [groupMessage] broadcast reaches the room only after the
    document has been written to the message store: every [groupMessage]
    event in the output is addressed to the room, comes with a successful
    save, and the saved document is the last one of the store; and when
    the save is rejected nothing is stored, nothing is broadcast, and the
    only output is one [error] event to the sender's socket (the save is
    consulted once, there is no second attempt) -- the rejection reason
    itself when the event had passed the handler's tests. *)
Theorem groupMessage_broadcast_follows_save :
  forall (socket : Socket) (room content : option string) (timestamp : Z)
         (save : SaveReply) (c : Coordinator),
    let r := groupMessage socket room content timestamp save c in
    (forall e, In e (outputOf r) -> isGroupMessage e = true ->
       exists id createdAt name text senderType,
         save = Saved id createdAt /\ room = Some name /\ content = Some text
         /\ messageStore (stateOf r)
            = messageStore c ++ [storedMessage socket name text senderType id createdAt]
         /\ e = (ToRoom name,
                 GroupMessageEv
                   {| md_id := id; md_content := text; md_createdAt := createdAt;
                      md_sender := {| _id := userId socket;
                                      username := username (user socket);
                                      profilePicture := profilePicture (user socket) |} |}))
    /\ (forall reason, save = SaveRejected reason ->
          messageStore (stateOf r) = messageStore c
          /\ (forall e, In e (outputOf r) -> isGroupMessage e = false)
          /\ exists message, outputOf r = [(ToSocket (socket_id socket), ErrorEv message)])
    /\ (forall reason s, save = SaveRejected reason ->
          wellAddressed socket room content c = true ->
          List.length (recentMessages timestamp (userTimestampsOf socket c)) < 5 ->
          _id (user socket) = GuestId s ->
          outputOf r = [(ToSocket (socket_id socket), ErrorEv reason)]).
Proof.
  intros socket room content timestamp save c r. subst r.
  destruct (groupMessage_cases socket room content timestamp c)
    as [[rf Hrf] | (name & text & members & -> & -> & Hr & Hc & Hg & Hm & Hn)].
  - rewrite (refused_sound socket _ _ _ save _ _ Hrf). unfold stateOf, outputOf.
    cbn [fst snd]. split; [|split].
    + intros e [<-|[]] He. discriminate.
    + intros reason _. split; [reflexivity|]. split.
      * intros e [<-|[]]. reflexivity.
      * now eexists.
    + intros reason s _ Hw Hn _. exfalso.
      destruct (wellAddressed_inv socket _ _ _ Hw)
        as (name & text & members & -> & -> & Hr & Hc & Hg & Hm).
      destruct rf; cbn [refused] in Hrf; unfold memberOf, JsMap.has in Hrf;
        rewrite ?Hr, ?Hc, ?Hg, ?Hm in Hrf; cbn [andb orb negb] in Hrf;
        try discriminate.
      apply Nat.leb_le in Hrf. lia.
  - rewrite (groupMessage_passed socket _ _ _ save _ _ Hr Hc Hg Hm Hn).
    unfold stateOf, outputOf.
    destruct (_id (user socket)) as [s|h n] eqn:Hid; [destruct save as [id createdAt|why]|];
      cbn [fst snd]; (split; [|split]).
    + intros e [<-|[]] _.
      exists id, createdAt, name, text, (if startsWith "guest-" s then "guest" else "user").
      repeat split; reflexivity.
    + intros reason Hs. discriminate.
    + intros reason s' Hs. discriminate.
    + intros e [<-|[]] He. discriminate.
    + intros reason _. split; [reflexivity|]. split.
      * intros e [<-|[]]. reflexivity.
      * now eexists.
    + intros reason s' Hs _ _ _. now injection Hs as ->.
    + intros e [<-|[]] He. discriminate.
    + intros reason _. split; [reflexivity|]. split.
      * intros e [<-|[]]. reflexivity.
      * now eexists.
    + intros reason s' _ _ _ Hs. discriminate.
Qed.

Lemma groupMessage_broadcast_follows_save_witness :
  outputOf (groupMessage alice (Some "r1") (Some "hi") 10 (SaveRejected "store down")
              twoInRoom)
  = [(ToSocket "sock-a", ErrorEv "store down")].
Proof.
  apply (proj2 (proj2 (groupMessage_broadcast_follows_save
                         alice (Some "r1") (Some "hi") 10 (SaveRejected "store down")
                         twoInRoom))
           "store down" "guest-1700000000001");
    [reflexivity | reflexivity | vm_compute; lia | reflexivity].
Defined.



(** ** Read-only loops *)

Lemma mapM_reader {A B} (f : A -> Handler B) (g : A -> option B) (message : string)
  (c : Coordinator) :
  (forall a, f a c
             = (match g a with Some b => Normal b | None => Thrown message end, c, [])) ->
  forall l, mapM f l c
            = (match traverse g l with Some bs => Normal bs | None => Thrown message end,
               c, []).
Proof.
  intros Hf l. induction l as [|a l IH]; [reflexivity|].
  cbn [mapM traverse]. unfold bind at 1. rewrite Hf.
  destruct (g a) as [b|]; [|reflexivity].
  unfold bind at 1. rewrite IH.
  destruct (traverse g l); reflexivity.
Qed.

Lemma emitAll_eq (out : list Emit) (c : Coordinator) :
  emitAll out c = (Normal tt, c, out).
Proof.
  induction out as [|[to p] out IH]; [reflexivity|].
  cbn [emitAll]. unfold bind, emit. now rewrite IH.
Qed.

Lemma participantsOf_eq (room : string) (withStatus : bool) (c : Coordinator) :
  participantsOf room withStatus c
  = (match JsMap.get room (chatRooms c) with
     | Some members =>
         match traverse (describe withStatus (activeUsers c)) members with
         | Some ps => Normal ps
         | None => Thrown (typeError "username")
         end
     | None => Thrown "undefined is not iterable"
     end, c, []).
Proof.
  unfold participantsOf. hsimpl.
  destruct (JsMap.get room (chatRooms c)) as [members|]; [|reflexivity].
  erewrite mapM_reader with (g := describe withStatus (activeUsers c)).
  - destruct (traverse _ members); reflexivity.
  - intro uid. hsimpl. unfold describe.
    destruct (JsMap.get uid (activeUsers c)); reflexivity.
Qed.

Lemma typingSnapshot_eq (room : string) (c : Coordinator) :
  typingSnapshot room c
  = (match traverse (typingEntry (activeUsers c)) (marksFor room (typingUsers c)) with
     | Some typingData => Normal typingData
     | None => Thrown (typeError "username")
     end, c, []).
Proof.
  unfold typingSnapshot. hsimpl. fold (marksFor room (typingUsers c)).
  erewrite mapM_reader with (g := typingEntry (activeUsers c)).
  - destruct (traverse _ _); reflexivity.
  - intro entry. hsimpl. unfold typingEntry.
    destruct (JsMap.get (fst entry) (activeUsers c)); reflexivity.
Qed.

(** ** The loops over [chatRooms] *)

Section Loops.

Variable socket : Socket.

Lemma leavePreviousRooms_fst room now entries :
  fst (leavePreviousRooms socket room now entries)
  = map (leaveIfOther (userId socket) room) entries.
Proof.
  induction entries as [|[roomId members] entries IH]; [reflexivity|].
  cbn [leavePreviousRooms map].
  destruct (leavePreviousRooms socket room now entries) as [rest' out].
  cbn [fst] in IH. unfold leaveIfOther at 1. cbn [fst snd].
  destruct (JsSet.has (userId socket) members && negb (String.eqb roomId room));
    cbn [fst]; now rewrite IH.
Qed.

Lemma leaveAllRooms_fst now entries :
  fst (leaveAllRooms socket now entries)
  = map (leaveIfMember (userId socket)) entries.
Proof.
  induction entries as [|[roomId members] entries IH]; [reflexivity|].
  cbn [leaveAllRooms map].
  destruct (leaveAllRooms socket now entries) as [rest' out].
  cbn [fst] in IH. unfold leaveIfMember at 1. cbn [fst snd].
  destruct (JsSet.has (userId socket) members); cbn [fst]; now rewrite IH.
Qed.

(** The [userLeft] notifications of the loops, one per room left. *)
Lemma leavePreviousRooms_snd room now entries :
  snd (leavePreviousRooms socket room now entries)
  = map (fun entry : string * list Ident =>
           (ToRoom (fst entry),
            UserLeftEv (userId socket) (Some (username (user socket))) None now))
        (filter (fun entry : string * list Ident =>
                   JsSet.has (userId socket) (snd entry)
                   && negb (String.eqb (fst entry) room)) entries).
Proof.
  induction entries as [|[roomId members] entries IH]; [reflexivity|].
  cbn [leavePreviousRooms filter fst snd].
  destruct (leavePreviousRooms socket room now entries) as [rest' out].
  cbn [snd] in IH.
  destruct (JsSet.has (userId socket) members && negb (String.eqb roomId room));
    cbn [snd map fst]; now rewrite IH.
Qed.

Lemma leaveAllRooms_snd now entries :
  snd (leaveAllRooms socket now entries)
  = map (fun entry : string * list Ident =>
           (ToRoom (fst entry),
            UserLeftEv (userId socket) (Some (username (user socket))) None now))
        (filter (fun entry : string * list Ident =>
                   JsSet.has (userId socket) (snd entry)) entries).
Proof.
  induction entries as [|[roomId members] entries IH]; [reflexivity|].
  cbn [leaveAllRooms filter fst snd].
  destruct (leaveAllRooms socket now entries) as [rest' out].
  cbn [snd] in IH.
  destruct (JsSet.has (userId socket) members); cbn [snd map fst]; now rewrite IH.
Qed.

End Loops.

(** ** The handlers as equations *)

Section HandlerEquations.

Variable socket : Socket.

Lemma connection_eq now c :
  connection socket now c
  = (Normal tt,
     with_activeUsers
       (JsMap.set (userId socket)
          {| au_id := userId socket;
             au_socketId := socket_id socket;
             au_username := username (user socket);
             au_profilePicture := profilePicture (user socket);
             au_lastSeen := now;
             au_status := "online" |}) c,
     [(ToAll,
       ActiveUsersEv
         (JsMap.values
            (JsMap.set (userId socket)
               {| au_id := userId socket;
                  au_socketId := socket_id socket;
                  au_username := username (user socket);
                  au_profilePicture := profilePicture (user socket);
                  au_lastSeen := now;
                  au_status := "online" |} (activeUsers c))))]).
Proof. reflexivity. Qed.

Lemma ensureRoom_has room rooms : JsMap.has room (ensureRoom room rooms) = true.
Proof.
  unfold ensureRoom. destruct (JsMap.has room rooms) eqn:E; [exact E|].
  unfold JsMap.has. now rewrite get_set_same.
Qed.

(** A [try] block that starts with a segment which completes. *)
Lemma tryCatch_after {A B} (m : Handler A) (k : A -> Handler B)
  (handler : string -> Handler B) (c c1 : Coordinator) (a : A) (out1 : list Emit) :
  m c = (Normal a, c1, out1) ->
  tryCatch (bind m k) handler c
  = match tryCatch (k a) handler c1 with
    | (r, c2, out2) => (r, c2, out1 ++ out2)
    end.
Proof.
  intro Hm. unfold tryCatch, bind. rewrite Hm.
  destruct (k a c1) as [[[b|e] c2] out2]; [reflexivity|].
  destruct (handler e c2) as [[r c3] out3]. now rewrite app_assoc.
Qed.

(** The synchronous segment of [joinRoom] updates the membership table
    and notifies the rooms that are left. *)
Lemma joinRoomEnter_eq room now c :
  joinRoomEnter socket room now c
  = (Normal tt,
     with_chatRooms (joinedRooms socket room now) c,
     snd (leavePreviousRooms socket room now (chatRooms c))).
Proof.
  set (c1 := with_chatRooms (joinedRooms socket room now) c).
  assert (Hsync : forall entries',
            fst (leavePreviousRooms socket room now (chatRooms c)) = entries' ->
            with_chatRooms (mutateMembers room (JsSet.add (userId socket)))
              (if JsMap.has room entries'
               then with_chatRooms (fun _ => entries') c
               else with_chatRooms (JsMap.set room [])
                      (with_chatRooms (fun _ => entries') c)) = c1).
  { intros entries' <-. unfold c1, joinedRooms, ensureRoom, with_chatRooms.
    destruct (JsMap.has room _); reflexivity. }
  unfold joinRoomEnter. hsimpl.
  destruct (leavePreviousRooms socket room now (chatRooms c)) as [entries' left].
  specialize (Hsync entries' eq_refl). unfold JsMap.has in Hsync.
  hsimpl. rewrite emitAll_eq. hsimpl.
  cbn [chatRooms with_chatRooms] in *.
  destruct (JsMap.get room entries') as [m0|]; hsimpl; rewrite Hsync;
    now rewrite !app_nil_r.
Qed.

(** What is left of [joinRoom] after the [await] changes nothing and
    emits the snapshot and the two broadcasts, or the [error] event. *)
Lemma joinRoomAfterAwait_eq room query now c :
  joinRoomAfterAwait socket room query now c
  = (Normal tt, c, joinOutput socket room query now c).
Proof.
  unfold joinRoomAfterAwait, joinRoomResume, joinRoomCatch, joinOutput.
  destruct query as [|reason]; hsimpl; [|reflexivity].
  rewrite (participantsOf_eq room true c).
  destruct (JsMap.get room (chatRooms c)) as [members|] eqn:Hg; [|reflexivity].
  destruct (traverse (describe true (activeUsers c)) members) as [ps|];
    [|reflexivity].
  hsimpl. rewrite (participantsOf_eq room false c), Hg.
  destruct (traverse (describe false (activeUsers c)) members) as [ps'|];
    reflexivity.
Qed.

(** [joinRoom] first updates the membership table, then (the table being
    final) queries the history and emits. *)
Lemma joinRoom_eq room query now c :
  joinRoom socket (Some room) query now c
  = (Normal tt,
     with_chatRooms (joinedRooms socket room now) c,
     snd (leavePreviousRooms socket room now (chatRooms c))
     ++ joinOutput socket room query now
          (with_chatRooms (joinedRooms socket room now) c)).
Proof.
  unfold joinRoom. cbn [destructure]. unfold bind at 1, ret at 1.
  rewrite (tryCatch_after _ _ _ _ _ _ _ (joinRoomEnter_eq room now c)).
  fold (joinRoomAfterAwait socket room query now).
  rewrite joinRoomAfterAwait_eq. now rewrite app_nil_l.
Qed.

(** Without a payload the parameter cannot be destructured: the listener
    fails before its [try] block. *)
Lemma joinRoom_absent query now c :
  joinRoom socket None query now c
  = (Thrown (destructureError "username" "undefined"), c, []).
Proof. reflexivity. Qed.

Lemma leaveRoom_eq roomId now c :
  leaveRoom socket roomId now c
  = (Normal tt,
     with_chatRooms (roomsAfterLeave (userId socket) roomId) c,
     [(ToRoom roomId, UserLeftEv (userId socket) None (Some roomId) now)]).
Proof.
  unfold leaveRoom, roomsAfterLeave, with_chatRooms. hsimpl.
  destruct (JsMap.get roomId (chatRooms c)) as [members|] eqn:Hg; hsimpl.
  - unfold mutateMembers. cbn [chatRooms]. rewrite Hg, get_set_same. hsimpl.
    destruct (Nat.eqb (JsSet.size (JsSet.delete (userId socket) members)) 0);
      hsimpl; reflexivity.
  - destruct c; reflexivity.
Qed.

Lemma disconnect_eq now c :
  disconnect socket now c
  = (Normal tt,
     disconnected socket now c,
     (ToAll, ActiveUsersEv (JsMap.values (JsMap.delete (userId socket) (activeUsers c))))
     :: snd (leaveAllRooms socket now (chatRooms c))).
Proof.
  unfold disconnect, disconnected. hsimpl.
  cbn [chatRooms with_activeUsers activeUsers].
  unfold with_chatRooms at 2. cbn [chatRooms with_activeUsers].
  destruct (leaveAllRooms socket now (chatRooms c)) as [entries' left].
  hsimpl. rewrite emitAll_eq. hsimpl. now rewrite app_nil_r.
Qed.

Lemma typing_eq room isTyping c :
  typing socket (Some (room, isTyping)) c
  = match room with
    | Some r =>
        if truthy room && JsMap.has r (chatRooms c) then
          let c1 := if isTyping
                    then with_typingUsers (JsMap.set (userId socket) r) c
                    else with_typingUsers (JsMap.delete (userId socket)) c in
          match traverse (typingEntry (activeUsers c1)) (marksFor r (typingUsers c1)) with
          | Some typingData => (Normal tt, c1, [(ToRoom r, TypingStatusEv typingData)])
          | None => (Thrown (typeError "username"), c1, [])
          end
        else (Normal tt, c, [])
    | None => (Normal tt, c, [])
    end.
Proof.
  unfold typing. hsimpl. destruct room as [r|]; [|reflexivity]. hsimpl.
  destruct (truthy (Some r) && match JsMap.get r (chatRooms c) with
                               | Some _ => true | None => false end);
    [|reflexivity].
  destruct isTyping; hsimpl; rewrite typingSnapshot_eq;
    destruct (traverse _ _); reflexivity.
Qed.

Lemma typing_absent c :
  typing socket None c = (Thrown (destructureError "room" "data"), c, []).
Proof. reflexivity. Qed.

Lemma stopTyping_eq room c :
  stopTyping socket (Some room) c
  = match room with
    | Some r =>
        if JsMap.has (GuestId r) (typingUsers c)
        then (Normal tt, with_typingUsers (JsMap.delete (userId socket)) c,
              [(ToRoom r, UserStoppedTypingEv (userId socket))])
        else (Normal tt, c, [])
    | None => (Normal tt, c, [])
    end.
Proof.
  unfold stopTyping. hsimpl. destruct room as [r|]; [|reflexivity]. hsimpl.
  destruct (JsMap.get (GuestId r) (typingUsers c)); reflexivity.
Qed.

Lemma stopTyping_absent c :
  stopTyping socket None c = (Thrown (destructureError "room" "data"), c, []).
Proof. reflexivity. Qed.

(** A private message leaves the coordinator alone; what it emits, if
    anything, is one [privateMessage] event. *)
Lemma onPrivateMessage_listen sockets data now c c' out :
  listen (onPrivateMessage socket sockets data now) c = Some (c', out) ->
  c' = c /\ (out = [] \/ exists recipient object,
                         out = [(ToSocket recipient, PrivateMessageEv object)]).
Proof.
  unfold listen, onPrivateMessage.
  destruct (privateMessage socket sockets data now) as [[[recipient object]|]|e];
    cbn; intro H; [injection H as <- <-..|discriminate].
  - split; [reflexivity|]. right. now exists recipient, object.
  - split; [reflexivity|]. now left.
Qed.

Lemma onPrivateMessage_present sockets fields now c :
  exists out, listen (onPrivateMessage socket sockets (Some fields) now) c = Some (c, out).
Proof.
  unfold listen, onPrivateMessage, privateMessage.
  destruct (find _ sockets) as [recipientSocket|]; cbn; now eexists.
Qed.

End HandlerEquations.

(** The membership table after one event. *)
Lemma dispatch_chatRooms (ev : Event) (c c' : Coordinator) (out : list Emit) :
  listen (dispatch ev) c = Some (c', out) ->
  chatRooms c'
  = match ev with
    | JoinRoom socket (Some room) _ now => joinedRooms socket room now (chatRooms c)
    | LeaveRoom socket roomId _ => roomsAfterLeave (userId socket) roomId (chatRooms c)
    | Disconnect socket now => fst (leaveAllRooms socket now (chatRooms c))
    | _ => chatRooms c
    end.
Proof.
  destruct ev as [s now|s [room|] query now|s roomId now|s [[room isTyping]|]
                 |s [room|]|s room content timestamp save|s now|s sockets data now];
    cbn [dispatch]; try absent_payload;
    [unfold listen ..|rewrite groupMessage_listen|unfold listen|].
  - rewrite connection_eq. intro H. injection H as <- _. reflexivity.
  - rewrite joinRoom_eq. intro H. injection H as <- _. reflexivity.
  - rewrite leaveRoom_eq. intro H. injection H as <- _. reflexivity.
  - rewrite typing_eq. destruct room as [r|].
    + destruct (truthy (Some r) && JsMap.has r (chatRooms c)).
      * cbv zeta. destruct (traverse _ _); [|discriminate].
        intro H. injection H as <- _. destruct isTyping; reflexivity.
      * intro H. injection H as <- _. reflexivity.
    + intro H. injection H as <- _. reflexivity.
  - rewrite stopTyping_eq. destruct room as [r|].
    + destruct (JsMap.has (GuestId r) (typingUsers c));
        intro H; injection H as <- _; reflexivity.
    + intro H. injection H as <- _. reflexivity.
  - intro H. injection H as <- _. apply groupMessage_chatRooms.
  - rewrite disconnect_eq. intro H. injection H as <- _. reflexivity.
  - intro H. now apply onPrivateMessage_listen in H as [-> _].
Qed.

(** ** Sets and maps: membership after an update *)

Section SetFacts.

Context {K : Type} `{Key K}.

Lemma has_In (k : K) (s : list K) : JsSet.has k s = true <-> In k s.
Proof.
  induction s as [|k' s IH]; simpl.
  - split; [discriminate | tauto].
  - destruct (same k' k) eqn:E.
    + apply same_true_eq in E. subst. tauto.
    + rewrite IH. split; [tauto|]. intros [->|Hin]; [|exact Hin].
      rewrite same_refl in E. discriminate.
Qed.

Lemma has_delete_sub (k k' : K) (s : list K) :
  JsSet.has k' (JsSet.delete k s) = true -> JsSet.has k' s = true.
Proof.
  induction s as [|a s IH]; simpl; [tauto|].
  destruct (same a k) eqn:E; simpl.
  - intro Hin. now destruct (same a k').
  - destruct (same a k'); [reflexivity | exact IH].
Qed.

Lemma has_delete_other (k k' : K) (s : list K) :
  k <> k' -> JsSet.has k' (JsSet.delete k s) = JsSet.has k' s.
Proof.
  intro Hne. induction s as [|a s IH]; simpl; [reflexivity|].
  destruct (same a k) eqn:E; simpl.
  - apply same_true_eq in E. subst a. now rewrite same_false.
  - now rewrite IH.
Qed.

Lemma has_delete_same (k : K) (s : list K) :
  NoDup s -> JsSet.has k (JsSet.delete k s) = false.
Proof.
  induction s as [|a s IH]; intro Hnd; simpl; [reflexivity|].
  inversion Hnd as [|? ? Hnotin Hnd']; subst.
  destruct (same a k) eqn:E; simpl.
  - apply same_true_eq in E. subst a.
    destruct (JsSet.has k s) eqn:Hh; [|reflexivity].
    apply has_In in Hh. contradiction.
  - rewrite E. now apply IH.
Qed.

Lemma delete_incl (k : K) (s : list K) : incl (JsSet.delete k s) s.
Proof.
  induction s as [|a s IH]; simpl; [apply incl_refl|].
  destruct (same a k).
  - apply incl_tl, incl_refl.
  - intros x [->|Hx]; [now left | right; now apply IH].
Qed.

Lemma NoDup_delete (k : K) (s : list K) : NoDup s -> NoDup (JsSet.delete k s).
Proof.
  induction s as [|a s IH]; intro Hnd; simpl; [constructor|].
  inversion Hnd as [|? ? Hnotin Hnd']; subst.
  destruct (same a k); [exact Hnd'|].
  constructor; [|now apply IH].
  intro Hin. apply Hnotin. now apply (delete_incl k s).
Qed.

Lemma has_app (k : K) (s t : list K) :
  JsSet.has k (s ++ t) = JsSet.has k s || JsSet.has k t.
Proof.
  induction s as [|a s IH]; simpl; [reflexivity|].
  destruct (same a k); [reflexivity | exact IH].
Qed.

Lemma has_add (k k' : K) (s : list K) :
  JsSet.has k' (JsSet.add k s) = JsSet.has k' s || same k k'.
Proof.
  unfold JsSet.add. destruct (JsSet.has k s) eqn:E.
  - destruct (same k k') eqn:E'; [|now rewrite orb_false_r].
    apply same_true_eq in E'. subst. now rewrite E.
  - rewrite has_app. simpl. now destruct (same k k').
Qed.

Lemma NoDup_add (k : K) (s : list K) : NoDup s -> NoDup (JsSet.add k s).
Proof.
  intro Hnd. unfold JsSet.add. destruct (JsSet.has k s) eqn:E; [exact Hnd|].
  apply NoDup_app; [exact Hnd | repeat constructor; simpl; tauto |].
  intros x Hx [<-|[]]. apply has_In in Hx. congruence.
Qed.

End SetFacts.

Section MapShape.

Context {K V : Type} `{Key K}.

Lemma get_In (k : K) (v : V) (m : list (K * V)) :
  JsMap.get k m = Some v -> In (k, v) m.
Proof.
  induction m as [|[k' v'] m IH]; simpl; [discriminate|].
  destruct (same k' k) eqn:E.
  - apply same_true_eq in E. subst. intro Hv. injection Hv as ->. now left.
  - intro Hg. right. now apply IH.
Qed.

Lemma get_None_keys (k : K) (m : list (K * V)) :
  JsMap.get k m = None -> ~ In k (map fst m).
Proof.
  induction m as [|[k' v'] m IH]; simpl; [tauto|].
  destruct (same k' k) eqn:E; [discriminate|].
  intros Hg [->|Hin]; [|now apply IH].
  rewrite same_refl in E. discriminate.
Qed.

Lemma In_get (k : K) (v : V) (m : list (K * V)) :
  NoDup (map fst m) -> In (k, v) m -> JsMap.get k m = Some v.
Proof.
  induction m as [|[k' v'] m IH]; simpl; [tauto|].
  intros Hnd Hin. inversion Hnd as [|? ? Hnotin Hnd']; subst.
  destruct Hin as [Heq|Hin].
  - injection Heq as -> ->. now rewrite same_refl.
  - destruct (same k' k) eqn:E.
    + apply same_true_eq in E. subst k'. exfalso. apply Hnotin.
      now apply (in_map fst) in Hin.
    + now apply IH.
Qed.

Lemma keys_set (k : K) (v : V) (m : list (K * V)) :
  map fst (JsMap.set k v m)
  = if JsMap.has k m then map fst m else map fst m ++ [k].
Proof.
  unfold JsMap.has. induction m as [|[k' v'] m IH]; simpl; [reflexivity|].
  destruct (same k' k) eqn:E; simpl; [reflexivity|].
  rewrite IH. now destruct (JsMap.get k m).
Qed.

Lemma NoDup_keys_set (k : K) (v : V) (m : list (K * V)) :
  NoDup (map fst m) -> NoDup (map fst (JsMap.set k v m)).
Proof.
  intro Hnd. rewrite keys_set. unfold JsMap.has.
  destruct (JsMap.get k m) eqn:E; [exact Hnd|].
  apply NoDup_app; [exact Hnd | repeat constructor; simpl; tauto |].
  intros x Hx [<-|[]]. now apply get_None_keys in E.
Qed.

Lemma In_set (k : K) (v : V) (m : list (K * V)) (e : K * V) :
  In e (JsMap.set k v m) -> e = (k, v) \/ (fst e <> k /\ In e m) \/ (fst e = k /\ In e m).
Proof.
  induction m as [|[k' v'] m IH]; simpl.
  - intros [<-|[]]. now left.
  - destruct (same k' k) eqn:E.
    + apply same_true_eq in E. subst k'. intros [<-|Hin]; [now left|].
      destruct e as [r x]. simpl.
      destruct (same r k) eqn:E'.
      * apply same_true_eq in E'. subst. right. right. tauto.
      * right. left. split; [|tauto]. intros ->. rewrite same_refl in E'. discriminate.
    + intros [<-|Hin].
      * right. left. simpl. split; [|tauto]. intros ->.
        rewrite same_refl in E. discriminate.
      * destruct (IH Hin) as [->|[[Hne Hin']|[Heq Hin']]]; tauto.
Qed.

(** With unique keys, the entries of [m.set(k, v)] are [(k, v)] and the
    entries of [m] under other keys. *)
Lemma In_set_unique (k : K) (v : V) (m : list (K * V)) (r : K) (x : V) :
  NoDup (map fst (JsMap.set k v m)) ->
  In (r, x) (JsMap.set k v m) ->
  (r = k /\ x = v) \/ (r <> k /\ In (r, x) m).
Proof.
  intros Hnd Hin.
  pose proof (In_get r x _ Hnd Hin) as Hg.
  destruct (In_set k v m (r, x) Hin) as [Heq|[[Hne Hin']|[Heq Hin']]].
  - injection Heq as -> ->. now left.
  - right. now split.
  - simpl in Heq. subst r. rewrite get_set_same in Hg. injection Hg as ->. now left.
Qed.

Lemma delete_map_incl (k : K) (m : list (K * V)) : incl (JsMap.delete k m) m.
Proof.
  induction m as [|[k' v'] m IH]; simpl; [apply incl_refl|].
  destruct (same k' k).
  - apply incl_tl, incl_refl.
  - intros x [<-|Hx]; [now left | right; now apply IH].
Qed.

Lemma NoDup_keys_delete (k : K) (m : list (K * V)) :
  NoDup (map fst m) -> NoDup (map fst (JsMap.delete k m)).
Proof.
  induction m as [|[k' v'] m IH]; simpl; intro Hnd; [constructor|].
  inversion Hnd as [|? ? Hnotin Hnd']; subst.
  destruct (same k' k); [exact Hnd'|].
  simpl. constructor; [|now apply IH].
  intro Hin. apply Hnotin. apply in_map_iff in Hin as [[a b] [Hf Hin]].
  simpl in Hf. subst a. apply in_map_iff. exists (k', b). split; [reflexivity|].
  now apply (delete_map_incl k m).
Qed.

End MapShape.

(** ** Exclusive membership is an invariant *)

Lemma Forall_set {K V : Type} `{Key K} (P : K * V -> Prop) (k : K) (v : V)
  (m : list (K * V)) :
  Forall P m -> P (k, v) -> Forall P (JsMap.set k v m).
Proof.
  intros Hall Hkv. apply Forall_forall. intros e Hin.
  destruct (In_set k v m e Hin) as [->|[[_ Hin']|[_ Hin']]]; [exact Hkv| |];
    now apply (proj1 (Forall_forall P m) Hall).
Qed.

Lemma NoDup_keys_filter {K V : Type} (p : K * V -> bool) (m : list (K * V)) :
  NoDup (map fst m) -> NoDup (map fst (filter p m)).
Proof.
  induction m as [|e m IH]; simpl; intro Hnd; [constructor|].
  inversion Hnd as [|? ? Hnotin Hnd']; subst.
  destruct (p e); simpl; [|now apply IH].
  constructor; [|now apply IH].
  intro Hin. apply Hnotin. apply in_map_iff in Hin as [x [Hx Hin]].
  apply filter_In in Hin as [Hin _]. apply in_map_iff. now exists x.
Qed.

Lemma tidy_empty : tidy [].
Proof.
  repeat split; try constructor. intros uid r1 m1 r2 m2 [].
Qed.

Lemma exclusive_inherit (rooms rooms' : list (string * list Ident)) :
  (forall r m u, In (r, m) rooms' -> JsSet.has u m = true ->
                 exists m0, In (r, m0) rooms /\ JsSet.has u m0 = true) ->
  exclusive rooms -> exclusive rooms'.
Proof.
  intros Hinh Hex u r1 m1 r2 m2 H1 H2 Hh1 Hh2.
  destruct (Hinh _ _ _ H1 Hh1) as (n1 & Hn1 & Hu1).
  destruct (Hinh _ _ _ H2 Hh2) as (n2 & Hn2 & Hu2).
  exact (Hex u r1 n1 r2 n2 Hn1 Hn2 Hu1 Hu2).
Qed.

Lemma exclusive_transfer (uid : Ident) (room : string)
  (rooms rooms' : list (string * list Ident)) :
  (forall r m u, In (r, m) rooms' -> JsSet.has u m = true ->
                 (u = uid /\ r = room)
                 \/ (u <> uid /\ exists m0, In (r, m0) rooms /\ JsSet.has u m0 = true)) ->
  exclusive rooms -> exclusive rooms'.
Proof.
  intros Hinh Hex u r1 m1 r2 m2 H1 H2 Hh1 Hh2.
  destruct (Hinh _ _ _ H1 Hh1) as [[Hu1 Hr1]|(Hu1 & n1 & Hn1 & Hv1)];
    destruct (Hinh _ _ _ H2 Hh2) as [[Hu2 Hr2]|(Hu2 & n2 & Hn2 & Hv2)];
    try congruence.
  exact (Hex u r1 n1 r2 n2 Hn1 Hn2 Hv1 Hv2).
Qed.

Section Membership.

Variable socket : Socket.

Lemma leaveIfOther_fst room entry :
  fst (leaveIfOther (userId socket) room entry) = fst entry.
Proof. unfold leaveIfOther. now destruct (_ && _). Qed.

Lemma leaveIfMember_fst entry :
  fst (leaveIfMember (userId socket) entry) = fst entry.
Proof. unfold leaveIfMember. now destruct (JsSet.has _ _). Qed.

Lemma In_ensureRoom room rooms r m :
  In (r, m) (ensureRoom room rooms) -> (r = room /\ m = []) \/ In (r, m) rooms.
Proof.
  unfold ensureRoom. destruct (JsMap.has room rooms); [tauto|].
  intro Hin. destruct (In_set room [] rooms (r, m) Hin) as [Heq|[[_ H]|[_ H]]];
    [injection Heq as -> ->|..]; tauto.
Qed.

Lemma tidy_joined room now rooms :
  tidy rooms -> tidy (joinedRooms socket room now rooms).
Proof.
  intros (Hkeys & Hsets & Hex).
  unfold joinedRooms. rewrite leavePreviousRooms_fst.
  set (rooms1 := map (leaveIfOther (userId socket) room) rooms).
  set (rooms2 := ensureRoom room rooms1).
  assert (Hkeys1 : NoDup (map fst rooms1)).
  { unfold rooms1. rewrite map_map.
    rewrite (map_ext _ fst (leaveIfOther_fst room)). exact Hkeys. }
  assert (Hsets1 : Forall (fun entry : string * list Ident => NoDup (snd entry)) rooms1).
  { unfold rooms1. apply Forall_map. eapply Forall_impl; [|exact Hsets].
    intros [r m] Hnd. unfold leaveIfOther. destruct (_ && _); [|exact Hnd].
    simpl. now apply NoDup_delete. }
  assert (Hkeys2 : NoDup (map fst rooms2)).
  { unfold rooms2, ensureRoom. destruct (JsMap.has room rooms1); [exact Hkeys1|].
    now apply NoDup_keys_set. }
  assert (Hsets2 : Forall (fun entry : string * list Ident => NoDup (snd entry)) rooms2).
  { unfold rooms2, ensureRoom. destruct (JsMap.has room rooms1); [exact Hsets1|].
    apply Forall_set; [exact Hsets1 | constructor]. }
  pose proof (ensureRoom_has room rooms1) as Hhas. fold rooms2 in Hhas.
  unfold JsMap.has in Hhas. unfold mutateMembers.
  destruct (JsMap.get room rooms2) as [m2|] eqn:Hg; [|discriminate].
  pose proof (get_In _ _ _ Hg) as Hin2.
  assert (Hm2 : NoDup m2)
    by exact (proj1 (Forall_forall _ rooms2) Hsets2 (room, m2) Hin2).
  assert (Hkeys3 :
            NoDup (map fst (JsMap.set room (JsSet.add (userId socket) m2) rooms2)))
    by now apply NoDup_keys_set.
  split; [exact Hkeys3|]. split.
  { apply Forall_set; [exact Hsets2|]. simpl. now apply NoDup_add. }
  apply (exclusive_transfer (userId socket) room rooms); [|exact Hex].
  assert (Hback : forall r m, In (r, m) rooms1 ->
            exists m0, In (r, m0) rooms
                       /\ (r, m) = leaveIfOther (userId socket) room (r, m0)).
  { intros r m Hin. unfold rooms1 in Hin.
    apply in_map_iff in Hin as [[r0 m0] [Heq Hin]].
    pose proof (leaveIfOther_fst room (r0, m0)) as Hf. rewrite Heq in Hf.
    cbn [fst] in Hf. subst r0. exists m0. now split. }
  intros r m u Hin Hu.
  destruct (In_set_unique _ _ _ _ _ Hkeys3 Hin) as [[-> ->]|[Hne Hin']].
  - rewrite has_add in Hu. destruct (same (userId socket) u) eqn:E.
    + left. apply same_true_eq in E. now split.
    + rewrite orb_false_r in Hu. right. split.
      { intros ->. rewrite same_refl in E. discriminate. }
      destruct (In_ensureRoom _ _ _ _ Hin2) as [[_ ->]|Hin1]; [discriminate|].
      destruct (Hback _ _ Hin1) as (m0 & Hin0 & Heq).
      unfold leaveIfOther in Heq. cbn [fst snd] in Heq.
      rewrite String.eqb_refl, andb_false_r in Heq. injection Heq as ->.
      now exists m0.
  - right. destruct (In_ensureRoom _ _ _ _ Hin') as [[-> _]|Hin1]; [congruence|].
    destruct (Hback _ _ Hin1) as (m0 & Hin0 & Heq).
    assert (Hm0 : NoDup m0)
      by exact (proj1 (Forall_forall _ rooms) Hsets (r, m0) Hin0).
    unfold leaveIfOther in Heq. cbn [fst snd] in Heq.
    assert (Hr : negb (String.eqb r room) = true).
    { apply negb_true_iff. now apply String.eqb_neq. }
    rewrite Hr, andb_true_r in Heq.
    destruct (JsSet.has (userId socket) m0) eqn:Hh; injection Heq as ->.
    + split.
      * intros ->. rewrite has_delete_same in Hu by exact Hm0. discriminate.
      * exists m0. split; [exact Hin0|]. now apply has_delete_sub in Hu.
    + split; [intros ->; congruence|]. now exists m0.
Qed.

Lemma tidy_roomsAfterLeave roomId rooms :
  tidy rooms -> tidy (roomsAfterLeave (userId socket) roomId rooms).
Proof.
  intros (Hkeys & Hsets & Hex). unfold roomsAfterLeave.
  destruct (JsMap.get roomId rooms) as [members|] eqn:Hg; [|now repeat split].
  pose proof (get_In _ _ _ Hg) as Hin0.
  assert (Hm : NoDup members)
    by exact (proj1 (Forall_forall _ rooms) Hsets (roomId, members) Hin0).
  set (rooms1 := JsMap.set roomId (JsSet.delete (userId socket) members) rooms).
  assert (T1 : tidy rooms1).
  { split; [now apply NoDup_keys_set|]. split.
    - apply Forall_set; [exact Hsets|]. simpl. now apply NoDup_delete.
    - apply (exclusive_inherit rooms); [|exact Hex].
      intros r m u Hin Hu.
      destruct (In_set _ _ _ _ Hin) as [Heq|[[_ H]|[_ H]]];
        [injection Heq as -> ->|now exists m..].
      exists members. split; [exact Hin0|]. now apply has_delete_sub in Hu. }
  destruct (Nat.eqb _ 0); [|exact T1].
  destruct T1 as (Hk1 & Hs1 & He1).
  split; [now apply NoDup_keys_delete|]. split.
  - apply Forall_forall. intros e Hin.
    apply (proj1 (Forall_forall _ rooms1) Hs1).
    now apply (delete_map_incl roomId rooms1).
  - apply (exclusive_inherit rooms1); [|exact He1].
    intros r m u Hin Hu. exists m. split; [|exact Hu].
    now apply (delete_map_incl roomId rooms1).
Qed.

Lemma tidy_leaveAllRooms now rooms :
  tidy rooms -> tidy (fst (leaveAllRooms socket now rooms)).
Proof.
  intros (Hkeys & Hsets & Hex). rewrite leaveAllRooms_fst.
  split; [|split].
  - rewrite map_map. rewrite (map_ext _ fst leaveIfMember_fst). exact Hkeys.
  - apply Forall_map. eapply Forall_impl; [|exact Hsets].
    intros [r m] Hnd. unfold leaveIfMember. destruct (JsSet.has _ _); [|exact Hnd].
    simpl. now apply NoDup_delete.
  - apply (exclusive_inherit rooms); [|exact Hex].
    intros r m u Hin Hu. apply in_map_iff in Hin as [[r0 m0] [Heq Hin]].
    unfold leaveIfMember in Heq. cbn [fst snd] in Heq.
    destruct (JsSet.has (userId socket) m0).
    + injection Heq as -> <-. exists m0. split; [exact Hin|].
      now apply has_delete_sub in Hu.
    + injection Heq as -> ->. now exists m.
Qed.

End Membership.

Lemma dispatch_tidy (ev : Event) (c c' : Coordinator) (out : list Emit) :
  tidy (chatRooms c) -> listen (dispatch ev) c = Some (c', out) -> tidy (chatRooms c').
Proof.
  intros Ht Hstep. rewrite (dispatch_chatRooms ev c c' out Hstep).
  destruct ev as [|s [room|]| | | | | |]; try exact Ht.
  - now apply tidy_joined.
  - now apply tidy_roomsAfterLeave.
  - now apply tidy_leaveAllRooms.
Qed.

Lemma run_tidy (trace : list Event) :
  forall c c' out,
    tidy (chatRooms c) -> run trace c = Some (c', out) -> tidy (chatRooms c').
Proof.
  induction trace as [|ev trace IH]; intros c c' out Ht Hrun; simpl in Hrun.
  - injection Hrun as <- _. exact Ht.
  - destruct (listen (dispatch ev) c) as [[c1 out1]|] eqn:Hstep; [|discriminate].
    destruct (run trace c1) as [[c2 out2]|] eqn:Hrest; [|discriminate].
    injection Hrun as <- _.
    apply (IH c1 c2 out2); [|exact Hrest].
    now apply (dispatch_tidy ev c c1 out1).
Qed.

Lemma tidy_at_most_one (rooms : list (string * list Ident)) (uid : Ident) :
  tidy rooms -> List.length (roomsHolding uid rooms) <= 1.
Proof.
  intros (Hkeys & _ & Hex). unfold roomsHolding.
  pose proof (NoDup_keys_filter
                (fun entry : string * list Ident => JsSet.has uid (snd entry))
                rooms Hkeys) as Hnd.
  destruct (filter _ rooms) as [|[r1 m1] [|[r2 m2] rest]] eqn:Hf; simpl; try lia.
  exfalso.
  assert (H1 : In (r1, m1) (filter (fun entry : string * list Ident =>
                                      JsSet.has uid (snd entry)) rooms))
    by (rewrite Hf; now left).
  assert (H2 : In (r2, m2) (filter (fun entry : string * list Ident =>
                                      JsSet.has uid (snd entry)) rooms))
    by (rewrite Hf; right; now left).
  apply filter_In in H1 as [H1 Hu1]. apply filter_In in H2 as [H2 Hu2].
  assert (r1 = r2) by exact (Hex uid r1 m1 r2 m2 H1 H2 Hu1 Hu2). subst r2.
  simpl in Hnd. inversion Hnd as [|? ? Hnotin _]. apply Hnotin. now left.
Qed.

(** X22.  After any sequence of events handled from the initial (empty)
    coordinator, every key of the member sets -- a value of
    [socket.userId] as a [Set] compares it: a guest id string by value,
    the [ObjectId] object of one connection by identity -- is in the
    member set of at most one room of [chatRooms]: the rooms holding it
    number at most one, and any two rooms it is a member of are the same
    room. *)
Theorem single_room_membership :
  forall (trace : list Event) (c : Coordinator) (out : list Emit),
    run trace emptyCoordinator = Some (c, out) ->
    forall uid : Ident,
      List.length (roomsHolding uid (chatRooms c)) <= 1
      /\ (forall r1 r2 : string,
            memberOf uid r1 c = true -> memberOf uid r2 c = true -> r1 = r2).
Proof.
  intros trace c out Hrun uid.
  assert (Ht : tidy (chatRooms c))
    by exact (run_tidy trace emptyCoordinator c out tidy_empty Hrun).
  split; [now apply tidy_at_most_one|].
  intros r1 r2 H1 H2. unfold memberOf in *.
  destruct (JsMap.get r1 (chatRooms c)) as [m1|] eqn:G1; [|discriminate].
  destruct (JsMap.get r2 (chatRooms c)) as [m2|] eqn:G2; [|discriminate].
  destruct Ht as (_ & _ & Hex).
  exact (Hex uid r1 m1 r2 m2 (get_In _ _ _ G1) (get_In _ _ _ G2) H1 H2).
Qed.

Lemma single_room_membership_witness :
  List.length (roomsHolding (userId alice) (chatRooms twoInRoom)) <= 1
  /\ (forall r1 r2 : string,
        memberOf (userId alice) r1 twoInRoom = true ->
        memberOf (userId alice) r2 twoInRoom = true -> r1 = r2).
Proof.
  apply (single_room_membership
           twoInRoomTrace twoInRoom (finalOutput twoInRoomTrace)).
  reflexivity.
Defined.

(** C2.  One registered user, connected twice, is a member of two rooms
    at once.  Carol's two connections are admitted with the same token and
    carry the same user id in two [ObjectId] objects, which the member
    sets take for two keys: when she joins ["r1"] on one connection and
    ["r2"] on the other, the loop that leaves the previous rooms finds
    nothing to leave and no [userLeft] is sent.  Two sockets that share a
    guest id, a string, make the same moves and end in one room only. *)
Theorem registered_user_in_two_rooms :
  authMiddleware sampleVerify (fun _ => LookupDoc (user carol))
    (Some "token-of-carol") 1
  = Accepted (userId carol) (user carol)
  /\ authMiddleware sampleVerify (fun _ => LookupDoc (user carolSecondTab))
       (Some "token-of-carol") 2
     = Accepted (userId carolSecondTab) (user carolSecondTab)
  /\ idValue (userId carol) = idValue (userId carolSecondTab)
  /\ userId carol <> userId carolSecondTab
  /\ run twoTabsTrace emptyCoordinator = Some (twoTabs, finalOutput twoTabsTrace)
  /\ chatRooms twoTabs = [("r1", [userId carol]); ("r2", [userId carolSecondTab])]
  /\ memberOf (userId carol) "r1" twoTabs = true
  /\ memberOf (userId carolSecondTab) "r2" twoTabs = true
  /\ filter isUserLeft (finalOutput twoTabsTrace) = []
  /\ run twinGuestsTrace emptyCoordinator
     = Some (twinGuests, finalOutput twinGuestsTrace)
  /\ userId alice = userId aliceTwin
  /\ chatRooms twinGuests = [("r1", []); ("r2", [userId alice])].
Proof.
  repeat split; try reflexivity. discriminate.
Qed.

(** ** All keyed tables stay well-formed *)

Lemma groupMessage_frame socket room content timestamp save c :
  activeUsers (stateOf (groupMessage socket room content timestamp save c))
  = activeUsers c
  /\ typingUsers (stateOf (groupMessage socket room content timestamp save c))
     = typingUsers c.
Proof.
  destruct (groupMessage_cases socket room content timestamp c)
    as [[r Hr] | (name & text & members & -> & -> & Hr & Hc & Hg & Hm & Hn)].
  - rewrite (refused_sound socket _ _ _ save _ _ Hr). now split.
  - rewrite (groupMessage_passed socket _ _ _ save _ _ Hr Hc Hg Hm Hn).
    destruct (_id (user socket)); [destruct save|]; now split.
Qed.

Lemma dispatch_consistent (ev : Event) (c c' : Coordinator) (out : list Emit) :
  consistent c -> listen (dispatch ev) c = Some (c', out) -> consistent c'.
Proof.
  intros (Ht & Ha & Hm) Hstep. split.
  { exact (dispatch_tidy ev c c' out Ht Hstep). }
  clear Ht. revert Hstep.
  destruct ev as [s now|s [room|] query now|s roomId now|s [[room isTyping]|]
                 |s [room|]|s room content timestamp save|s now|s sockets data now];
    cbn [dispatch]; try absent_payload;
    [unfold listen ..|rewrite groupMessage_listen|unfold listen|].
  - rewrite connection_eq. intro H. injection H as <- _.
    cbn [activeUsers typingUsers with_activeUsers]. split; [|exact Hm].
    now apply NoDup_keys_set.
  - rewrite joinRoom_eq. intro H. injection H as <- _. now split.
  - rewrite leaveRoom_eq. intro H. injection H as <- _. now split.
  - rewrite typing_eq. destruct room as [r|].
    + destruct (truthy (Some r) && JsMap.has r (chatRooms c)).
      * cbv zeta. destruct (traverse _ _); [|discriminate].
        intro H. injection H as <- _.
        destruct isTyping; cbn [activeUsers typingUsers with_typingUsers];
          (split; [exact Ha|]);
          [now apply NoDup_keys_set | now apply NoDup_keys_delete].
      * intro H. injection H as <- _. now split.
    + intro H. injection H as <- _. now split.
  - rewrite stopTyping_eq. destruct room as [r|].
    + destruct (JsMap.has (GuestId r) (typingUsers c));
        intro H; injection H as <- _; [|now split].
      cbn [activeUsers typingUsers with_typingUsers]. split; [exact Ha|].
      now apply NoDup_keys_delete.
    + intro H. injection H as <- _. now split.
  - intro H. injection H as <- _.
    destruct (groupMessage_frame s room content timestamp save c) as [-> ->].
    now split.
  - rewrite disconnect_eq. intro H. injection H as <- _. unfold disconnected.
    cbn [activeUsers typingUsers with_typingUsers with_chatRooms with_activeUsers].
    split; now apply NoDup_keys_delete.
  - intro H. apply onPrivateMessage_listen in H as [-> _]. now split.
Qed.

Lemma run_consistent (trace : list Event) :
  forall c c' out, consistent c -> run trace c = Some (c', out) -> consistent c'.
Proof.
  induction trace as [|ev trace IH]; intros c c' out Hc Hrun; simpl in Hrun.
  - injection Hrun as <- _. exact Hc.
  - destruct (listen (dispatch ev) c) as [[c1 out1]|] eqn:Hstep; [|discriminate].
    destruct (run trace c1) as [[c2 out2]|] eqn:Hrest; [|discriminate].
    injection Hrun as <- _.
    apply (IH c1 c2 out2); [|exact Hrest].
    now apply (dispatch_consistent ev c c1 out1).
Qed.

Lemma reachable_consistent (trace : list Event) (c : Coordinator) (out : list Emit) :
  run trace emptyCoordinator = Some (c, out) -> consistent c.
Proof.
  apply run_consistent. split; [exact tidy_empty|]. split; constructor.
Qed.

(** ** Empty rooms *)

(** C7.  The three ways of leaving a room, each run from the state in
    which Alice is the only member of ["r1"]: the explicit [leaveRoom]
    deletes the entry of the emptied room, whereas the implicit leave
    inside [joinRoom] and [disconnect] both keep ["r1"] in [chatRooms]
    with an empty member set. *)
Theorem last_member_leaving :
  run aliceInRoomTrace emptyCoordinator = Some (aliceInRoom, finalOutput aliceInRoomTrace)
  /\ chatRooms aliceInRoom = [("r1", [userId alice])]
  /\ chatRooms (stateOf (leaveRoom alice "r1" 3 aliceInRoom)) = []
  /\ chatRooms (stateOf (joinRoom alice (Some "r2") Answered 3 aliceInRoom))
     = [("r1", []); ("r2", [userId alice])]
  /\ chatRooms (stateOf (disconnect alice 3 aliceInRoom)) = [("r1", [])].
Proof.
  repeat split; reflexivity.
Qed.

(** ** Joining *)

Lemma set_get_same {K V : Type} `{Key K} (k : K) (v : V) (m : list (K * V)) :
  JsMap.get k m = Some v -> JsMap.set k v m = m.
Proof.
  induction m as [|[k' v'] m IH]; simpl; [discriminate|].
  destruct (same k' k) eqn:E.
  - intro Hv. now injection Hv as ->.
  - intro Hg. now rewrite IH.
Qed.

Section Joining.

Variable socket : Socket.

Lemma memberOf_joined room now rooms (c : Coordinator) :
  memberOf (userId socket) room
    (with_chatRooms (fun _ => joinedRooms socket room now rooms) c) = true.
Proof.
  unfold memberOf, joinedRooms, mutateMembers. cbn [chatRooms with_chatRooms].
  pose proof (ensureRoom_has room (fst (leavePreviousRooms socket room now rooms))) as Hhas.
  unfold JsMap.has in Hhas.
  destruct (JsMap.get room (ensureRoom room _)) as [m2|]; [|discriminate].
  rewrite get_set_same, has_add, same_refl. apply orb_true_r.
Qed.

(** A member of [room] who joins [room] again, in a table with exclusive
    membership, finds the table as it was and leaves no room. *)
Lemma rejoin_table room now rooms members :
  tidy rooms ->
  JsMap.get room rooms = Some members ->
  JsSet.has (userId socket) members = true ->
  joinedRooms socket room now rooms = rooms
  /\ snd (leavePreviousRooms socket room now rooms) = [].
Proof.
  intros (Hkeys & Hsets & Hex) Hg Hm.
  assert (Hnone : forall entry, In entry rooms ->
            JsSet.has (userId socket) (snd entry)
            && negb (String.eqb (fst entry) room) = false).
  { intros [r m] Hin. cbn [fst snd].
    destruct (JsSet.has (userId socket) m) eqn:Hh; [|reflexivity].
    rewrite (Hex (userId socket) r m room members Hin (get_In _ _ _ Hg) Hh Hm).
    now rewrite String.eqb_refl. }
  assert (Hfst : fst (leavePreviousRooms socket room now rooms) = rooms).
  { rewrite leavePreviousRooms_fst. rewrite <- (map_id rooms) at 2.
    apply map_ext_in. intros entry Hin. unfold leaveIfOther.
    now rewrite (Hnone entry Hin). }
  split.
  - unfold joinedRooms, ensureRoom, mutateMembers, JsMap.has.
    rewrite Hfst, Hg, Hg. unfold JsSet.add. rewrite Hm.
    now apply set_get_same.
  - rewrite leavePreviousRooms_snd.
    replace (filter _ rooms) with (@nil (string * list Ident)); [reflexivity|].
    symmetry. clear - Hnone. induction rooms as [|e l IH]; [reflexivity|].
    simpl. rewrite (Hnone e (or_introl eq_refl)). apply IH.
    intros entry Hin. apply Hnone. now right.
Qed.

Lemma joinOutput_counts room query now c1 :
  List.length (filter isUserJoined (joinOutput socket room query now c1)) <= 1
  /\ filter isUserLeft (joinOutput socket room query now c1) = []
  /\ List.length (filter isUserJoined (joinOutput socket room query now c1))
     = List.length (filter isChatHistory (joinOutput socket room query now c1)).
Proof.
  unfold joinOutput. destruct query; [|simpl; auto].
  destruct (JsMap.get room (chatRooms c1)) as [members|]; [|simpl; auto].
  destruct (traverse (describe true (activeUsers c1)) members); [|simpl; auto].
  destruct (traverse (describe false (activeUsers c1)) members); simpl; auto.
Qed.

End Joining.

Lemma with_chatRooms_id (c : Coordinator) (f : list (string * list Ident) -> list (string * list Ident)) :
  f (chatRooms c) = chatRooms c -> with_chatRooms f c = c.
Proof.
  intro Hf. unfold with_chatRooms. rewrite Hf. now destruct c.
Qed.

(** C9.  In a reachable state, a socket that joins the room it is already
    a member of leaves the coordinator exactly as it was: the member set of
    the room still lists the participant once.  The join leaves no room
    (no [userLeft] is emitted) and announces itself at most once: one
    [userJoined] when the snapshot is delivered, none when the join
    fails. *)
Theorem rejoin_same_room_idempotent :
  forall (trace : list Event) (c : Coordinator) (out0 : list Emit),
    run trace emptyCoordinator = Some (c, out0) ->
    forall (socket : Socket) (room : string) (query : QueryReply) (now : Z),
      memberOf (userId socket) room c = true ->
      let r := joinRoom socket (Some room) query now c in
      stateOf r = c
      /\ (exists members,
            JsMap.get room (chatRooms (stateOf r)) = Some members
            /\ NoDup members /\ In (userId socket) members)
      /\ filter isUserLeft (outputOf r) = []
      /\ List.length (filter isUserJoined (outputOf r)) <= 1
      /\ List.length (filter isUserJoined (outputOf r))
         = List.length (filter isChatHistory (outputOf r)).
Proof.
  intros trace c out0 Hrun socket room query now Hmem r.
  destruct (reachable_consistent trace c out0 Hrun) as (Ht & _ & _).
  unfold memberOf in Hmem.
  destruct (JsMap.get room (chatRooms c)) as [members|] eqn:Hg; [|discriminate].
  destruct (rejoin_table socket room now (chatRooms c) members Ht Hg Hmem)
    as [Hsame Hleft].
  assert (Hc : with_chatRooms (joinedRooms socket room now) c = c)
    by now apply with_chatRooms_id.
  subst r. rewrite joinRoom_eq, Hleft, Hc. unfold stateOf, outputOf.
  cbn [fst snd app].
  destruct (joinOutput_counts socket room query now c) as (H1 & H2 & H3).
  split; [reflexivity|]. split; [|now repeat split].
  exists members. split; [exact Hg|]. split.
  - destruct Ht as (_ & Hsets & _).
    exact (proj1 (Forall_forall _ (chatRooms c)) Hsets (room, members)
             (get_In _ _ _ Hg)).
  - now apply has_In.
Qed.

Lemma rejoin_same_room_idempotent_witness :
  stateOf (joinRoom alice (Some "r1") Answered 9 twoInRoom) = twoInRoom
  /\ List.length (filter isUserJoined (outputOf (joinRoom alice (Some "r1") Answered 9 twoInRoom)))
     = 1.
Proof.
  destruct (rejoin_same_room_idempotent
              twoInRoomTrace twoInRoom (finalOutput twoInRoomTrace)
              eq_refl alice "r1" Answered 9%Z eq_refl) as (Hs & _ & _ & _ & Hn).
  split; [exact Hs|]. rewrite Hn. reflexivity.
Defined.




(** ** The history snapshot *)

Lemma insertByCreatedAt_perm (m : Message) (l : list Message) :
  Permutation (insertByCreatedAt m l) (m :: l).
Proof.
  induction l as [|a l IH]; simpl; [apply Permutation_refl|].
  destruct (m_createdAt m <? m_createdAt a)%Z; [apply Permutation_refl|].
  eapply Permutation_trans; [apply perm_skip, IH | apply perm_swap].
Qed.

Lemma sortByCreatedAt_perm (l : list Message) : Permutation (sortByCreatedAt l) l.
Proof.
  induction l as [|a l IH]; simpl; [constructor|].
  eapply Permutation_trans; [apply insertByCreatedAt_perm | now apply perm_skip].
Qed.

Lemma insertByCreatedAt_sorted (m : Message) (l : list Message) :
  Sorted oldestFirst l -> Sorted oldestFirst (insertByCreatedAt m l).
Proof.
  induction l as [|a l IH]; intro Hs; simpl.
  - repeat constructor.
  - destruct (Z.ltb_spec (m_createdAt m) (m_createdAt a)) as [Hlt|Hge].
    + constructor; [exact Hs|]. constructor. unfold oldestFirst. lia.
    + inversion Hs as [|? ? Hs' Hhd]; subst.
      constructor; [now apply IH|].
      destruct l as [|b l]; simpl.
      * constructor. exact Hge.
      * destruct (m_createdAt m <? m_createdAt b)%Z; constructor.
        -- exact Hge.
        -- now inversion Hhd.
Qed.

Lemma sortByCreatedAt_sorted (l : list Message) : Sorted oldestFirst (sortByCreatedAt l).
Proof.
  induction l as [|a l IH]; simpl; [constructor|].
  now apply insertByCreatedAt_sorted.
Qed.

Lemma traverse_describe_ids withStatus users members :
  forall ps, traverse (describe withStatus users) members = Some ps ->
             map p_id ps = members.
Proof.
  induction members as [|u members IH]; simpl; intros ps Hps.
  - now injection Hps as <-.
  - unfold describe at 1 in Hps.
    destruct (JsMap.get u users) as [a|]; [|discriminate].
    destruct (traverse (describe withStatus users) members) as [qs|]; [|discriminate].
    injection Hps as <-. simpl. now rewrite (IH qs eq_refl).
Qed.

Lemma traverse_describe_total withStatus users members :
  (forall u, In u members -> JsMap.has u users = true) ->
  exists ps, traverse (describe withStatus users) members = Some ps.
Proof.
  induction members as [|u members IH]; simpl; intro Hall; [now eexists|].
  pose proof (Hall u (or_introl eq_refl)) as Hu. unfold JsMap.has in Hu.
  unfold describe at 1.
  destruct (JsMap.get u users) as [a|]; [|discriminate].
  destruct IH as [ps Hps]; [intros v Hv; apply Hall; now right|].
  rewrite Hps. now eexists.
Qed.

Lemma leavePreviousRooms_only_userLeft socket room now rooms e :
  In e (snd (leavePreviousRooms socket room now rooms)) -> isUserLeft e = true.
Proof.
  rewrite leavePreviousRooms_snd. intro Hin.
  apply in_map_iff in Hin as [entry [<- _]]. reflexivity.
Qed.

(** C4 (as stated) fails: room ["r1"] holds 51 stored messages, ["m1"]
    (oldest) to ["m51"] (newest).  The snapshot that Bob receives on
    joining is ["m1"] ... ["m50"]: the newest message is missing, whereas
    the last fifty in oldest-first order are ["m2"] ... ["m51"]. *)
Lemma chatHistory_omits_newest_message :
  let r := joinRoom bob (Some "r1") Answered 60001 busyRoom in
  run busyRoomTrace emptyCoordinator = Some (busyRoom, finalOutput busyRoomTrace)
  /\ map m_id (roomHistory "r1" (messageStore busyRoom)) = map messageName (seq 1 51)
  /\ exists messages participants,
       In (ToSocket "sock-b", ChatHistoryEv messages participants) (outputOf r)
       /\ map m_id messages = map messageName (seq 1 50)
       /\ map m_id (lastN 50 (roomHistory "r1" (messageStore busyRoom)))
          = map messageName (seq 2 50)
       /\ messages <> lastN 50 (roomHistory "r1" (messageStore busyRoom)).
Proof.
  cbv zeta. split; [vm_compute; reflexivity|]. split; [vm_compute; reflexivity|].
  eexists. eexists. split; [|split; [|split]].
  - vm_compute. left. reflexivity.
  - vm_compute. reflexivity.
  - vm_compute. reflexivity.
  - intro H. apply (f_equal (fun l => map m_createdAt (firstn 1 l))) in H.
    vm_compute in H. discriminate.
Qed.

(** C4 (amended).  Whenever [joinRoom] delivers a [chatHistory] snapshot,
    it goes to the joining socket, the history query was answered, and the
    messages are the first fifty stored messages of that room in ascending
    [createdAt] order -- the whole history when the room has at most fifty,
    the fifty oldest otherwise -- together with one participant entry, in
    member order, for each member of the room after the join.  A join
    whose query is answered and whose room members are all registered in
    [activeUsers] does deliver the snapshot. *)
Theorem chatHistory_holds_oldest_fifty :
  forall (socket : Socket) (room : string) (now : Z) (c : Coordinator),
    let history := roomHistory room (messageStore c) in
    Sorted oldestFirst history
    /\ Permutation history
         (filter (fun m => String.eqb (m_room m) room) (messageStore c))
    /\ (forall query to messages participants,
          In (to, ChatHistoryEv messages participants)
             (outputOf (joinRoom socket (Some room) query now c)) ->
          to = ToSocket (socket_id socket)
          /\ query = Answered
          /\ messages = firstn 50 history
          /\ (List.length history <= 50 -> messages = history)
          /\ exists members,
               JsMap.get room (joinedRooms socket room now (chatRooms c)) = Some members
               /\ In (userId socket) members
               /\ traverse (describe true (activeUsers c)) members = Some participants
               /\ map p_id participants = members)
    /\ (forall members,
          JsMap.get room (joinedRooms socket room now (chatRooms c)) = Some members ->
          (forall u, In u members -> JsMap.has u (activeUsers c) = true) ->
          exists participants,
            In (ToSocket (socket_id socket),
                ChatHistoryEv (firstn 50 history) participants)
               (outputOf (joinRoom socket (Some room) Answered now c))).
Proof.
  intros socket room now c history.
  split; [apply sortByCreatedAt_sorted|].
  split; [apply sortByCreatedAt_perm|].
  split.
  - intros query to messages participants Hin.
    rewrite joinRoom_eq in Hin. unfold outputOf in Hin. cbn [snd] in Hin.
    apply in_app_or in Hin as [Hin|Hin].
    { apply leavePreviousRooms_only_userLeft in Hin. discriminate. }
    unfold joinOutput in Hin.
    cbn [chatRooms activeUsers messageStore with_chatRooms] in Hin.
    destruct query as [|reason]; [|destruct Hin as [Hin|[]]; discriminate].
    destruct (JsMap.get room (joinedRooms socket room now (chatRooms c)))
      as [members|] eqn:Hg; [|destruct Hin as [Hin|[]]; discriminate].
    destruct (traverse (describe true (activeUsers c)) members) as [ps|] eqn:Hps;
      [|destruct Hin as [Hin|[]]; discriminate].
    assert (Hsnap : (to, ChatHistoryEv messages participants)
                    = (ToSocket (socket_id socket),
                       ChatHistoryEv (findRoomMessages room (messageStore c)) ps)).
    { destruct Hin as [Hin|[Hin|Hin]]; [now symmetry|discriminate|].
      destruct (traverse (describe false (activeUsers c)) members);
        destruct Hin as [Hin|[]]; discriminate. }
    injection Hsnap as -> -> ->.
    split; [reflexivity|]. split; [reflexivity|]. split; [reflexivity|]. split.
    + intro Hlen. unfold findRoomMessages. fold (roomHistory room (messageStore c)).
      fold history. now apply firstn_all2.
    + exists members. split; [reflexivity|]. split; [|split].
      * pose proof (memberOf_joined socket room now (chatRooms c) c) as Hm.
        unfold memberOf in Hm. cbn [chatRooms with_chatRooms] in Hm.
        rewrite Hg in Hm. now apply has_In.
      * exact Hps.
      * now apply (traverse_describe_ids true (activeUsers c)).
  - intros members Hg Hall.
    destruct (traverse_describe_total true (activeUsers c) members Hall) as [ps Hps].
    exists ps. rewrite joinRoom_eq. unfold outputOf. cbn [snd].
    apply in_or_app. right. unfold joinOutput.
    cbn [chatRooms activeUsers messageStore with_chatRooms].
    rewrite Hg, Hps. left. reflexivity.
Qed.

Lemma chatHistory_holds_oldest_fifty_witness :
  exists participants,
    In (ToSocket "sock-b",
        ChatHistoryEv (firstn 50 (roomHistory "r1" (messageStore busyRoom))) participants)
       (outputOf (joinRoom bob (Some "r1") Answered 60001 busyRoom)).
Proof.
  apply (proj2 (proj2 (proj2 (chatHistory_holds_oldest_fifty bob "r1" 60001 busyRoom)))
           [userId alice; userId bob]).
  - vm_compute. reflexivity.
  - intros u [<-|[<-|[]]]; vm_compute; reflexivity.
Defined.

(** ** Disconnecting *)

Section DeleteFacts.

Context {K V : Type} `{Key K}.

Lemma get_delete_same (k : K) (m : list (K * V)) :
  NoDup (map fst m) -> JsMap.get k (JsMap.delete k m) = None.
Proof.
  induction m as [|[k' v'] m IH]; simpl; intro Hnd; [reflexivity|].
  inversion Hnd as [|? ? Hnotin Hnd']; subst.
  destruct (same k' k) eqn:E.
  - apply same_true_eq in E. subst k'.
    destruct (JsMap.get k m) as [v|] eqn:G; [|reflexivity].
    exfalso. apply Hnotin. apply get_In in G. now apply (in_map fst) in G.
  - simpl. rewrite E. now apply IH.
Qed.

Lemma get_delete_other (k k' : K) (m : list (K * V)) :
  k <> k' -> JsMap.get k' (JsMap.delete k m) = JsMap.get k' m.
Proof.
  intro Hne. induction m as [|[k0 v0] m IH]; simpl; [reflexivity|].
  destruct (same k0 k) eqn:E; simpl.
  - apply same_true_eq in E. subst k0. now rewrite same_false.
  - now rewrite IH.
Qed.


End DeleteFacts.

Lemma traverse_typingEntry_ids users marks :
  forall typingData, traverse (typingEntry users) marks = Some typingData ->
                     map fst typingData = map fst marks.
Proof.
  induction marks as [|e marks IH]; simpl; intros typingData Ht.
  - now injection Ht as <-.
  - unfold typingEntry at 1 in Ht.
    destruct (JsMap.get (fst e) users) as [u|]; [|discriminate].
    destruct (traverse (typingEntry users) marks) as [rest|]; [|discriminate].
    injection Ht as <-. simpl. now rewrite (IH rest eq_refl).
Qed.

Lemma marksFor_keys room marks k :
  In k (map fst (marksFor room marks)) -> In k (map fst marks).
Proof.
  unfold marksFor. intro Hin. apply in_map_iff in Hin as [e [He Hin]].
  apply filter_In in Hin as [Hin _]. apply in_map_iff. now exists e.
Qed.

Section Disconnecting.

Variable socket : Socket.


End Disconnecting.




(** ** Identity *)

(** C6.  A connection that presents a token which [jwt.verify] rejects
    is accepted as a guest whose identity is synthesized from the current
    time -- its id is the string ["guest-"] followed by [Date.now()] -- and
    the middleware rejects a connection in exactly one case: the token
    verifies and the lookup of the user record yields nothing, with the
    error "Authentication error: User not found". *)
Theorem invalid_token_degrades_to_guest :
  forall (jwt_verify : string -> option (option string))
         (findById : option string -> Lookup) (now : Z),
    (forall tok, truthy (Some tok) = true -> jwt_verify tok = None ->
       authMiddleware jwt_verify findById (Some tok) now
       = Accepted (GuestId ("guest-" ++ decimal now)%string) (guestUser now)
       /\ _id (guestUser now) = GuestId ("guest-" ++ decimal now)%string
       /\ startsWith "guest-" ("guest-" ++ decimal now)%string = true)
    /\ (forall token message,
          authMiddleware jwt_verify findById token now = Rejected message <->
          message = "Authentication error: User not found"
          /\ exists tok decoded_id,
               token = Some tok /\ truthy token = true
               /\ jwt_verify tok = Some decoded_id
               /\ findById decoded_id = LookupNull).
Proof.
  intros jwt_verify findById now. split.
  - intros tok Ht Hv. unfold authMiddleware. rewrite Ht, Hv.
    split; [reflexivity|]. split; [reflexivity|].
    unfold startsWith. cbn [String.append String.prefix]. 
    repeat (rewrite Ascii.eqb_refl). now destruct (decimal now).
  - intros token message. unfold authMiddleware. split.
    + destruct token as [tok|]; [|discriminate].
      destruct (truthy (Some tok)) eqn:Ht; [|discriminate].
      destruct (jwt_verify tok) as [decoded_id|] eqn:Hv; [|discriminate].
      destruct (findById decoded_id) eqn:Hf; try discriminate.
      intro H. injection H as <-. split; [reflexivity|].
      exists tok, decoded_id. now repeat split.
    + intros [-> (tok & decoded_id & -> & Ht & Hv & Hf)].
      now rewrite Ht, Hv, Hf.
Qed.

Lemma invalid_token_degrades_to_guest_witness :
  authMiddleware sampleVerify sampleFindById (Some "tampered.token") 1700000000001
  = Accepted (GuestId "guest-1700000000001") (guestUser 1700000000001).
Proof.
  exact (proj1 (proj1 (invalid_token_degrades_to_guest
                         sampleVerify sampleFindById 1700000000001%Z)
                  "tampered.token" eq_refl eq_refl)).
Defined.

(** * Further properties of the server *)

(** ** Private messages *)

Lemma find_first {A} (p : A -> bool) (l : list A) (x : A) :
  find p l = Some x ->
  exists before after,
    l = before ++ x :: after /\ p x = true /\ (forall y, In y before -> p y = false).
Proof.
  induction l as [|a l IH]; simpl; [discriminate|].
  destruct (p a) eqn:Ha.
  - intro H. injection H as ->. exists [], l. repeat split; [exact Ha|]. intros y [].
  - intro H. destruct (IH H) as (before & after & -> & Hx & Hb).
    exists (a :: before), after. repeat split; [exact Hx|].
    intros y [<-|Hy]; [exact Ha | now apply Hb].
Qed.

Lemma get_map_values {K A B} `{Key K} (f : A -> B) (k : K) (m : list (K * A)) :
  JsMap.get k (map (fun entry : K * A => (fst entry, f (snd entry))) m)
  = option_map f (JsMap.get k m).
Proof.
  induction m as [|[k' a] m IH]; simpl; [reflexivity|].
  destruct (same k' k); [reflexivity | exact IH].
Qed.

(** X1.  A private message is emitted to at most one socket: the first
    connected socket, in connection order, whose user id is a guest id
    equal to the string [data.to].  A socket of a registered user (whose
    id is an [ObjectId] object) is never the recipient, and when no socket
    qualifies -- also when [to] is missing or not a string -- the message
    is dropped without any error. *)
Theorem privateMessage_reaches_first_matching_guest :
  forall (socket : Socket) (sockets : list Socket) (fields : list (string * Json))
         (now : Z),
    (forall recipient payload,
       privateMessage socket sockets (Some fields) now = Normal (Some (recipient, payload)) ->
       exists before s after g,
         sockets = before ++ s :: after
         /\ recipient = socket_id s
         /\ userId s = GuestId g
         /\ JsMap.get "to" fields = Some (JString g)
         /\ (forall s', In s' before -> userId s' <> GuestId g))
    /\ (privateMessage socket sockets (Some fields) now = Normal None
        <-> forall s g, In s sockets -> JsMap.get "to" fields = Some (JString g) ->
                        userId s <> GuestId g)
    /\ (forall e, privateMessage socket sockets (Some fields) now <> Thrown e).
Proof.
  intros socket sockets fields now. unfold privateMessage.
  set (p := fun s : Socket => strictEqTo (userId s) (JsMap.get "to" fields)).
  assert (Hp : forall s, p s = true <->
                         exists g, userId s = GuestId g
                                   /\ JsMap.get "to" fields = Some (JString g)).
  { intro s. unfold p, strictEqTo.
    destruct (userId s) as [g|h n]; [|split; [discriminate | intros (g & H & _); discriminate]].
    destruct (JsMap.get "to" fields) as [[t|t]|];
      try (split; [discriminate | intros (g' & _ & H); discriminate]).
    split.
    - intro H. apply String.eqb_eq in H. subst t. now exists g.
    - intros (g' & Hg & Ht). injection Hg as <-. injection Ht as <-.
      apply String.eqb_refl. }
  split; [|split].
  - intros recipient payload H.
    destruct (find p sockets) as [s|] eqn:Hf; [|discriminate].
    injection H as <- <-.
    destruct (find_first p sockets s Hf) as (before & after & Hs & Hps & Hb).
    apply Hp in Hps as (g & Hg & Ht).
    exists before, s, after, g. repeat split; try assumption.
    intros s' Hin Heq. specialize (Hb s' Hin).
    assert (p s' = true) by (apply Hp; now exists g). congruence.
  - split.
    + intro H. destruct (find p sockets) as [s|] eqn:Hf; [discriminate|].
      intros s g Hin Ht Heq.
      pose proof (find_none p sockets Hf s Hin) as Hn.
      assert (p s = true) by (apply Hp; now exists g). congruence.
    + intro H. destruct (find p sockets) as [s|] eqn:Hf; [|reflexivity].
      exfalso. apply find_some in Hf as [Hin Hps].
      apply Hp in Hps as (g & Hg & Ht). exact (H s g Hin Ht Hg).
  - intros e. destruct (find p sockets); discriminate.
Qed.

Lemma privateMessage_reaches_first_matching_guest_witness :
  exists before s after g,
    [carol; alice; bob] = before ++ s :: after
    /\ "sock-a" = socket_id s
    /\ userId s = GuestId g
    /\ JsMap.get "to" [("to", JString "guest-1700000000001"); ("text", JString "hi")]
       = Some (JString g)
    /\ (forall s', In s' before -> userId s' <> GuestId g).
Proof.
  exact (proj1 (privateMessage_reaches_first_matching_guest
                  bob [carol; alice; bob]
                  [("to", JString "guest-1700000000001"); ("text", JString "hi")] 9%Z)
           "sock-a"
           (stamped bob [("to", JString "guest-1700000000001"); ("text", JString "hi")] 9%Z)
           eq_refl).
Defined.

(** X2.  The object delivered by [privateMessage] always names the real
    sender and the server's clock: its [from] is the sending socket's user
    id and its [timestamp] the time of handling, whatever [from] or
    [timestamp] the client put in the payload; every other field of the
    payload is delivered unchanged and no field is added. *)
Theorem privateMessage_stamps_sender_and_time :
  forall (socket : Socket) (sockets : list Socket) (fields : list (string * Json))
         (now : Z) (recipient : string) (payload : list (string * Value)),
    privateMessage socket sockets (Some fields) now = Normal (Some (recipient, payload)) ->
    JsMap.get "from" payload = Some (UserIdValue (userId socket))
    /\ JsMap.get "timestamp" payload = Some (DateValue now)
    /\ (forall k, k <> "from" -> k <> "timestamp" ->
          JsMap.get k payload = option_map FromClient (JsMap.get k fields)).
Proof.
  intros socket sockets fields now recipient payload H. unfold privateMessage in H.
  destruct (find _ sockets); [|discriminate]. injection H as _ <-.
  unfold stamped. split; [|split].
  - rewrite get_set_other by discriminate. apply get_set_same.
  - apply get_set_same.
  - intros k Hf Ht. rewrite !get_set_other by congruence.
    apply (get_map_values FromClient).
Qed.

Lemma privateMessage_stamps_sender_and_time_witness :
  JsMap.get "from"
    (stamped bob [("to", JString "guest-1700000000001");
                  ("from", JString "guest-1700000000001")] 9)
  = Some (UserIdValue (userId bob)).
Proof.
  exact (proj1 (privateMessage_stamps_sender_and_time
                  bob [alice; bob]
                  [("to", JString "guest-1700000000001");
                   ("from", JString "guest-1700000000001")] 9%Z "sock-a" _ eq_refl)).
Defined.

(** ** The Express error-handling middleware *)

(** X3.  For an error object whose [status] is absent or an integer: a
    [ValidationError] is answered with 400 and an [UnauthorizedError] with
    401, whatever [err.status] says; any other error is answered with its
    own status, or with 500 when it has none or zero, repeated in the
    body.  Whenever the middleware answers, the status code is one that
    Node accepts (100 to 999) and the [error] text is not empty.  It does
    not answer exactly when such an other error carries a non-zero status
    outside 100..999: then [res.status(...).json(...)] raises. *)
Theorem errorMiddleware_response_is_well_formed :
  forall err : ServerError,
    (nameIs (err_name err) "ValidationError" = true ->
     errorMiddleware err = Sent 400 (WithDetails "Validation Error" (err_message err)))
    /\ (nameIs (err_name err) "UnauthorizedError" = true ->
        errorMiddleware err = Sent 401 (WithDetails "Unauthorized" (err_message err)))
    /\ match errorMiddleware err with
       | Sent status body =>
           (100 <= status <= 999)%Z
           /\ match body with
              | WithDetails error details =>
                  error <> "" /\ details = err_message err
                  /\ ((nameIs (err_name err) "ValidationError" = true
                       /\ status = 400%Z)
                      \/ (nameIs (err_name err) "UnauthorizedError" = true
                          /\ status = 401%Z))
              | WithStatus error status' =>
                  error <> "" /\ status' = status
                  /\ (err_status err = Some status \/ status = 500%Z)
                  /\ (err_message err = Some error \/ error = "Internal Server Error")
              end
       | StatusRefused status =>
           err_status err = Some status
           /\ status <> 0%Z
           /\ ((status < 100)%Z \/ (999 < status)%Z)
           /\ nameIs (err_name err) "ValidationError" = false
           /\ nameIs (err_name err) "UnauthorizedError" = false
       end
    /\ (forall status : Z,
          nameIs (err_name err) "ValidationError" = false ->
          nameIs (err_name err) "UnauthorizedError" = false ->
          err_status err = Some status -> status <> 0%Z ->
          (status < 100)%Z \/ (999 < status)%Z ->
          errorMiddleware err = StatusRefused status).
Proof.
  intro err. split; [|split; [|split]].
  { intro H. unfold errorMiddleware. now rewrite H. }
  { intro H. unfold errorMiddleware.
    destruct (err_name err) as [n|]; [|discriminate].
    cbn [nameIs] in *. apply String.eqb_eq in H. now subst n. }
  2:{ intros status Hv Hu Hs Hz Hout. unfold errorMiddleware, respond, validStatus.
      rewrite Hv, Hu, Hs. destruct (Z.eqb_spec status 0) as [|_]; [contradiction|].
      destruct Hout as [Hlow|Hhigh].
      - assert (E : (100 <=? status)%Z = false) by (apply Z.leb_gt; lia).
        now rewrite E.
      - assert (E : (status <=? 999)%Z = false) by (apply Z.leb_gt; lia).
        rewrite E. now rewrite andb_false_r. }
  unfold errorMiddleware.
  destruct (nameIs (err_name err) "ValidationError") eqn:Hv.
  { cbn. split; [lia|]. repeat split; try discriminate. now left. }
  destruct (nameIs (err_name err) "UnauthorizedError") eqn:Hu.
  { cbn. split; [lia|]. repeat split; try discriminate. now right. }
  set (status := match err_status err with
                 | Some s => if (s =? 0)%Z then 500%Z else s
                 | None => 500%Z
                 end).
  set (message := match err_message err with
                  | Some m => if truthy (err_message err) then m
                              else "Internal Server Error"
                  | None => "Internal Server Error"
                  end).
  cbv zeta.
  assert (Hstatus : status <> 0%Z
                    /\ (err_status err = Some status \/ status = 500%Z)).
  { unfold status. destruct (err_status err) as [s|]; [|split; [discriminate | now right]].
    destruct (Z.eqb_spec s 0); [split; [discriminate | now right]|].
    split; [assumption | now left]. }
  destruct Hstatus as [Hnz Hfrom].
  assert (Hmessage : message <> ""
                     /\ (err_message err = Some message
                         \/ message = "Internal Server Error")).
  { unfold message. destruct (err_message err) as [m|] eqn:Hm;
      [|split; [discriminate | now right]].
    unfold truthy. destruct (String.eqb_spec m ""); cbn [negb];
      [split; [discriminate | now right] | split; [assumption | now left]]. }
  destruct Hmessage as [Hne Hmsg].
  unfold respond, validStatus.
  destruct (Z.leb_spec 100 status) as [Hlow|Hlow];
    [destruct (Z.leb_spec status 999) as [Hhigh|Hhigh]|]; cbn [andb].
  - split; [lia|]. now repeat split.
  - destruct Hfrom as [Hs|Hs]; [|lia]. repeat split; try assumption. now right.
  - destruct Hfrom as [Hs|Hs]; [|lia]. repeat split; try assumption. now left.
Qed.

(** ** Identity *)

Lemma decimal_injective (a b : Z) : decimal a = decimal b -> a = b.
Proof.
  unfold decimal. intro H.
  assert (Hint : forall z, NilZero.int_of_string (NilZero.string_of_int (Z.to_int z))
                           = Some (Z.to_int z)).
  { intro z. apply NilZero.isi.
    - destruct z; simpl; try discriminate.
      intro Hn. injection Hn as Hn.
      pose proof (DecimalPos.Unsigned.to_uint_nonnil p). contradiction.
    - destruct z; simpl; try discriminate.
      intro Hn. injection Hn as Hn.
      pose proof (DecimalPos.Unsigned.to_uint_nonnil p). contradiction. }
  pose proof (Hint a) as Ha. rewrite H, Hint in Ha. injection Ha as Ha.
  rewrite <- (DecimalZ.of_to a), <- (DecimalZ.of_to b). now rewrite Ha.
Qed.

Lemma prefix_append (p s : string) : String.prefix p (p ++ s) = true.
Proof.
  induction p as [|c p IH]; simpl; [now destruct s|].
  destruct (ascii_dec c c); [exact IH | congruence].
Qed.

Lemma decimal_nonempty (z : Z) : decimal z <> "".
Proof.
  unfold decimal. destruct (Z.to_int z) as [[]|[]]; simpl; discriminate.
Qed.

Lemma substring_whole (s : string) : String.substring 0 (String.length s) s = s.
Proof.
  induction s as [|c s IH]; simpl; [reflexivity | now rewrite IH].
Qed.

Lemma substring_from_suffix (s : string) :
  forall n, n <= String.length s ->
    exists front,
      s = (front ++ substring_from n s)%string
      /\ String.length front = n
      /\ String.length (substring_from n s) = String.length s - n.
Proof.
  unfold substring_from. induction s as [|c s IH]; intros n Hn.
  - simpl in Hn. assert (n = 0) by lia. subst n. now exists "".
  - destruct n as [|n].
    + exists "". rewrite Nat.sub_0_r, substring_whole. now repeat split.
    + simpl in Hn. destruct (IH n) as (front & Hs & Hf & Hl); [lia|].
      exists (String c front). cbn [String.substring String.length Nat.sub].
      repeat split.
      * cbn [String.append]. now rewrite <- Hs.
      * simpl. now rewrite Hf.
      * exact Hl.
Qed.

(** X4.  Guest identities come from the clock alone: two connections
    without a usable token get the same guest id exactly when they arrive
    in the same millisecond.  The id is ["guest-"] followed by the decimal
    time, the display name is ["Guest-"] followed by the last four
    characters of the id, and [groupMessage] classifies such a sender as
    ['guest']. *)
Theorem guest_identity_is_the_clock :
  forall (now now' : Z) (c : Coordinator),
    (_id (guestUser now) = _id (guestUser now') <-> now = now')
    /\ _id (guestUser now) = GuestId ("guest-" ++ decimal now)%string
    /\ (exists front last4,
          ("guest-" ++ decimal now)%string = (front ++ last4)%string
          /\ String.length last4 = 4
          /\ username (guestUser now) = ("Guest-" ++ last4)%string)
    /\ senderTypeOf (_id (guestUser now)) c = (Normal "guest", c, []).
Proof.
  intros now now' c. split; [|split; [reflexivity|split]].
  - split; [|now intros ->].
    cbn [guestUser _id]. intro H. injection H as H.
    now apply decimal_injective.
  - set (guestId := ("guest-" ++ decimal now)%string).
    assert (Hlen : 7 <= String.length guestId).
    { unfold guestId. cbn [String.append String.length].
      pose proof (decimal_nonempty now). destruct (decimal now); [congruence|].
      simpl. lia. }
    destruct (substring_from_suffix guestId (String.length guestId - 4))
      as (front & Hs & _ & Hl); [lia|].
    exists front, (substring_from (String.length guestId - 4) guestId).
    split; [exact Hs|]. split; [lia | reflexivity].
  - cbn [guestUser _id senderTypeOf]. unfold startsWith.
    now rewrite prefix_append.
Qed.


(** X5.  The authentication middleware either rejects (only with "User
    not found") or attaches an identity whose [socket.userId] is the
    [_id] of [socket.user]; the identity is the stored user document when
    the token verifies and the lookup finds it, and in every other accepted
    case -- no token, an empty token, a token that fails verification, a
    lookup that fails -- the guest synthesized from the clock. *)
Theorem authMiddleware_attaches_consistent_identity :
  forall (jwt_verify : string -> option (option string))
         (findById : option string -> Lookup) (token : option string) (now : Z),
    (forall uid u,
       authMiddleware jwt_verify findById token now = Accepted uid u ->
       uid = _id u
       /\ ((uid = _id (guestUser now) /\ u = guestUser now)
           \/ exists tok decoded_id,
                token = Some tok /\ truthy token = true
                /\ jwt_verify tok = Some decoded_id
                /\ findById decoded_id = LookupDoc u))
    /\ (truthy token = false ->
        authMiddleware jwt_verify findById token now = asGuest now)
    /\ (forall tok decoded_id reason,
          token = Some tok -> truthy token = true ->
          jwt_verify tok = Some decoded_id ->
          findById decoded_id = LookupRejects reason ->
          authMiddleware jwt_verify findById token now = asGuest now)
    /\ (forall tok decoded_id doc,
          token = Some tok -> truthy token = true ->
          jwt_verify tok = Some decoded_id ->
          findById decoded_id = LookupDoc doc ->
          authMiddleware jwt_verify findById token now = Accepted (_id doc) doc)
    /\ (forall tok,
          token = Some tok -> truthy token = true -> jwt_verify tok = None ->
          authMiddleware jwt_verify findById token now = asGuest now)
    /\ (forall message,
          authMiddleware jwt_verify findById token now = Rejected message ->
          message = "Authentication error: User not found"
          /\ exists tok decoded_id,
               token = Some tok /\ truthy token = true
               /\ jwt_verify tok = Some decoded_id
               /\ findById decoded_id = LookupNull).
Proof.
  intros jwt_verify findById token now. unfold authMiddleware, asGuest.
  split; [|split; [|split; [|split; [|split]]]].
  - intros uid u H.
    destruct token as [tok|]; [|injection H as <- <-; split; [reflexivity | now left]].
    destruct (truthy (Some tok)) eqn:Ht;
      [|injection H as <- <-; split; [reflexivity | now left]].
    destruct (jwt_verify tok) as [decoded_id|] eqn:Hv;
      [|injection H as <- <-; split; [reflexivity | now left]].
    destruct (findById decoded_id) as [reason| |doc] eqn:Hf; try discriminate.
    + injection H as <- <-. split; [reflexivity | now left].
    + injection H as <- <-. split; [reflexivity|]. right.
      exists tok, decoded_id. now repeat split.
  - intro Ht. destruct token as [tok|]; [|reflexivity]. now rewrite Ht.
  - intros tok decoded_id reason -> Ht Hv Hf. now rewrite Ht, Hv, Hf.
  - intros tok decoded_id doc -> Ht Hv Hf. now rewrite Ht, Hv, Hf.
  - intros tok -> Ht Hv. now rewrite Ht, Hv.
  - intros message H.
    destruct token as [tok|]; [|discriminate].
    destruct (truthy (Some tok)) eqn:Ht; [|discriminate].
    destruct (jwt_verify tok) as [decoded_id|] eqn:Hv; [|discriminate].
    destruct (findById decoded_id) as [reason| |doc] eqn:Hf; try discriminate.
    injection H as <-. split; [reflexivity|].
    exists tok, decoded_id. now repeat split.
Qed.

Lemma authMiddleware_attaches_consistent_identity_witness :
  authMiddleware sampleVerify sampleFindById (Some "token-of-carol") 1700000000001
  = Accepted (_id (user carol)) (user carol).
Proof.
  exact (proj1 (proj2 (proj2 (proj2 (authMiddleware_attaches_consistent_identity
                                       sampleVerify sampleFindById
                                       (Some "token-of-carol") 1700000000001%Z))))
           "token-of-carol" (Some "carol-id") (user carol)
           eq_refl eq_refl eq_refl eq_refl).
Defined.

(** ** Rooms *)

Lemma memberOf_holds (uid : Ident) (room : string) (c : Coordinator) :
  memberOf uid room c = holds uid room (chatRooms c).
Proof. reflexivity. Qed.

Section RoomFacts.

Variable socket : Socket.

Lemma get_leaveIfOther room r rooms :
  JsMap.get r (map (leaveIfOther (userId socket) room) rooms)
  = option_map (fun m => snd (leaveIfOther (userId socket) room (r, m)))
      (JsMap.get r rooms).
Proof.
  induction rooms as [|[r0 m0] rooms IH]; [reflexivity|].
  cbn [map]. unfold leaveIfOther at 1. cbn [fst snd].
  destruct (JsSet.has (userId socket) m0 && negb (String.eqb r0 room)) eqn:E;
    cbn [JsMap.get]; destruct (same r0 r) eqn:Hr; try exact IH;
    apply same_true_eq in Hr; subst r0; cbn [option_map];
    unfold leaveIfOther; cbn [fst snd]; now rewrite E.
Qed.

Lemma get_leaveIfMember r rooms :
  JsMap.get r (map (leaveIfMember (userId socket)) rooms)
  = option_map (fun m => snd (leaveIfMember (userId socket) (r, m)))
      (JsMap.get r rooms).
Proof.
  induction rooms as [|[r0 m0] rooms IH]; [reflexivity|].
  cbn [map]. unfold leaveIfMember at 1. cbn [fst snd].
  destruct (JsSet.has (userId socket) m0) eqn:E;
    cbn [JsMap.get]; destruct (same r0 r) eqn:Hr; try exact IH;
    apply same_true_eq in Hr; subst r0; cbn [option_map];
    unfold leaveIfMember; cbn [fst snd]; now rewrite E.
Qed.

Lemma holds_leaveIfOther u room r rooms :
  u <> userId socket ->
  holds u r (map (leaveIfOther (userId socket) room) rooms) = holds u r rooms.
Proof.
  intro Hu. unfold holds. rewrite get_leaveIfOther.
  destruct (JsMap.get r rooms) as [m|]; [|reflexivity]. cbn [option_map].
  unfold leaveIfOther. cbn [fst snd]. destruct (_ && _); [|reflexivity].
  cbn [snd]. apply has_delete_other. congruence.
Qed.

Lemma holds_leaveIfMember u r rooms :
  u <> userId socket ->
  holds u r (map (leaveIfMember (userId socket)) rooms) = holds u r rooms.
Proof.
  intro Hu. unfold holds. rewrite get_leaveIfMember.
  destruct (JsMap.get r rooms) as [m|]; [|reflexivity]. cbn [option_map].
  unfold leaveIfMember. cbn [fst snd]. destruct (JsSet.has _ m); [|reflexivity].
  cbn [snd]. apply has_delete_other. congruence.
Qed.

Lemma holds_ensureRoom u room r rooms :
  holds u r (ensureRoom room rooms) = holds u r rooms.
Proof.
  unfold ensureRoom, JsMap.has. destruct (JsMap.get room rooms) eqn:E; [reflexivity|].
  unfold holds. destruct (String.eqb_spec room r) as [->|Hne].
  - now rewrite get_set_same, E.
  - now rewrite get_set_other.
Qed.

Lemma holds_add u room r rooms :
  u <> userId socket ->
  holds u r (mutateMembers room (JsSet.add (userId socket)) rooms) = holds u r rooms.
Proof.
  intro Hu. unfold mutateMembers.
  destruct (JsMap.get room rooms) as [m|] eqn:E; [|reflexivity].
  unfold holds. destruct (String.eqb_spec room r) as [->|Hne].
  - rewrite get_set_same, E, has_add, same_false by congruence. apply orb_false_r.
  - now rewrite get_set_other.
Qed.

Lemma holds_joined u room now r rooms :
  u <> userId socket ->
  holds u r (joinedRooms socket room now rooms) = holds u r rooms.
Proof.
  intro Hu. unfold joinedRooms.
  rewrite holds_add, holds_ensureRoom, leavePreviousRooms_fst by assumption.
  now apply holds_leaveIfOther.
Qed.

Lemma has_joined room now r rooms :
  JsMap.has r (joinedRooms socket room now rooms)
  = JsMap.has r rooms || String.eqb room r.
Proof.
  unfold joinedRooms. rewrite leavePreviousRooms_fst.
  set (rooms1 := map (leaveIfOther (userId socket) room) rooms).
  assert (H1 : forall k, JsMap.has k rooms1 = JsMap.has k rooms).
  { intro k. unfold JsMap.has, rooms1. rewrite get_leaveIfOther.
    now destruct (JsMap.get k rooms). }
  assert (H2 : JsMap.has r (ensureRoom room rooms1)
               = JsMap.has r rooms || String.eqb room r).
  { unfold ensureRoom. destruct (JsMap.has room rooms1) eqn:E.
    - rewrite H1. destruct (String.eqb_spec room r) as [<-|]; [|now rewrite orb_false_r].
      rewrite H1 in E. now rewrite E.
    - unfold JsMap.has. destruct (String.eqb_spec room r) as [<-|Hne].
      + rewrite get_set_same. now rewrite orb_true_r.
      + rewrite get_set_other by assumption. fold (JsMap.has r rooms1).
        now rewrite H1, orb_false_r. }
  unfold mutateMembers.
  destruct (JsMap.get room (ensureRoom room rooms1)) as [m|] eqn:E; [|exact H2].
  rewrite <- H2. unfold JsMap.has.
  destruct (String.eqb_spec room r) as [<-|Hne].
  - now rewrite get_set_same, E.
  - now rewrite get_set_other.
Qed.

Lemma get_joined_new room now rooms :
  JsMap.has room rooms = false ->
  JsMap.get room (joinedRooms socket room now rooms) = Some [userId socket].
Proof.
  intro Hnew. unfold joinedRooms. rewrite leavePreviousRooms_fst.
  set (rooms1 := map (leaveIfOther (userId socket) room) rooms).
  assert (H1 : JsMap.has room rooms1 = false).
  { unfold JsMap.has, rooms1 in *. rewrite get_leaveIfOther.
    now destruct (JsMap.get room rooms). }
  unfold ensureRoom, mutateMembers. rewrite H1, get_set_same.
  now rewrite get_set_same.
Qed.

End RoomFacts.

(** X6.  [joinRoom] moves the joiner and nobody else: whatever the
    outcome of the history query, the joiner is a member of the requested
    room afterwards, every other participant is a member of exactly the
    rooms it was in, and presence, typing marks, rate history and the
    message store are untouched.  A room that did not exist is created
    with the joiner as its only member, and in a reachable state the
    joiner is in no other room afterwards. *)
Theorem joinRoom_moves_only_the_joiner :
  forall (socket : Socket) (room : string) (query : QueryReply) (now : Z)
         (c : Coordinator),
    let c' := stateOf (joinRoom socket (Some room) query now c) in
    memberOf (userId socket) room c' = true
    /\ (forall u r, u <> userId socket -> memberOf u r c' = memberOf u r c)
    /\ (JsMap.has room (chatRooms c) = false ->
        JsMap.get room (chatRooms c') = Some [userId socket])
    /\ (forall trace out0, run trace emptyCoordinator = Some (c, out0) ->
          forall r, r <> room -> memberOf (userId socket) r c' = false)
    /\ activeUsers c' = activeUsers c
    /\ typingUsers c' = typingUsers c
    /\ messageTimestamps c' = messageTimestamps c
    /\ messageStore c' = messageStore c.
Proof.
  intros socket room query now c c'. subst c'. rewrite joinRoom_eq.
  unfold stateOf. cbn [fst snd].
  split; [apply (memberOf_joined socket room now (chatRooms c) c)|].
  split; [|split; [|split; [|now repeat split]]].
  - intros u r Hu. rewrite !memberOf_holds. cbn [chatRooms with_chatRooms].
    now apply holds_joined.
  - intro Hnew. cbn [chatRooms with_chatRooms]. now apply get_joined_new.
  - intros trace out0 Hrun r Hr.
    destruct (reachable_consistent trace c out0 Hrun) as (Ht & _ & _).
    pose proof (tidy_joined socket room now (chatRooms c) Ht) as (_ & _ & Hex).
    pose proof (memberOf_joined socket room now (chatRooms c) c) as Hin.
    unfold memberOf in *. cbn [chatRooms with_chatRooms] in *.
    destruct (JsMap.get room (joinedRooms socket room now (chatRooms c)))
      as [m|] eqn:G; [|discriminate].
    destruct (JsMap.get r (joinedRooms socket room now (chatRooms c)))
      as [m'|] eqn:G'; [|reflexivity].
    destruct (JsSet.has (userId socket) m') eqn:Hh; [|reflexivity].
    exfalso. apply Hr.
    exact (Hex _ _ _ _ _ (get_In _ _ _ G') (get_In _ _ _ G) Hh Hin).
Qed.

Lemma joinRoom_moves_only_the_joiner_witness :
  memberOf (userId bob) "r1" (stateOf (joinRoom alice (Some "r2") Answered 9 twoInRoom))
  = memberOf (userId bob) "r1" twoInRoom.
Proof.
  apply (proj1 (proj2 (joinRoom_moves_only_the_joiner alice "r2" Answered 9%Z twoInRoom))
           (userId bob) "r1").
  discriminate.
Defined.

(** X7.  [leaveRoom] always broadcasts exactly one [userLeft] to the
    named room, even when the room does not exist or the sender is not in
    it.  In a reachable state, afterwards the sender is not a member of
    the room, the memberships of everybody else and all other rooms are
    unchanged, and the room still exists exactly when another member
    remains: [leaveRoom] never leaves an empty room behind. *)
Theorem leaveRoom_removes_sender_and_empty_room :
  forall (trace : list Event) (c : Coordinator) (out0 : list Emit),
    run trace emptyCoordinator = Some (c, out0) ->
    forall (socket : Socket) (roomId : string) (now : Z),
      let r := leaveRoom socket roomId now c in
      outputOf r = [(ToRoom roomId, UserLeftEv (userId socket) None (Some roomId) now)]
      /\ memberOf (userId socket) roomId (stateOf r) = false
      /\ (forall u, u <> userId socket ->
            memberOf u roomId (stateOf r) = memberOf u roomId c)
      /\ (forall u other, other <> roomId ->
            memberOf u other (stateOf r) = memberOf u other c)
      /\ (JsMap.has roomId (chatRooms (stateOf r)) = true
          <-> exists u, u <> userId socket /\ memberOf u roomId c = true).
Proof.
  intros trace c out0 Hrun socket roomId now r.
  destruct (reachable_consistent trace c out0 Hrun) as ((Hkeys & Hsets & _) & _ & _).
  subst r. rewrite leaveRoom_eq. unfold stateOf, outputOf. cbn [fst snd].
  split; [reflexivity|].
  unfold memberOf, roomsAfterLeave. cbn [chatRooms with_chatRooms].
  destruct (JsMap.get roomId (chatRooms c)) as [members|] eqn:Hg.
  2:{ rewrite Hg. split; [reflexivity|]. split; [reflexivity|]. split; [reflexivity|].
      unfold JsMap.has. rewrite Hg. split; [discriminate|].
      intros (u & _ & H). discriminate. }
  assert (Hm : NoDup members)
    by exact (proj1 (Forall_forall _ (chatRooms c)) Hsets (roomId, members)
                (get_In _ _ _ Hg)).
  set (rest := JsSet.delete (userId socket) members).
  assert (Hrest : JsSet.has (userId socket) rest = false)
    by now apply has_delete_same.
  assert (Hothers : forall u, u <> userId socket ->
                              JsSet.has u rest = JsSet.has u members).
  { intros u Hu. apply has_delete_other. congruence. }
  set (rooms1 := JsMap.set roomId rest (chatRooms c)).
  assert (Hk1 : NoDup (map fst rooms1)) by now apply NoDup_keys_set.
  destruct (Nat.eqb (JsSet.size rest) 0) eqn:Hsize.
  - apply Nat.eqb_eq in Hsize. unfold JsSet.size in Hsize.
    apply length_zero_iff_nil in Hsize.
    rewrite get_delete_same by exact Hk1.
    split; [reflexivity|]. split; [|split].
    + intros u Hu. rewrite <- Hothers by exact Hu. now rewrite Hsize.
    + intros u other Hne. rewrite get_delete_other by congruence.
      unfold rooms1. rewrite get_set_other by congruence. reflexivity.
    + unfold JsMap.has. rewrite get_delete_same by exact Hk1.
      split; [discriminate|]. intros (u & Hu & H).
      rewrite <- Hothers, Hsize in H by exact Hu. discriminate.
  - unfold rooms1. rewrite get_set_same.
    split; [exact Hrest|]. split; [|split].
    + exact Hothers.
    + intros u other Hne. now rewrite get_set_other by congruence.
    + unfold JsMap.has. rewrite get_set_same. split; [|reflexivity]. intros _.
      destruct rest as [|u rest'] eqn:Er; [discriminate|].
      exists u. assert (Hu : JsSet.has u (u :: rest') = true)
        by (cbn [JsSet.has]; now rewrite same_refl).
      split; [intros ->; congruence|].
      rewrite <- Hothers; [exact Hu | intros ->; congruence].
Qed.

Lemma leaveRoom_removes_sender_and_empty_room_witness :
  memberOf (userId alice) "r1" (stateOf (leaveRoom alice "r1" 9 twoInRoom)) = false.
Proof.
  exact (proj1 (proj2 (leaveRoom_removes_sender_and_empty_room
                         twoInRoomTrace twoInRoom (finalOutput twoInRoomTrace)
                         eq_refl alice "r1" 9%Z))).
Defined.

(** X8.  Only [leaveRoom] ever removes a room.  Along any run without
    [leaveRoom] events the rooms of [chatRooms] only accumulate: every room
    that existed at the start and every room named in a [joinRoom] event
    still has an entry at the end, whether or not it has members left. *)
Theorem only_leaveRoom_removes_rooms :
  forall (trace : list Event) (c c' : Coordinator) (out : list Emit),
    run trace c = Some (c', out) ->
    forallb (fun ev => negb (isLeaveRoom ev)) trace = true ->
    (forall r, JsMap.has r (chatRooms c) = true -> JsMap.has r (chatRooms c') = true)
    /\ (forall socket room query now,
          In (JoinRoom socket (Some room) query now) trace ->
          JsMap.has room (chatRooms c') = true).
Proof.
  induction trace as [|ev trace IH]; intros c c' out Hrun Hno.
  - simpl in Hrun. injection Hrun as <- _. split; [tauto|]. intros ? ? ? ? [].
  - simpl in Hrun, Hno. apply andb_prop in Hno as [Hev Hno].
    destruct (listen (dispatch ev) c) as [[c1 out1]|] eqn:Hstep; [|discriminate].
    destruct (run trace c1) as [[c2 out2]|] eqn:Hrest; [|discriminate].
    injection Hrun as <- _.
    destruct (IH c1 c2 out2 Hrest Hno) as [Hkeep Hjoined].
    pose proof (dispatch_chatRooms ev c c1 out1 Hstep) as Hrooms.
    assert (Hstep_keep : forall r, JsMap.has r (chatRooms c) = true ->
                                   JsMap.has r (chatRooms c1) = true).
    { intros r Hr. rewrite Hrooms.
      destruct ev as [|? [?|]| | | | | |]; try exact Hr; try discriminate.
      - rewrite has_joined, Hr. reflexivity.
      - rewrite leaveAllRooms_fst. unfold JsMap.has in *.
        rewrite get_leaveIfMember. now destruct (JsMap.get r (chatRooms c)). }
    split.
    + intros r Hr. apply Hkeep. now apply Hstep_keep.
    + intros socket room query now [->|Hin]; [|now apply (Hjoined socket room query now)].
      apply Hkeep. rewrite Hrooms, has_joined, String.eqb_refl. apply orb_true_r.
Qed.

Lemma only_leaveRoom_removes_rooms_witness :
  JsMap.has "r1" (chatRooms (stateOf (disconnect alice 9 aliceInRoom))) = true.
Proof.
  apply (proj1 (only_leaveRoom_removes_rooms
                  [Disconnect alice 9] aliceInRoom
                  (stateOf (disconnect alice 9 aliceInRoom))
                  (outputOf (disconnect alice 9 aliceInRoom))
                  eq_refl eq_refl) "r1").
  reflexivity.
Defined.

(** ** Presence *)

Section AbsentKeys.

Context {K V : Type} `{Key K}.

Lemma set_absent (k : K) (v : V) (m : list (K * V)) :
  JsMap.get k m = None -> JsMap.set k v m = m ++ [(k, v)].
Proof.
  induction m as [|[k' v'] m IH]; simpl; [reflexivity|].
  destruct (same k' k); [discriminate|]. intro Hg. now rewrite IH.
Qed.

Lemma delete_absent (k : K) (m : list (K * V)) :
  JsMap.get k m = None -> JsMap.delete k m = m.
Proof.
  induction m as [|[k' v'] m IH]; simpl; [reflexivity|].
  destruct (same k' k); [discriminate|]. intro Hg. now rewrite IH.
Qed.

Lemma delete_appended (k : K) (v : V) (m : list (K * V)) :
  JsMap.get k m = None -> JsMap.delete k (m ++ [(k, v)]) = m.
Proof.
  induction m as [|[k' v'] m IH]; simpl.
  - now rewrite same_refl.
  - destruct (same k' k); [discriminate|]. intro Hg. now rewrite IH.
Qed.

Lemma get_delete_Some (k k' : K) (v : V) (m : list (K * V)) :
  NoDup (map fst m) ->
  JsMap.get k (JsMap.delete k' m) = Some v -> JsMap.get k m = Some v /\ k <> k'.
Proof.
  intros Hnd Hg.
  assert (Hne : k <> k').
  { intros ->. rewrite get_delete_same in Hg by exact Hnd. discriminate. }
  split; [|exact Hne]. rewrite get_delete_other in Hg by congruence. exact Hg.
Qed.

End AbsentKeys.

Lemma leaveAllRooms_stranger (socket : Socket) (now : Z) (rooms : list (string * list Ident)) :
  roomsHolding (userId socket) rooms = [] ->
  leaveAllRooms socket now rooms = (rooms, []).
Proof.
  unfold roomsHolding. intro H. apply map_eq_nil in H.
  induction rooms as [|[r m] rooms IH]; [reflexivity|].
  cbn [filter snd] in H. cbn [leaveAllRooms].
  destruct (JsSet.has (userId socket) m); [discriminate|].
  now rewrite (IH H).
Qed.

(** X9.  A participant that was unknown to the coordinator (not
    registered, in no room, not typing) and connects and disconnects again
    leaves the whole coordinator exactly as it was; the first presence
    broadcast lists the newcomer last, the second is the original list. *)
Theorem connect_then_disconnect_restores_state :
  forall (socket : Socket) (t1 t2 : Z) (c : Coordinator),
    JsMap.has (userId socket) (activeUsers c) = false ->
    roomsHolding (userId socket) (chatRooms c) = [] ->
    JsMap.has (userId socket) (typingUsers c) = false ->
    run [Connection socket t1; Disconnect socket t2] c
    = Some (c,
            [(ToAll,
              ActiveUsersEv
                (JsMap.values (activeUsers c)
                 ++ [{| au_id := userId socket;
                        au_socketId := socket_id socket;
                        au_username := username (user socket);
                        au_profilePicture := profilePicture (user socket);
                        au_lastSeen := t1;
                        au_status := "online" |}]));
             (ToAll, ActiveUsersEv (JsMap.values (activeUsers c)))]).
Proof.
  intros socket t1 t2 c Ha Hr Ht.
  unfold JsMap.has in Ha, Ht.
  destruct (JsMap.get (userId socket) (activeUsers c)) eqn:Ga; [discriminate|].
  destruct (JsMap.get (userId socket) (typingUsers c)) eqn:Gt; [discriminate|].
  cbn [run dispatch]. unfold listen.
  rewrite connection_eq, disconnect_eq.
  unfold disconnected, with_typingUsers, with_chatRooms, with_activeUsers.
  cbn [activeUsers chatRooms typingUsers messageTimestamps messageStore].
  rewrite (set_absent _ _ _ Ga), (delete_appended _ _ _ Ga), (delete_absent _ _ Gt).
  rewrite (leaveAllRooms_stranger socket t2 (chatRooms c) Hr).
  cbn [fst snd app]. unfold JsMap.values. rewrite map_app. cbn [map snd].
  destruct c; reflexivity.
Qed.

Lemma connect_then_disconnect_restores_state_witness :
  exists out, run [Connection dave 7; Disconnect dave 8] twoInRoom = Some (twoInRoom, out).
Proof.
  eexists.
  apply (connect_then_disconnect_restores_state dave 7%Z 8%Z twoInRoom);
    reflexivity.
Defined.

Lemma dispatch_activeUsers (ev : Event) (c c' : Coordinator) (out : list Emit) :
  listen (dispatch ev) c = Some (c', out) ->
  activeUsers c'
  = match ev with
    | Connection socket now =>
        JsMap.set (userId socket)
          {| au_id := userId socket;
             au_socketId := socket_id socket;
             au_username := username (user socket);
             au_profilePicture := profilePicture (user socket);
             au_lastSeen := now;
             au_status := "online" |} (activeUsers c)
    | Disconnect socket _ => JsMap.delete (userId socket) (activeUsers c)
    | _ => activeUsers c
    end.
Proof.
  destruct ev as [s now|s [room|] query now|s roomId now|s [[room isTyping]|]
                 |s [room|]|s room content timestamp save|s now|s sockets data now];
    cbn [dispatch]; try absent_payload;
    [unfold listen ..|rewrite groupMessage_listen|unfold listen|].
  - rewrite connection_eq. intro H. injection H as <- _. reflexivity.
  - rewrite joinRoom_eq. intro H. injection H as <- _. reflexivity.
  - rewrite leaveRoom_eq. intro H. injection H as <- _. reflexivity.
  - rewrite typing_eq. destruct room as [r|].
    + destruct (truthy (Some r) && JsMap.has r (chatRooms c)).
      * cbv zeta. destruct (traverse _ _); [|discriminate].
        intro H. injection H as <- _. destruct isTyping; reflexivity.
      * intro H. injection H as <- _. reflexivity.
    + intro H. injection H as <- _. reflexivity.
  - rewrite stopTyping_eq. destruct room as [r|].
    + destruct (JsMap.has (GuestId r) (typingUsers c));
        intro H; injection H as <- _; reflexivity.
    + intro H. injection H as <- _. reflexivity.
  - intro H. injection H as <- _.
    apply (groupMessage_frame s room content timestamp save c).
  - rewrite disconnect_eq. intro H. injection H as <- _. reflexivity.
  - intro H. now apply onPrivateMessage_listen in H as [-> _].
Qed.

Lemma run_presence (trace : list Event) :
  forall c c' out,
    consistent c -> run trace c = Some (c', out) ->
    forall uid u,
      JsMap.get uid (activeUsers c') = Some u ->
      JsMap.get uid (activeUsers c) = Some u
      \/ exists socket now,
           In (Connection socket now) trace /\ userId socket = uid
           /\ u = {| au_id := userId socket;
                     au_socketId := socket_id socket;
                     au_username := username (user socket);
                     au_profilePicture := profilePicture (user socket);
                     au_lastSeen := now;
                     au_status := "online" |}.
Proof.
  induction trace as [|ev trace IH]; intros c c' out Hc Hrun uid u Hu; simpl in Hrun.
  - injection Hrun as <- _. now left.
  - destruct (listen (dispatch ev) c) as [[c1 out1]|] eqn:Hstep; [|discriminate].
    destruct (run trace c1) as [[c2 out2]|] eqn:Hrest; [|discriminate].
    injection Hrun as <- _.
    pose proof (dispatch_consistent ev c c1 out1 Hc Hstep) as Hc1.
    destruct (IH c1 c2 out2 Hc1 Hrest uid u Hu) as [H1|(s & now & Hin & Hs & Hrec)].
    2:{ right. exists s, now. split; [now right | now split]. }
    rewrite (dispatch_activeUsers ev c c1 out1 Hstep) in H1.
    destruct ev as [s now| | | | | |s now|]; try (now left).
    + destruct (same (userId s) uid) eqn:E.
      * apply same_true_eq in E. subst uid. rewrite get_set_same in H1.
        injection H1 as <-. right. exists s, now. split; [now left | now split].
      * rewrite get_set_other in H1; [now left|].
        intro Heq. rewrite Heq, same_refl in E. discriminate.
    + destruct Hc as (_ & Ha & _).
      left. now apply (get_delete_Some uid (userId s) u (activeUsers c) Ha).
Qed.

(** X10.  Each entry of the presence registry is the record written by a
    [connection] event of its key: its [id] is the key, its socket id,
    name and [lastSeen] are those of that connection, and its [status] is
    always ["online"].  The registry holds one entry per key, a key being
    a guest id string or the [ObjectId] object of one connection.  The
    ids that clients read in the broadcast list are therefore pairwise
    different as long as no two connections of the run carry the same id
    value in different [ObjectId] objects -- which is what two
    connections of one registered user do. *)
Theorem presence_entries_come_from_connections :
  forall (trace : list Event) (c : Coordinator) (out : list Emit),
    run trace emptyCoordinator = Some (c, out) ->
    NoDup (map au_id (JsMap.values (activeUsers c)))
    /\ (forall uid u,
          JsMap.get uid (activeUsers c) = Some u ->
          au_id u = uid /\ au_status u = "online"
          /\ exists socket now,
               In (Connection socket now) trace /\ userId socket = uid
               /\ au_socketId u = socket_id socket
               /\ au_username u = username (user socket)
               /\ au_lastSeen u = now)
    /\ ((forall socket now socket' now',
           In (Connection socket now) trace -> In (Connection socket' now') trace ->
           idValue (userId socket) = idValue (userId socket') ->
           userId socket = userId socket') ->
        NoDup (map (fun u => idValue (au_id u)) (JsMap.values (activeUsers c)))).
Proof.
  intros trace c out Hrun.
  assert (Hc0 : consistent emptyCoordinator)
    by (split; [exact tidy_empty|]; split; constructor).
  assert (Hentry : forall uid u,
            JsMap.get uid (activeUsers c) = Some u ->
            au_id u = uid /\ au_status u = "online"
            /\ exists socket now,
                 In (Connection socket now) trace /\ userId socket = uid
                 /\ au_socketId u = socket_id socket
                 /\ au_username u = username (user socket)
                 /\ au_lastSeen u = now).
  { intros uid u Hu.
    destruct (run_presence trace emptyCoordinator c out Hc0 Hrun uid u Hu)
      as [H|(s & now & Hin & Hs & ->)]; [discriminate|].
    cbn [au_id au_status au_socketId au_username au_lastSeen].
    split; [exact Hs|]. split; [reflexivity|]. exists s, now. now repeat split. }
  destruct (reachable_consistent trace c out Hrun) as (_ & Ha & _).
  assert (Hids : map au_id (JsMap.values (activeUsers c)) = map fst (activeUsers c)).
  { unfold JsMap.values. rewrite map_map. apply map_ext_in. intros [k u] Hin.
    cbn [fst snd]. apply (In_get k u _ Ha) in Hin. now apply Hentry in Hin. }
  split; [now rewrite Hids|]. split; [exact Hentry|].
  intro Hinj. rewrite <- (map_map au_id idValue), Hids.
  apply NoDup_map_NoDup_ForallPairs; [|exact Ha].
  intros k k' Hk Hk' Heq.
  apply in_map_iff in Hk as [[k0 u] [Hf Hk]]. cbn [fst] in Hf. subst k0.
  apply in_map_iff in Hk' as [[k0 u'] [Hf Hk']]. cbn [fst] in Hf. subst k0.
  apply (In_get k u _ Ha) in Hk. apply (In_get k' u' _ Ha) in Hk'.
  destruct (Hentry k u Hk) as (_ & _ & s & now & Hin & <- & _).
  destruct (Hentry k' u' Hk') as (_ & _ & s' & now' & Hin' & <- & _).
  exact (Hinj s now s' now' Hin Hin' Heq).
Qed.

Lemma presence_entries_come_from_connections_witness :
  NoDup (map (fun u => idValue (au_id u)) (JsMap.values (activeUsers twoInRoom))).
Proof.
  apply (proj2 (proj2 (presence_entries_come_from_connections
                         twoInRoomTrace twoInRoom (finalOutput twoInRoomTrace)
                         eq_refl))).
  intros socket now socket' now' Hin Hin' Heq.
  destruct Hin as [Hin|[Hin|[Hin|[Hin|[]]]]]; try discriminate Hin;
    destruct Hin' as [Hin'|[Hin'|[Hin'|[Hin'|[]]]]]; try discriminate Hin';
    injection Hin as <- _; injection Hin' as <- _;
    first [reflexivity | discriminate Heq].
Defined.

(** Carol connected twice: the presence list shows her id twice. *)
Lemma presence_list_repeats_a_user_connected_twice :
  map (fun u => idValue (au_id u)) (JsMap.values (activeUsers twoTabs))
  = [carolHex; carolHex].
Proof. reflexivity. Qed.

(** ** Typing marks *)

Lemma marksFor_In (room : string) (marks : list (Ident * string)) (u : Ident) :
  NoDup (map fst marks) ->
  (In u (map fst (marksFor room marks)) <-> JsMap.get u marks = Some room).
Proof.
  intro Hnd. unfold marksFor. split.
  - intro Hin. apply in_map_iff in Hin as [[k r] [Hk Hin]]. cbn [fst] in Hk. subst k.
    apply filter_In in Hin as [Hin Hr]. cbn [snd] in Hr.
    apply String.eqb_eq in Hr. subst r. now apply In_get.
  - intro Hg. apply get_In in Hg. apply in_map_iff. exists (u, room).
    split; [reflexivity|]. apply filter_In. split; [exact Hg|].
    cbn [snd]. apply String.eqb_refl.
Qed.

Lemma traverse_typingEntry_None users marks :
  traverse (typingEntry users) marks = None
  <-> exists u, In u (map fst marks) /\ JsMap.has u users = false.
Proof.
  unfold JsMap.has. induction marks as [|e marks IH]; simpl.
  - split; [discriminate | intros (u & [] & _)].
  - unfold typingEntry at 1.
    destruct (JsMap.get (fst e) users) as [a|] eqn:G.
    + destruct (traverse (typingEntry users) marks) as [rest|].
      * split; [discriminate|]. intros (u & [<-|Hin] & Hu).
        -- rewrite G in Hu. discriminate.
        -- assert (H : Some rest = None) by (apply (proj2 IH); now exists u).
           discriminate.
      * split; [|reflexivity]. intros _.
        destruct (proj1 IH eq_refl) as (u & Hin & Hu). exists u. split; [now right|exact Hu].
    + split; [|reflexivity]. intros _. exists (fst e). split; [now left|].
      now rewrite G.
Qed.

Lemma dispatch_typingUsers (ev : Event) (c c' : Coordinator) (out : list Emit) :
  listen (dispatch ev) c = Some (c', out) ->
  typingUsers c'
  = match ev with
    | Typing socket (Some (Some r, isTyping)) =>
        if truthy (Some r) && JsMap.has r (chatRooms c) then
          if isTyping then JsMap.set (userId socket) r (typingUsers c)
          else JsMap.delete (userId socket) (typingUsers c)
        else typingUsers c
    | StopTyping socket (Some (Some r)) =>
        if JsMap.has (GuestId r) (typingUsers c)
        then JsMap.delete (userId socket) (typingUsers c)
        else typingUsers c
    | Disconnect socket _ => JsMap.delete (userId socket) (typingUsers c)
    | _ => typingUsers c
    end.
Proof.
  destruct ev as [s now|s [room|] query now|s roomId now|s [[room isTyping]|]
                 |s [room|]|s room content timestamp save|s now|s sockets data now];
    cbn [dispatch]; try absent_payload;
    [unfold listen ..|rewrite groupMessage_listen|unfold listen|].
  - rewrite connection_eq. intro H. injection H as <- _. reflexivity.
  - rewrite joinRoom_eq. intro H. injection H as <- _. reflexivity.
  - rewrite leaveRoom_eq. intro H. injection H as <- _. reflexivity.
  - rewrite typing_eq. destruct room as [r|].
    + destruct (truthy (Some r) && JsMap.has r (chatRooms c)).
      * cbv zeta. destruct (traverse _ _); [|discriminate].
        intro H. injection H as <- _. destruct isTyping; reflexivity.
      * intro H. injection H as <- _. reflexivity.
    + intro H. injection H as <- _. reflexivity.
  - rewrite stopTyping_eq. destruct room as [r|].
    + destruct (JsMap.has (GuestId r) (typingUsers c));
        intro H; injection H as <- _; reflexivity.
    + intro H. injection H as <- _. reflexivity.
  - intro H. injection H as <- _.
    apply (groupMessage_frame s room content timestamp save c).
  - rewrite disconnect_eq. intro H. injection H as <- _. reflexivity.
  - intro H. now apply onPrivateMessage_listen in H as [-> _].
Qed.

(** X11.  In a reachable state a [typing] event for an existing room
    that is handled to the end leaves the sender with exactly the mark it
    announced (the new room replaces any earlier mark, [isTyping = false]
    removes it), changes nobody else's mark, keeps at most one mark per
    participant, and broadcasts to that room one [typingStatus] listing,
    without repetition, exactly the participants now marked for the room.
    Membership of the room is not required. *)
Theorem typing_replaces_the_senders_mark :
  forall (trace : list Event) (c : Coordinator) (out0 : list Emit),
    run trace emptyCoordinator = Some (c, out0) ->
    forall (socket : Socket) (r : string) (isTyping : bool)
           (c' : Coordinator) (out : list Emit),
      truthy (Some r) = true ->
      JsMap.has r (chatRooms c) = true ->
      listen (typing socket (Some (Some r, isTyping))) c = Some (c', out) ->
      JsMap.get (userId socket) (typingUsers c') = (if isTyping then Some r else None)
      /\ (forall u, u <> userId socket ->
            JsMap.get u (typingUsers c') = JsMap.get u (typingUsers c))
      /\ NoDup (map fst (typingUsers c'))
      /\ exists typingData,
           out = [(ToRoom r, TypingStatusEv typingData)]
           /\ NoDup (map fst typingData)
           /\ (forall u, In u (map fst typingData)
                         <-> JsMap.get u (typingUsers c') = Some r).
Proof.
  intros trace c out0 Hrun socket r isTyping c' out Ht Hr Hstep.
  destruct (reachable_consistent trace c out0 Hrun) as (_ & _ & Hm).
  unfold listen in Hstep. rewrite typing_eq, Ht, Hr in Hstep. cbn [andb] in Hstep.
  cbv zeta in Hstep.
  set (c1 := if isTyping
             then with_typingUsers (JsMap.set (userId socket) r) c
             else with_typingUsers (JsMap.delete (userId socket)) c) in *.
  destruct (traverse (typingEntry (activeUsers c1)) (marksFor r (typingUsers c1)))
    as [typingData|] eqn:Hdata; [|discriminate].
  injection Hstep as <- <-.
  assert (Hm1 : NoDup (map fst (typingUsers c1))).
  { unfold c1. destruct isTyping; cbn [typingUsers with_typingUsers];
      [now apply NoDup_keys_set | now apply NoDup_keys_delete]. }
  split; [|split; [|split; [exact Hm1|]]].
  - unfold c1. destruct isTyping; cbn [typingUsers with_typingUsers];
      [apply get_set_same | now apply get_delete_same].
  - intros u Hu. unfold c1. destruct isTyping; cbn [typingUsers with_typingUsers];
      [apply get_set_other | apply get_delete_other]; congruence.
  - exists typingData. split; [reflexivity|].
    rewrite (traverse_typingEntry_ids _ _ _ Hdata). split.
    + unfold marksFor. now apply NoDup_keys_filter.
    + intro u. now apply marksFor_In.
Qed.

Lemma typing_replaces_the_senders_mark_witness :
  JsMap.get (userId alice) (typingUsers aliceTyping) = Some "r1".
Proof.
  exact (proj1 (typing_replaces_the_senders_mark
                  twoInRoomTrace twoInRoom (finalOutput twoInRoomTrace) eq_refl
                  alice "r1" true aliceTyping
                  (outputOf (typing alice (Some (Some "r1", true)) twoInRoom))
                  eq_refl eq_refl eq_refl)).
Defined.


(** X12.  The [typing] listener has no [try]/[catch].  An event that
    comes without a payload makes it raise at once: the payload cannot be
    destructured.  An event whose payload names no room, an empty room or
    an unknown room is ignored: nothing changes and nothing is emitted.
    For an existing room the listener lets a [TypeError] escape exactly
    when, after the sender's mark has been updated, some participant
    marked as typing in that room has no entry in [activeUsers]. *)
Theorem typing_throws_without_payload_or_presence :
  forall (socket : Socket) (data : option (option string * bool)) (c : Coordinator),
    (forall room isTyping,
       data = Some (room, isTyping) ->
       match room with
       | Some r => truthy room && JsMap.has r (chatRooms c)
       | None => false
       end = false ->
       listen (typing socket data) c = Some (c, []))
    /\ (listen (typing socket data) c = None
        <-> data = None
            \/ exists r isTyping,
                 data = Some (Some r, isTyping)
                 /\ truthy (Some r) = true /\ JsMap.has r (chatRooms c) = true
                 /\ exists u,
                      In u (map fst
                              (marksFor r
                                 (if isTyping
                                  then JsMap.set (userId socket) r (typingUsers c)
                                  else JsMap.delete (userId socket) (typingUsers c))))
                      /\ JsMap.has u (activeUsers c) = false).
Proof.
  intros socket [[room isTyping]|] c.
  2:{ split; [intros room isTyping H; discriminate H|].
      split; [now left | reflexivity]. }
  unfold listen. rewrite typing_eq.
  destruct room as [r|].
  2:{ split; [reflexivity|]. split; [discriminate|].
      intros [H|(r & b & H & _)]; discriminate. }
  destruct (truthy (Some r)) eqn:Ht; cbn [andb].
  2:{ split; [reflexivity|]. split; [discriminate|].
      intros [H|(r' & b & H & H' & _)]; [discriminate|].
      injection H as <- <-. congruence. }
  destruct (JsMap.has r (chatRooms c)) eqn:Hr.
  2:{ split; [reflexivity|]. split; [discriminate|].
      intros [H|(r' & b & H & _ & H' & _)]; [discriminate|].
      injection H as <- <-. congruence. }
  split.
  { intros room b H. injection H as <- <-. cbn [andb]. rewrite Ht, Hr. discriminate. }
  cbv zeta.
  set (marks := if isTyping
                then JsMap.set (userId socket) r (typingUsers c)
                else JsMap.delete (userId socket) (typingUsers c)).
  assert (Hc1 : forall c1 : Coordinator,
            c1 = (if isTyping
                  then with_typingUsers (JsMap.set (userId socket) r) c
                  else with_typingUsers (JsMap.delete (userId socket)) c) ->
            activeUsers c1 = activeUsers c /\ typingUsers c1 = marks).
  { intros c1 ->. unfold marks. destruct isTyping; now split. }
  destruct (Hc1 _ eq_refl) as [Ha Hmk]. rewrite Ha, Hmk.
  pose proof (traverse_typingEntry_None (activeUsers c) (marksFor r marks)) as Hnone.
  destruct (traverse (typingEntry (activeUsers c)) (marksFor r marks)) as [data|].
  - split; [discriminate|]. intros [H|(r' & b & H & _ & _ & u & Hin & Hu)];
      [discriminate|].
    injection H as <- <-.
    assert (Hn : Some data = None) by (apply (proj2 Hnone); now exists u).
    discriminate.
  - split; [|reflexivity]. intros _. right.
    destruct (proj1 Hnone eq_refl) as (u & Hin & Hu).
    exists r, isTyping. do 3 (split; [first [reflexivity | assumption]|]).
    now exists u.
Qed.

Lemma typing_throws_without_payload_or_presence_witness :
  listen (typing dave None) twoInRoom = None
  /\ listen (typing dave (Some (Some "r1", true))) twoInRoom = None.
Proof.
  split.
  - apply (proj2 (typing_throws_without_payload_or_presence dave None twoInRoom)).
    now left.
  - apply (proj2 (typing_throws_without_payload_or_presence
                    dave (Some (Some "r1", true)) twoInRoom)).
    right. exists "r1", true.
    split; [reflexivity|]. split; [reflexivity|]. split; [reflexivity|].
    exists (userId dave). split; [vm_compute; now left | reflexivity].
Defined.

Lemma run_marks (trace : list Event) :
  forall c c' out,
    consistent c -> run trace c = Some (c', out) ->
    forall uid r,
      JsMap.get uid (typingUsers c') = Some r ->
      JsMap.get uid (typingUsers c) = Some r
      \/ exists socket, In (Typing socket (Some (Some r, true))) trace /\ userId socket = uid.
Proof.
  induction trace as [|ev trace IH]; intros c c' out Hc Hrun uid r Hu; simpl in Hrun.
  - injection Hrun as <- _. now left.
  - destruct (listen (dispatch ev) c) as [[c1 out1]|] eqn:Hstep; [|discriminate].
    destruct (run trace c1) as [[c2 out2]|] eqn:Hrest; [|discriminate].
    injection Hrun as <- _.
    pose proof (dispatch_consistent ev c c1 out1 Hc Hstep) as Hc1.
    destruct (IH c1 c2 out2 Hc1 Hrest uid r Hu) as [H1|(s & Hin & Hs)].
    2:{ right. exists s. split; [now right | exact Hs]. }
    rewrite (dispatch_typingUsers ev c c1 out1 Hstep) in H1.
    destruct Hc as (_ & _ & Hm).
    destruct ev as [|  | |s [[[room|] isTyping]|]|s [[room|]|]| |s now|];
      try (now left).
    + destruct (truthy (Some room) && JsMap.has room (chatRooms c)); [|now left].
      destruct isTyping.
      * destruct (same (userId s) uid) eqn:E.
        -- apply same_true_eq in E. subst uid. rewrite get_set_same in H1.
           injection H1 as ->. right. exists s. split; [now left | reflexivity].
        -- rewrite get_set_other in H1; [now left|].
           intro Heq. rewrite Heq, same_refl in E. discriminate.
      * left. now apply (get_delete_Some uid (userId s) r (typingUsers c) Hm).
    + destruct (JsMap.has (GuestId room) (typingUsers c)); [|now left].
      left. now apply (get_delete_Some uid (userId s) r (typingUsers c) Hm).
    + left. now apply (get_delete_Some uid (userId s) r (typingUsers c) Hm).
Qed.

(** X13.  Every typing mark was set by a [typing] event of that very
    participant for that very room.  [stopTyping] does not look at the
    sender's mark: it tests whether the *room name* is a key of
    [typingUsers], that is, the id of a guest marked as typing.  If it
    is, the sender's mark is removed and [userStoppedTyping] is broadcast
    to the room; when no guest with that id ever announced typing, the
    event is ignored and the sender's mark stays. *)
Theorem stopTyping_tests_the_room_name_as_a_user_id :
  forall (trace : list Event) (c : Coordinator) (out0 : list Emit),
    run trace emptyCoordinator = Some (c, out0) ->
    (forall uid r, JsMap.get uid (typingUsers c) = Some r ->
       exists socket, In (Typing socket (Some (Some r, true))) trace /\ userId socket = uid)
    /\ (forall socket room,
          (forall s r, In (Typing s (Some (Some r, true))) trace ->
                       userId s <> GuestId room) ->
          stopTyping socket (Some (Some room)) c = (Normal tt, c, []))
    /\ (forall socket room,
          JsMap.has (GuestId room) (typingUsers c) = true ->
          stopTyping socket (Some (Some room)) c
          = (Normal tt, with_typingUsers (JsMap.delete (userId socket)) c,
             [(ToRoom room, UserStoppedTypingEv (userId socket))])
          /\ JsMap.get (userId socket)
               (typingUsers (stateOf (stopTyping socket (Some (Some room)) c))) = None).
Proof.
  intros trace c out0 Hrun.
  assert (Hc0 : consistent emptyCoordinator)
    by (split; [exact tidy_empty|]; split; constructor).
  assert (Hprov : forall uid r, JsMap.get uid (typingUsers c) = Some r ->
            exists socket, In (Typing socket (Some (Some r, true))) trace /\ userId socket = uid).
  { intros uid r Hu.
    destruct (run_marks trace emptyCoordinator c out0 Hc0 Hrun uid r Hu) as [H|H];
      [discriminate | exact H]. }
  split; [exact Hprov|]. split.
  - intros socket room Hnone. rewrite stopTyping_eq. unfold JsMap.has.
    destruct (JsMap.get (GuestId room) (typingUsers c)) as [r|] eqn:G; [|reflexivity].
    exfalso. destruct (Hprov _ _ G) as (s & Hin & Hs). exact (Hnone s r Hin Hs).
  - intros socket room Hhas. rewrite stopTyping_eq, Hhas. split; [reflexivity|].
    unfold stateOf. cbn [fst snd typingUsers with_typingUsers].
    destruct (reachable_consistent trace c out0 Hrun) as (_ & _ & Hm).
    now apply get_delete_same.
Qed.

Lemma stopTyping_tests_the_room_name_as_a_user_id_witness :
  stopTyping alice (Some (Some "r1")) aliceTyping = (Normal tt, aliceTyping, []).
Proof.
  apply (proj1 (proj2 (stopTyping_tests_the_room_name_as_a_user_id
                         aliceTypingTrace aliceTyping (finalOutput aliceTypingTrace)
                         eq_refl)) alice "r1").
  intros s r Hin. vm_compute in Hin.
  repeat (destruct Hin as [Hin|Hin]; [try discriminate|]); [|destruct Hin].
  injection Hin as <- _. discriminate.
Defined.

(** ** Rate history and message store along a run *)

Lemma groupBroadcasts_none (out : list Emit) :
  (forall e, In e out -> isGroupMessage e = false) -> groupBroadcasts out = [].
Proof.
  unfold groupBroadcasts, isGroupMessage. induction out as [|e out IH]; intro H;
    [reflexivity|].
  cbn [flat_map]. rewrite IH by (intros e' He'; apply H; now right).
  specialize (H e (or_introl eq_refl)). now destruct (snd e).
Qed.

Lemma leaveAllRooms_only_userLeft socket now rooms e :
  In e (snd (leaveAllRooms socket now rooms)) -> isUserLeft e = true.
Proof.
  rewrite leaveAllRooms_snd. intro Hin.
  apply in_map_iff in Hin as [entry [<- _]]. reflexivity.
Qed.

Lemma joinOutput_no_groupMessage socket room query now c1 e :
  In e (joinOutput socket room query now c1) -> isGroupMessage e = false.
Proof.
  unfold joinOutput. destruct query; [|intros [<-|[]]; reflexivity].
  destruct (JsMap.get room (chatRooms c1)) as [members|];
    [|intros [<-|[]]; reflexivity].
  destruct (traverse (describe true (activeUsers c1)) members);
    [|intros [<-|[]]; reflexivity].
  destruct (traverse (describe false (activeUsers c1)) members);
    intros [<-|[<-|[<-|[]]]]; reflexivity.
Qed.

(** What one event does to the rate history, to the message store and to
    the [groupMessage] broadcasts. *)
Lemma dispatch_messages (ev : Event) (c c' : Coordinator) (out : list Emit) :
  listen (dispatch ev) c = Some (c', out) ->
  (messageTimestamps c' = messageTimestamps c
   \/ exists socket timestamp,
        List.length (recentMessages timestamp (userTimestampsOf socket c)) < 5
        /\ messageTimestamps c'
           = JsMap.set (userId socket) (userTimestampsOf socket c ++ [timestamp])
               (messageTimestamps c))
  /\ ((messageStore c' = messageStore c /\ groupBroadcasts out = [])
      \/ exists socket room content timestamp senderType id createdAt,
           ev = GroupMessage socket (Some room) (Some content) timestamp
                  (Saved id createdAt)
           /\ truthy (Some room) = true /\ truthy (Some content) = true
           /\ memberOf (userId socket) room c = true
           /\ (senderType = "guest" \/ senderType = "user")
           /\ messageStore c'
              = messageStore c
                ++ [storedMessage socket room content senderType id createdAt]
           /\ groupBroadcasts out
              = [{| md_id := id; md_content := content; md_createdAt := createdAt;
                    md_sender := {| _id := userId socket;
                                    username := username (user socket);
                                    profilePicture := profilePicture (user socket) |} |}]).
Proof.
  destruct ev as [s now|s [room|] query now|s roomId now|s [[room isTyping]|]
                 |s [room|]|s room content timestamp save|s now|s sockets data now];
    cbn [dispatch]; try absent_payload;
    [unfold listen ..|rewrite groupMessage_listen|unfold listen|].
  - rewrite connection_eq. intro H. injection H as <- <-.
    split; [now left | left; now split].
  - rewrite joinRoom_eq. intro H. injection H as <- <-.
    split; [now left|]. left. split; [reflexivity|].
    apply groupBroadcasts_none. intros e He. apply in_app_or in He as [He|He].
    + apply leavePreviousRooms_only_userLeft in He.
      unfold isUserLeft in He. unfold isGroupMessage. now destruct (snd e).
    + now apply joinOutput_no_groupMessage in He.
  - rewrite leaveRoom_eq. intro H. injection H as <- <-.
    split; [now left | left; now split].
  - rewrite typing_eq. destruct room as [r|].
    + destruct (truthy (Some r) && JsMap.has r (chatRooms c)).
      * cbv zeta. destruct (traverse _ _); [|discriminate].
        intro H. injection H as <- <-.
        destruct isTyping; (split; [now left | left; now split]).
      * intro H. injection H as <- <-. split; [now left | left; now split].
    + intro H. injection H as <- <-. split; [now left | left; now split].
  - rewrite stopTyping_eq. destruct room as [r|].
    + destruct (JsMap.has (GuestId r) (typingUsers c));
        intro H; injection H as <- <-; (split; [now left | left; now split]).
    + intro H. injection H as <- <-. split; [now left | left; now split].
  - intro H. injection H as <- <-.
    destruct (groupMessage_cases s room content timestamp c)
      as [[rf Hrf] | (name & text & members & -> & -> & Hr & Hc & Hg & Hm & Hn)].
    + rewrite (refused_sound s _ _ _ save _ _ Hrf).
      split; [now left | left; now split].
    + rewrite (groupMessage_passed s _ _ _ save _ _ Hr Hc Hg Hm Hn).
      unfold stateOf, outputOf.
      destruct (_id (user s)) as [g|h n]; [destruct save as [id createdAt|why]|];
        cbn [fst snd messageTimestamps messageStore with_messageStore
               with_messageTimestamps];
        (split; [right; exists s, timestamp; now split|]);
        try (left; now split).
      right. exists s, name, text, timestamp,
               (if startsWith "guest-" g then "guest" else "user"), id, createdAt.
      split; [reflexivity|]. split; [exact Hr|]. split; [exact Hc|].
      split; [unfold memberOf; now rewrite Hg|].
      split; [destruct (startsWith "guest-" g); [now left | now right]|].
      now split.
  - rewrite disconnect_eq. intro H. injection H as <- <-.
    split; [now left|]. left. split; [reflexivity|].
    apply groupBroadcasts_none. intros e [<-|He]; [reflexivity|].
    apply leaveAllRooms_only_userLeft in He.
    unfold isUserLeft in He. unfold isGroupMessage. now destruct (snd e).
  - intro H. apply onPrivateMessage_listen in H as [-> Hout].
    split; [now left|]. left. split; [reflexivity|].
    destruct Hout as [->|(recipient & object & ->)]; reflexivity.
Qed.

Lemma pacedFrom_snoc (later : list Z) :
  forall earlier t,
    pacedFrom earlier (later ++ [t])
    = pacedFrom earlier later
      && (List.length (recentMessages t (earlier ++ later)) <? 5)%nat.
Proof.
  induction later as [|a later IH]; intros earlier t; simpl.
  - now rewrite app_nil_r, andb_true_r.
  - rewrite IH, <- app_assoc. simpl. now rewrite andb_assoc.
Qed.

Lemma pacedFrom_point (p : list Z) :
  forall earlier b s,
    pacedFrom earlier (p ++ b :: s) = true ->
    List.length (recentMessages b (earlier ++ p)) < 5.
Proof.
  induction p as [|a p IH]; intros earlier b s H; simpl in H.
  - apply andb_prop in H as [H _]. rewrite app_nil_r. now apply Nat.ltb_lt.
  - apply andb_prop in H as [_ H]. apply IH in H.
    now rewrite <- app_assoc in H.
Qed.

Lemma run_rate_history (trace : list Event) :
  forall c c' out,
    run trace c = Some (c', out) ->
    (forall uid ts, JsMap.get uid (messageTimestamps c) = Some ts -> paced ts = true) ->
    (forall uid ts, JsMap.get uid (messageTimestamps c') = Some ts -> paced ts = true)
    /\ (forall uid ts, JsMap.get uid (messageTimestamps c) = Some ts ->
          exists more, JsMap.get uid (messageTimestamps c') = Some (ts ++ more)).
Proof.
  induction trace as [|ev trace IH]; intros c c' out Hrun Hp; simpl in Hrun.
  - injection Hrun as <- _. split; [exact Hp|].
    intros uid ts H. exists []. now rewrite app_nil_r.
  - destruct (listen (dispatch ev) c) as [[c1 out1]|] eqn:Hstep; [|discriminate].
    destruct (run trace c1) as [[c2 out2]|] eqn:Hrest; [|discriminate].
    injection Hrun as <- _.
    destruct (dispatch_messages ev c c1 out1 Hstep) as [Hts _].
    assert (Hp1 : forall uid ts, JsMap.get uid (messageTimestamps c1) = Some ts ->
                                 paced ts = true).
    { destruct Hts as [->|(s & t & Hn & ->)]; [exact Hp|].
      intros uid ts H. destruct (same (userId s) uid) eqn:E.
      - apply same_true_eq in E. subst uid. rewrite get_set_same in H.
        injection H as <-. unfold paced. rewrite pacedFrom_snoc. cbn [app].
        apply andb_true_intro. split; [|now apply Nat.ltb_lt].
        unfold userTimestampsOf.
        destruct (JsMap.get (userId s) (messageTimestamps c)) as [l|] eqn:G;
          [exact (Hp _ _ G) | reflexivity].
      - rewrite get_set_other in H; [exact (Hp _ _ H)|].
        intro Heq. rewrite Heq, same_refl in E. discriminate. }
    destruct (IH c1 c2 out2 Hrest Hp1) as [Hp2 Hgrow]. split; [exact Hp2|].
    intros uid ts H.
    assert (H1 : exists more1, JsMap.get uid (messageTimestamps c1) = Some (ts ++ more1)).
    { destruct Hts as [->|(s & t & Hn & ->)]; [exists []; now rewrite app_nil_r|].
      destruct (same (userId s) uid) eqn:E.
      - apply same_true_eq in E. subst uid. exists [t]. rewrite get_set_same.
        unfold userTimestampsOf. now rewrite H.
      - exists []. rewrite app_nil_r, get_set_other; [exact H|].
        intro Heq. rewrite Heq, same_refl in E. discriminate. }
    destruct H1 as [more1 H1]. destruct (Hgrow _ _ H1) as [more2 H2].
    exists (more1 ++ more2). now rewrite app_assoc.
Qed.

(** X14.  The recorded instants of a participant are never pruned or
    reset -- not by the limiter, not by [disconnect] -- they only grow at
    the end; and every recorded instant was let through with fewer than
    five earlier recorded instants less than 1000ms before it.  So of any
    six consecutive recorded instants, the sixth is at least 1000ms after
    the first, provided the four between are not earlier than the first
    (as when the clock does not run backwards). *)
Theorem rate_history_is_paced_and_only_grows :
  forall (trace : list Event) (c : Coordinator) (out : list Emit),
    run trace emptyCoordinator = Some (c, out) ->
    forall (uid : Ident) (ts : list Z),
      JsMap.get uid (messageTimestamps c) = Some ts ->
      paced ts = true
      /\ (forall p a mid b s,
            ts = p ++ a :: mid ++ b :: s ->
            List.length mid = 4 ->
            (forall x, In x mid -> (a <= x)%Z) ->
            (1000 <= b - a)%Z)
      /\ (forall later c' out',
            run later c = Some (c', out') ->
            exists more, JsMap.get uid (messageTimestamps c') = Some (ts ++ more)).
Proof.
  intros trace c out Hrun uid ts Hts.
  assert (Hp0 : forall u l, JsMap.get u (messageTimestamps emptyCoordinator) = Some l ->
                            paced l = true) by (intros u l H; discriminate).
  destruct (run_rate_history trace emptyCoordinator c out Hrun Hp0) as [Hp _].
  pose proof (Hp uid ts Hts) as Hpaced.
  split; [exact Hpaced|]. split.
  - intros p a mid b s -> Hlen Hsorted.
    destruct (Z_lt_ge_dec (b - a) 1000) as [Hlt|Hge]; [exfalso|lia].
    unfold paced in Hpaced.
    replace (p ++ a :: mid ++ b :: s) with ((p ++ a :: mid) ++ b :: s) in Hpaced
      by (rewrite <- app_assoc; reflexivity).
    apply pacedFrom_point in Hpaced. cbn [app] in Hpaced.
    unfold recentMessages in Hpaced. rewrite filter_app, length_app in Hpaced.
    fold (recentMessages b (a :: mid)) in Hpaced.
    rewrite (recentMessages_all b (a :: mid)) in Hpaced.
    + simpl in Hpaced. lia.
    + intros x [<-|Hx]; [exact Hlt|]. specialize (Hsorted x Hx). lia.
  - intros later c' out' Hlater.
    destruct (run_rate_history later c c' out' Hlater Hp) as [_ Hgrow].
    now apply Hgrow.
Qed.

Lemma rate_history_is_paced_and_only_grows_witness :
  paced [1000; 2000; 3000]%Z = true.
Proof.
  exact (proj1 (rate_history_is_paced_and_only_grows
                  (aliceInRoomTrace
                   ++ attempts alice "r1" "hi"
                        [(1000, Saved "m1" 1001); (2000, SaveRejected "down");
                         (3000, Saved "m3" 3001)]%Z)
                  _ _ eq_refl (userId alice) [1000; 2000; 3000]%Z eq_refl)).
Defined.

Lemma groupBroadcasts_app (out1 out2 : list Emit) :
  groupBroadcasts (out1 ++ out2) = groupBroadcasts out1 ++ groupBroadcasts out2.
Proof. apply flat_map_app. Qed.

Lemma run_store (trace : list Event) :
  forall c c' out,
    run trace c = Some (c', out) ->
    exists added,
      messageStore c' = messageStore c ++ added
      /\ map md_id (groupBroadcasts out) = map m_id added
      /\ map md_content (groupBroadcasts out) = map m_content added
      /\ map md_createdAt (groupBroadcasts out) = map m_createdAt added
      /\ Forall (fun m => m_type m = "group" /\ m_room m <> "" /\ m_content m <> ""
                          /\ (m_senderType m = "guest" \/ m_senderType m = "user"))
           added.
Proof.
  induction trace as [|ev trace IH]; intros c c' out Hrun; simpl in Hrun.
  - injection Hrun as <- <-. exists []. rewrite app_nil_r. now repeat split.
  - destruct (listen (dispatch ev) c) as [[c1 out1]|] eqn:Hstep; [|discriminate].
    destruct (run trace c1) as [[c2 out2]|] eqn:Hrest; [|discriminate].
    injection Hrun as <- <-.
    destruct (IH c1 c2 out2 Hrest) as (added & Hs & Hid & Hco & Hcr & Hall).
    destruct (dispatch_messages ev c c1 out1 Hstep) as [_ Hst].
    rewrite groupBroadcasts_app, !map_app.
    destruct Hst as [[Hsame Hnone]|
                     (s & room & content & t & st & id & created & _ & Hr & Hc & _ & Hty
                      & Hnew & Hb)].
    + exists added. rewrite Hs, Hsame, Hnone. now repeat split.
    + exists (storedMessage s room content st id created :: added).
      rewrite Hs, Hnew, Hb, <- app_assoc. cbn [map app md_id md_content md_createdAt].
      rewrite Hid, Hco, Hcr. repeat split.
      constructor; [|exact Hall].
      cbn [storedMessage m_type m_room m_content m_senderType].
      split; [reflexivity|]. unfold truthy in Hr, Hc.
      split; [|split; [|exact Hty]].
      * intros ->. discriminate.
      * intros ->. discriminate.
Qed.

(** X15.  The message store is append-only: along any run no stored
    message is changed or removed, and the messages appended are all of
    type ["group"], with non-empty room and content.  The [groupMessage]
    broadcasts of the run correspond one to one, in handling order, to the
    messages appended: same id, content and [createdAt]. *)
Theorem message_store_is_append_only :
  forall (trace : list Event) (c c' : Coordinator) (out : list Emit),
    run trace c = Some (c', out) ->
    exists added,
      messageStore c' = messageStore c ++ added
      /\ map md_id (groupBroadcasts out) = map m_id added
      /\ map md_content (groupBroadcasts out) = map m_content added
      /\ map md_createdAt (groupBroadcasts out) = map m_createdAt added
      /\ Forall (fun m => m_type m = "group" /\ m_room m <> "" /\ m_content m <> ""
                          /\ (m_senderType m = "guest" \/ m_senderType m = "user"))
           added.
Proof.
  intros trace c c' out Hrun. exact (run_store trace c c' out Hrun).
Qed.

Lemma message_store_is_append_only_witness :
  exists added,
    messageStore busyRoom = messageStore aliceInRoom ++ added
    /\ map md_id (groupBroadcasts
                    (match run (fiftyOneMessages ++ [Connection bob 60000]) aliceInRoom with
                     | Some (_, out) => out
                     | None => []
                     end))
       = map m_id added.
Proof.
  destruct (message_store_is_append_only
              (fiftyOneMessages ++ [Connection bob 60000]) aliceInRoom busyRoom
              (match run (fiftyOneMessages ++ [Connection bob 60000]) aliceInRoom with
               | Some (_, out) => out
               | None => []
               end))
    as (added & Hs & Hid & _).
  - vm_compute. reflexivity.
  - exists added. now split.
Defined.

(** X16.  A registered user can never send a group message: for a socket
    whose [user._id] is an [ObjectId], every [groupMessage] event ends
    with exactly one [error] to the sender, nothing is stored and nothing
    is broadcast.  When the event had passed the validity tests and the
    rate limiter, the error is the [TypeError] of [startsWith] and the
    instant has been recorded all the same. *)
Theorem registered_user_cannot_send_group_message :
  forall (socket : Socket) (hex : string) (n : nat) (room content : option string)
         (timestamp : Z) (save : SaveReply) (c : Coordinator),
    _id (user socket) = ObjectId hex n ->
    let r := groupMessage socket room content timestamp save c in
    messageStore (stateOf r) = messageStore c
    /\ groupBroadcasts (outputOf r) = []
    /\ (exists message, outputOf r = [(ToSocket (socket_id socket), ErrorEv message)])
    /\ (wellAddressed socket room content c = true ->
        List.length (recentMessages timestamp (userTimestampsOf socket c)) < 5 ->
        outputOf r
        = [(ToSocket (socket_id socket),
            ErrorEv "socket.user._id.startsWith is not a function")]
        /\ recorded socket timestamp c (stateOf r)).
Proof.
  intros socket hex n room content timestamp save c Hid r. subst r.
  destruct (groupMessage_cases socket room content timestamp c)
    as [[rf Hrf] | (name & text & members & -> & -> & Hr & Hc & Hg & Hm & Hn)].
  - rewrite (refused_sound socket _ _ _ save _ _ Hrf). unfold stateOf, outputOf.
    cbn [fst snd]. split; [reflexivity|]. split; [reflexivity|].
    split; [now eexists|]. intros Hw Hcount. exfalso.
    destruct (wellAddressed_inv socket _ _ _ Hw)
      as (name & text & members & -> & -> & Hr & Hc & Hg & Hm).
    destruct rf; cbn [refused] in Hrf; unfold memberOf, JsMap.has in Hrf;
      rewrite ?Hr, ?Hc, ?Hg, ?Hm in Hrf; cbn [andb orb negb] in Hrf;
      try discriminate.
    apply Nat.leb_le in Hrf. lia.
  - rewrite (groupMessage_passed socket _ _ _ save _ _ Hr Hc Hg Hm Hn), Hid.
    unfold stateOf, outputOf. cbn [fst snd messageStore with_messageTimestamps].
    split; [reflexivity|]. split; [reflexivity|]. split; [now eexists|].
    intros _ _. split; [reflexivity|].
    unfold recorded. cbn [messageTimestamps]. apply get_set_same.
Qed.

Lemma registered_user_cannot_send_group_message_witness :
  groupBroadcasts
    (outputOf (groupMessage carol (Some "r1") (Some "hi") 9 (Saved "m1" 10)
                 (stateOf (joinRoom carol (Some "r1") Answered 8
                             (stateOf (connection carol 7 twoInRoom))))))
  = [].
Proof.
  exact (proj1 (proj2 (registered_user_cannot_send_group_message
                         carol carolHex 7 (Some "r1") (Some "hi") 9%Z (Saved "m1" 10%Z)
                         (stateOf (joinRoom carol (Some "r1") Answered 8
                                     (stateOf (connection carol 7 twoInRoom))))
                         eq_refl))).
Defined.

(** ** History *)

Lemma joinRoom_snapshot socket room query now c to messages participants :
  In (to, ChatHistoryEv messages participants)
     (outputOf (joinRoom socket (Some room) query now c)) ->
  to = ToSocket (socket_id socket)
  /\ messages = findRoomMessages room (messageStore c).
Proof.
  rewrite joinRoom_eq. unfold outputOf. cbn [snd]. intro Hin.
  apply in_app_or in Hin as [Hin|Hin].
  { apply leavePreviousRooms_only_userLeft in Hin. discriminate. }
  unfold joinOutput in Hin.
  cbn [chatRooms activeUsers messageStore with_chatRooms] in Hin.
  destruct query as [|reason]; [|destruct Hin as [Hin|[]]; discriminate].
  destruct (JsMap.get room (joinedRooms socket room now (chatRooms c)))
    as [members|]; [|destruct Hin as [Hin|[]]; discriminate].
  destruct (traverse (describe true (activeUsers c)) members) as [ps|];
    [|destruct Hin as [Hin|[]]; discriminate].
  destruct Hin as [Hin|[Hin|Hin]]; [now injection Hin as <- <- _|discriminate|].
  destruct (traverse (describe false (activeUsers c)) members);
    destruct Hin as [Hin|[]]; discriminate.
Qed.

Lemma roomHistory_length room store :
  List.length (roomHistory room store)
  = List.length (filter (fun m => String.eqb (m_room m) room) store).
Proof. apply Permutation_length, sortByCreatedAt_perm. Qed.

(** X17.  Round trip through the store.  When a guest's message passes
    [groupMessage] and is saved, the message broadcast to the room and the
    message stored agree in id, content and [createdAt]; and as long as
    the room's history then holds at most 50 messages, the [chatHistory]
    snapshot of whoever joins the room next contains that stored message. *)
Theorem sent_message_is_in_the_next_snapshot :
  forall (sender : Socket) (g room content id : string) (timestamp createdAt : Z)
         (c : Coordinator),
    wellAddressed sender (Some room) (Some content) c = true ->
    List.length (recentMessages timestamp (userTimestampsOf sender c)) < 5 ->
    _id (user sender) = GuestId g ->
    List.length (roomHistory room (messageStore c)) < 50 ->
    let sent := groupMessage sender (Some room) (Some content) timestamp
                  (Saved id createdAt) c in
    exists m,
      m_id m = id /\ m_content m = content /\ m_createdAt m = createdAt
      /\ m_room m = room /\ m_sender m = userId sender
      /\ groupBroadcasts (outputOf sent)
         = [{| md_id := id; md_content := content; md_createdAt := createdAt;
               md_sender := {| _id := userId sender;
                               username := username (user sender);
                               profilePicture := profilePicture (user sender) |} |}]
      /\ messageStore (stateOf sent) = messageStore c ++ [m]
      /\ forall joiner now to messages participants,
           In (to, ChatHistoryEv messages participants)
              (outputOf (joinRoom joiner (Some room) Answered now (stateOf sent))) ->
           In m messages
           /\ List.length messages = S (List.length (roomHistory room (messageStore c))).
Proof.
  intros sender g room content id timestamp createdAt c Hw Hn Hid Hlen sent.
  destruct (wellAddressed_inv sender _ _ _ Hw)
    as (name & text & members & Hname & Htext & Hr & Hc & Hg & Hm).
  injection Hname as <-. injection Htext as <-.
  set (m := storedMessage sender room content
              (if startsWith "guest-" g then "guest" else "user") id createdAt).
  assert (Hsent : sent
            = (Normal tt,
               with_messageStore (fun store => store ++ [m])
                 (with_messageTimestamps
                    (JsMap.set (userId sender)
                       (userTimestampsOf sender c ++ [timestamp])) c),
               [(ToRoom room,
                 GroupMessageEv
                   {| md_id := id; md_content := content; md_createdAt := createdAt;
                      md_sender := {| _id := userId sender;
                                      username := username (user sender);
                                      profilePicture := profilePicture (user sender) |} |})])).
  { unfold sent.
    rewrite (groupMessage_passed sender _ _ _ (Saved id createdAt) _ _ Hr Hc Hg Hm Hn).
    now rewrite Hid. }
  exists m. rewrite Hsent. unfold stateOf, outputOf.
  cbn [fst snd messageStore with_messageStore with_messageTimestamps].
  do 5 (split; [reflexivity|]). split; [reflexivity|]. split; [reflexivity|].
  intros joiner now to messages participants Hin.
  apply joinRoom_snapshot in Hin as [_ ->].
  cbn [messageStore with_messageStore with_messageTimestamps].
  unfold findRoomMessages.
  assert (Hfilter : filter (fun x => String.eqb (m_room x) room) (messageStore c ++ [m])
                    = filter (fun x => String.eqb (m_room x) room) (messageStore c) ++ [m]).
  { rewrite filter_app. cbn [filter m_room m storedMessage].
    now rewrite String.eqb_refl. }
  rewrite Hfilter.
  set (old := filter (fun x => String.eqb (m_room x) room) (messageStore c)) in *.
  pose proof (sortByCreatedAt_perm (old ++ [m])) as Hperm.
  assert (Hl : List.length (sortByCreatedAt (old ++ [m])) = S (List.length old)).
  { rewrite (Permutation_length Hperm), length_app. simpl. lia. }
  rewrite roomHistory_length in Hlen |- *. fold old in Hlen |- *.
  rewrite firstn_all2 by lia. split; [|exact Hl].
  apply (Permutation_in m (Permutation_sym Hperm)).
  apply in_or_app. right. now left.
Qed.

Lemma sent_message_is_in_the_next_snapshot_witness :
  exists m,
    m_id m = "m1"
    /\ messageStore (stateOf (groupMessage alice (Some "r1") (Some "hi") 10
                                (Saved "m1" 11) twoInRoom))
       = messageStore twoInRoom ++ [m].
Proof.
  destruct (sent_message_is_in_the_next_snapshot
              alice "guest-1700000000001" "r1" "hi" "m1" 10%Z 11%Z twoInRoom
              eq_refl) as (m & Hid & _ & _ & _ & _ & _ & Hs & _).
  - vm_compute. lia.
  - reflexivity.
  - vm_compute. lia.
  - exists m. now split.
Defined.

Lemma oldestFirst_trans : Relations_1.Transitive oldestFirst.
Proof. intros a b c. unfold oldestFirst. lia. Qed.

Lemma StronglySorted_split {A} (R : A -> A -> Prop) (l1 l2 : list A) :
  StronglySorted R (l1 ++ l2) ->
  StronglySorted R l1 /\ forall a b, In a l1 -> In b l2 -> R a b.
Proof.
  induction l1 as [|x l1 IH]; simpl; intro H.
  - split; [constructor | intros a b []].
  - inversion H as [|? ? Hs Hall]; subst. destruct (IH Hs) as [Hs1 Hcross].
    split.
    + constructor; [exact Hs1|].
      apply Forall_forall. intros y Hy.
      apply (proj1 (Forall_forall _ _) Hall). apply in_or_app. now left.
    + intros a b [<-|Ha] Hb; [|now apply Hcross].
      apply (proj1 (Forall_forall _ _) Hall). apply in_or_app. now right.
Qed.

(** X18.  The history query of [joinRoom] returns at most 50 messages,
    all stored messages of the requested room, in ascending [createdAt]
    order; every stored message of the room that is left out is at least
    as new as every message returned, and nothing is left out while the
    room has at most 50 messages. *)
Theorem history_query_returns_oldest_fifty :
  forall (room : string) (store : list Message),
    let snapshot := findRoomMessages room store in
    List.length snapshot <= 50
    /\ (forall m, In m snapshot -> m_room m = room /\ In m store)
    /\ StronglySorted oldestFirst snapshot
    /\ Permutation (snapshot ++ skipn 50 (roomHistory room store))
         (filter (fun m => String.eqb (m_room m) room) store)
    /\ (forall a b, In a snapshot -> In b (skipn 50 (roomHistory room store)) ->
          (m_createdAt a <= m_createdAt b)%Z)
    /\ (List.length (filter (fun m => String.eqb (m_room m) room) store) <= 50 ->
        skipn 50 (roomHistory room store) = []).
Proof.
  intros room store snapshot. subst snapshot. unfold findRoomMessages.
  fold (roomHistory room store).
  pose proof (sortByCreatedAt_sorted (filter (fun m => String.eqb (m_room m) room) store))
    as Hsorted.
  apply (Sorted_StronglySorted oldestFirst_trans) in Hsorted.
  fold (roomHistory room store) in Hsorted.
  rewrite <- (firstn_skipn 50 (roomHistory room store)) in Hsorted.
  destruct (StronglySorted_split _ _ _ Hsorted) as [Hs1 Hcross].
  split; [apply firstn_le_length|]. split; [|split; [exact Hs1|split; [|split]]].
  - intros m Hin.
    assert (Hin' : In m (roomHistory room store))
      by (rewrite <- (firstn_skipn 50 (roomHistory room store));
          apply in_or_app; now left).
    apply (Permutation_in m (sortByCreatedAt_perm _)) in Hin'.
    rename Hin' into Hin0. clear Hin. rename Hin0 into Hin.
    apply filter_In in Hin as [Hin Hr]. split; [now apply String.eqb_eq | exact Hin].
  - rewrite firstn_skipn. apply sortByCreatedAt_perm.
  - exact Hcross.
  - intro Hlen. apply skipn_all2. now rewrite roomHistory_length.
Qed.

Lemma history_query_returns_oldest_fifty_witness :
  StronglySorted oldestFirst (findRoomMessages "r1" (messageStore busyRoom)).
Proof.
  exact (proj1 (proj2 (proj2
           (history_query_returns_oldest_fifty "r1" (messageStore busyRoom))))).
Defined.

(** ** Disconnecting, for the others *)

(** X19.  [disconnect] affects the disconnecting participant only: every
    other participant keeps its presence entry, its room memberships and
    its typing mark, and the rate history and the message store are not
    touched (the participant's own recorded instants survive the
    disconnect).  The presence list broadcast to everybody is the list
    without the participant. *)
Theorem disconnect_leaves_the_others_alone :
  forall (socket : Socket) (now : Z) (c : Coordinator),
    let r := disconnect socket now c in
    (forall u, u <> userId socket ->
       JsMap.get u (activeUsers (stateOf r)) = JsMap.get u (activeUsers c)
       /\ JsMap.get u (typingUsers (stateOf r)) = JsMap.get u (typingUsers c)
       /\ forall room, memberOf u room (stateOf r) = memberOf u room c)
    /\ messageTimestamps (stateOf r) = messageTimestamps c
    /\ messageStore (stateOf r) = messageStore c
    /\ hd_error (outputOf r)
       = Some (ToAll,
               ActiveUsersEv (JsMap.values (JsMap.delete (userId socket) (activeUsers c)))).
Proof.
  intros socket now c r. subst r. rewrite disconnect_eq.
  unfold stateOf, outputOf, disconnected. cbn [fst snd hd_error].
  cbn [activeUsers typingUsers chatRooms messageTimestamps messageStore
         with_typingUsers with_chatRooms with_activeUsers].
  split; [|now repeat split].
  intros u Hu. split; [apply get_delete_other; congruence|].
  split; [apply get_delete_other; congruence|].
  intro room. rewrite !memberOf_holds.
  cbn [chatRooms with_typingUsers with_chatRooms with_activeUsers].
  rewrite leaveAllRooms_fst. now apply holds_leaveIfMember.
Qed.

Lemma disconnect_leaves_the_others_alone_witness :
  JsMap.get (userId bob) (activeUsers (stateOf (disconnect alice 9 twoInRoom)))
  = JsMap.get (userId bob) (activeUsers twoInRoom).
Proof.
  apply (proj1 (disconnect_leaves_the_others_alone alice 9%Z twoInRoom) (userId bob)).
  discriminate.
Defined.

(** ** Sessions: events from connected participants *)

Section MoreSetFacts.

Context {K : Type} `{Key K}.

Lemma has_delete (k k' : K) (s : list K) :
  NoDup s ->
  JsSet.has k' (JsSet.delete k s) = JsSet.has k' s && negb (same k k').
Proof.
  intro Hnd. destruct (same k k') eqn:E.
  - apply same_true_eq in E. subst k'. rewrite has_delete_same by exact Hnd.
    now rewrite andb_false_r.
  - rewrite has_delete_other; [now rewrite andb_true_r|].
    intros ->. rewrite same_refl in E. discriminate.
Qed.

Lemma In_add (k u : K) (s : list K) : In u s -> In u (JsSet.add k s).
Proof.
  intro Hin. apply has_In. rewrite has_add. apply has_In in Hin. now rewrite Hin.
Qed.

Lemma In_add_inv (k u : K) (s : list K) : In u (JsSet.add k s) -> u = k \/ In u s.
Proof.
  intro Hin. apply has_In in Hin. rewrite has_add in Hin.
  apply orb_prop in Hin as [Hin|Hin].
  - right. now apply has_In.
  - left. symmetry. now apply same_true_eq.
Qed.

Lemma In_delete_other (k u : K) (s : list K) :
  In u s -> u <> k -> In u (JsSet.delete k s).
Proof.
  intros Hin Hne. apply has_In. rewrite has_delete_other by congruence.
  now apply has_In.
Qed.

End MoreSetFacts.

Section MoreMapFacts.

Context {K V : Type} `{Key K}.

Lemma has_set (k k' : K) (v : V) (m : list (K * V)) :
  JsMap.has k' (JsMap.set k v m) = JsMap.has k' m || same k k'.
Proof.
  unfold JsMap.has. destruct (same k k') eqn:E.
  - apply same_true_eq in E. subst k'. rewrite get_set_same. now rewrite orb_true_r.
  - rewrite get_set_other; [now rewrite orb_false_r|].
    intros ->. rewrite same_refl in E. discriminate.
Qed.

Lemma has_map_delete (k k' : K) (m : list (K * V)) :
  NoDup (map fst m) ->
  JsMap.has k' (JsMap.delete k m) = JsMap.has k' m && negb (same k k').
Proof.
  intro Hnd. unfold JsMap.has. destruct (same k k') eqn:E.
  - apply same_true_eq in E. subst k'. rewrite get_delete_same by exact Hnd.
    now rewrite andb_false_r.
  - rewrite get_delete_other; [now rewrite andb_true_r|].
    intros ->. rewrite same_refl in E. discriminate.
Qed.

End MoreMapFacts.

Section Inheritance.

Variable socket : Socket.

Lemma joined_members_inherit room now rooms r m u :
  In (r, m) (joinedRooms socket room now rooms) -> In u m ->
  u = userId socket \/ exists m0, In (r, m0) rooms /\ In u m0.
Proof.
  unfold joinedRooms. rewrite leavePreviousRooms_fst.
  set (rooms1 := map (leaveIfOther (userId socket) room) rooms).
  assert (H1 : forall r' m', In (r', m') rooms1 -> In u m' ->
                             exists m0, In (r', m0) rooms /\ In u m0).
  { intros r' m' Hin Hu. unfold rooms1 in Hin.
    apply in_map_iff in Hin as [[r0 m0] [Heq Hin]].
    unfold leaveIfOther in Heq. cbn [fst snd] in Heq.
    destruct (_ && _); injection Heq as <- <-; exists m0; split; try assumption.
    now apply (delete_incl (userId socket) m0). }
  assert (H2 : forall r' m', In (r', m') (ensureRoom room rooms1) -> In u m' ->
                             exists m0, In (r', m0) rooms /\ In u m0).
  { intros r' m' Hin Hu.
    destruct (In_ensureRoom room rooms1 r' m' Hin) as [[_ ->]|Hin1]; [destruct Hu|].
    now apply (H1 r' m'). }
  unfold mutateMembers.
  destruct (JsMap.get room (ensureRoom room rooms1)) as [m2|] eqn:G;
    [|intros Hin Hu; right; now apply (H2 r m)].
  intros Hin Hu.
  destruct (In_set _ _ _ _ Hin) as [Heq|[[_ Hin']|[_ Hin']]];
    [|right; now apply (H2 r m)..].
  injection Heq as -> ->.
  destruct (In_add_inv _ _ _ Hu) as [->|Hu2]; [now left|].
  right. apply (H2 room m2); [now apply get_In | exact Hu2].
Qed.

Lemma afterLeave_members_inherit roomId rooms r m u :
  In (r, m) (roomsAfterLeave (userId socket) roomId rooms) -> In u m ->
  exists m0, In (r, m0) rooms /\ In u m0.
Proof.
  unfold roomsAfterLeave.
  destruct (JsMap.get roomId rooms) as [members|] eqn:G;
    [|intros Hin Hu; now exists m].
  assert (H1 : In (r, m) (JsMap.set roomId (JsSet.delete (userId socket) members) rooms) ->
               In u m -> exists m0, In (r, m0) rooms /\ In u m0).
  { intros Hin Hu.
    destruct (In_set _ _ _ _ Hin) as [Heq|[[_ Hin']|[_ Hin']]]; [|now exists m..].
    injection Heq as -> ->. exists members. split; [now apply get_In|].
    now apply (delete_incl (userId socket) members). }
  destruct (Nat.eqb _ 0); [|exact H1].
  intros Hin Hu. apply H1; [|exact Hu]. now apply (delete_map_incl roomId _).
Qed.

Lemma leaveAll_members_inherit rooms r m u :
  Forall (fun entry : string * list Ident => NoDup (snd entry)) rooms ->
  In (r, m) (map (leaveIfMember (userId socket)) rooms) -> In u m ->
  u <> userId socket /\ exists m0, In (r, m0) rooms /\ In u m0.
Proof.
  intros Hsets Hin Hu. apply in_map_iff in Hin as [[r0 m0] [Heq Hin]].
  pose proof (proj1 (Forall_forall _ rooms) Hsets (r0, m0) Hin) as Hnd.
  cbn [snd] in Hnd.
  unfold leaveIfMember in Heq. cbn [fst snd] in Heq.
  destruct (JsSet.has (userId socket) m0) eqn:Hh; injection Heq as <- <-.
  - split.
    + intros ->. apply has_In in Hu. rewrite has_delete_same in Hu by exact Hnd.
      discriminate.
    + exists m0. split; [exact Hin|]. now apply (delete_incl (userId socket) m0).
  - split; [|now exists m0]. intros ->. apply has_In in Hu. congruence.
Qed.

End Inheritance.

Section ConnectedSockets.

Lemma has_socket_id (live : list Socket) (s : Socket) :
  JsSet.has s live = true -> In (userId s) (map userId live).
Proof. intro H. apply has_In in H. now apply in_map. Qed.

Lemma new_id_not_connected (live : list Socket) (s : Socket) :
  forallb (fun other : Socket => negb (same (userId other) (userId s))) live = true ->
  ~ In (userId s) (map userId live).
Proof.
  intros H Hin. apply in_map_iff in Hin as [other [Ho Hin]].
  rewrite forallb_forall in H. specialize (H other Hin).
  rewrite Ho, same_refl in H. discriminate.
Qed.

Lemma ids_after_connection (live : list Socket) (s : Socket) :
  ~ In (userId s) (map userId live) ->
  map userId (JsSet.add s live) = JsSet.add (userId s) (map userId live).
Proof.
  intro Hnew. unfold JsSet.add.
  destruct (JsSet.has s live) eqn:E.
  { exfalso. apply Hnew. now apply has_socket_id. }
  destruct (JsSet.has (userId s) (map userId live)) eqn:E'.
  { exfalso. apply Hnew. now apply has_In. }
  now rewrite map_app.
Qed.

Lemma ids_after_disconnect (live : list Socket) (s : Socket) :
  NoDup (map userId live) -> JsSet.has s live = true ->
  map userId (JsSet.delete s live) = JsSet.delete (userId s) (map userId live).
Proof.
  induction live as [|a live IH]; intros Hnd Hin; [discriminate|].
  cbn [map] in Hnd. inversion Hnd as [|? ? Hnotin Hnd']; subst.
  cbn [JsSet.delete JsSet.has map] in *.
  destruct (same a s) eqn:E.
  - apply same_true_eq in E. subst a. now rewrite same_refl.
  - destruct (same (userId a) (userId s)) eqn:E'.
    + exfalso. apply same_true_eq in E'. apply Hnotin. rewrite E'.
      now apply has_socket_id.
    + cbn [map]. now rewrite IH.
Qed.

End ConnectedSockets.

Lemma inSession_cons (live : list Socket) (ev : Event) (rest : list Event) :
  inSession live (ev :: rest)
  = inSession live [ev] && inSession (connectedAfterEvent live ev) rest.
Proof. cbn [inSession]. now rewrite andb_true_r. Qed.

Lemma distinctIds_cons (live : list Socket) (ev : Event) (rest : list Event) :
  distinctIds live (ev :: rest)
  = distinctIds live [ev] && distinctIds (connectedAfterEvent live ev) rest.
Proof. cbn [distinctIds]. now rewrite andb_true_r. Qed.

Lemma step_session (ev : Event) (c : Coordinator) (live : list Socket) :
  consistent c -> registered (map userId live) c ->
  inSession live [ev] = true -> distinctIds live [ev] = true ->
  carriesPayload ev = true ->
  exists c1 out1,
    listen (dispatch ev) c = Some (c1, out1)
    /\ registered (map userId (connectedAfterEvent live ev)) c1.
Proof.
  intros ((Hkeys & Hsets & _) & Ha & Hm) (Hlive & Hreg & Hmem & Hmark) Hs Hd Hp.
  set (ids := map userId live) in *.
  destruct ev as [s now|s [room|] query now|s roomId now|s [[room isTyping]|]
                 |s [room|]|s room content timestamp save|s now
                 |s sockets [fields|] now];
    try discriminate Hp;
    cbn [inSession distinctIds connectedAfterEvent senderOf] in Hs, Hd |- *;
    rewrite ?andb_true_r in Hs, Hd;
    try (apply has_socket_id in Hs as Hsender; fold ids in Hsender);
    cbn [dispatch].
  - apply new_id_not_connected in Hd. rewrite (ids_after_connection live s Hd).
    fold ids.
    unfold listen. rewrite connection_eq. eexists. eexists. split; [reflexivity|].
    unfold registered. cbn [activeUsers chatRooms typingUsers with_activeUsers].
    split; [now apply NoDup_add|]. split; [|split].
    + intro u. rewrite has_set, has_add. now rewrite Hreg.
    + intros r m u Hin Hu. apply In_add. now apply (Hmem r m).
    + intros u r Hin. apply In_add. now apply (Hmark u r).
  - unfold listen. rewrite joinRoom_eq. eexists. eexists. split; [reflexivity|].
    unfold registered. cbn [activeUsers chatRooms typingUsers with_chatRooms].
    split; [exact Hlive|]. split; [exact Hreg|]. split; [|exact Hmark].
    intros r m u Hin Hu.
    destruct (joined_members_inherit s room now (chatRooms c) r m u Hin Hu)
      as [->|(m0 & Hin0 & Hu0)]; [exact Hsender | now apply (Hmem r m0)].
  - unfold listen. rewrite leaveRoom_eq. eexists. eexists. split; [reflexivity|].
    unfold registered. cbn [activeUsers chatRooms typingUsers with_chatRooms].
    split; [exact Hlive|]. split; [exact Hreg|]. split; [|exact Hmark].
    intros r m u Hin Hu.
    destruct (afterLeave_members_inherit s roomId (chatRooms c) r m u Hin Hu)
      as (m0 & Hin0 & Hu0). now apply (Hmem r m0).
  - unfold listen. rewrite typing_eq. destruct room as [r|].
    2:{ eexists. eexists. split; [reflexivity|]. now repeat split. }
    destruct (truthy (Some r) && JsMap.has r (chatRooms c)).
    2:{ eexists. eexists. split; [reflexivity|]. now repeat split. }
    cbv zeta.
    set (c1 := if isTyping
               then with_typingUsers (JsMap.set (userId s) r) c
               else with_typingUsers (JsMap.delete (userId s)) c).
    assert (Hc1 : activeUsers c1 = activeUsers c /\ chatRooms c1 = chatRooms c
                  /\ forall u r', In (u, r') (typingUsers c1) -> In u ids).
    { unfold c1. destruct isTyping; cbn [activeUsers chatRooms typingUsers with_typingUsers];
        (split; [reflexivity|]); (split; [reflexivity|]); intros u r' Hin.
      - destruct (In_set _ _ _ _ Hin) as [Heq|[[_ Hin']|[_ Hin']]];
          [|now apply (Hmark u r')..].
        injection Heq as -> ->. exact Hsender.
      - apply (Hmark u r'). now apply (delete_map_incl (userId s) _). }
    destruct Hc1 as (Hact & Hrooms & Hmarks1).
    destruct (traverse (typingEntry (activeUsers c1)) (marksFor r (typingUsers c1)))
      as [typingData|] eqn:Hdata.
    + eexists. eexists. split; [reflexivity|].
      split; [exact Hlive|]. rewrite Hact, Hrooms. now repeat split.
    + exfalso. apply traverse_typingEntry_None in Hdata as (u & Hin & Hu).
      apply marksFor_keys in Hin. apply in_map_iff in Hin as [[u' r'] [Hf Hin]].
      cbn [fst] in Hf. subst u'. apply Hmarks1 in Hin. apply has_In in Hin.
      rewrite Hact, Hreg in Hu. congruence.
  - unfold listen. rewrite stopTyping_eq. destruct room as [r|].
    2:{ eexists. eexists. split; [reflexivity|]. now repeat split. }
    destruct (JsMap.has (GuestId r) (typingUsers c)).
    2:{ eexists. eexists. split; [reflexivity|]. now repeat split. }
    eexists. eexists. split; [reflexivity|].
    unfold registered. cbn [activeUsers chatRooms typingUsers with_typingUsers].
    split; [exact Hlive|]. split; [exact Hreg|]. split; [exact Hmem|].
    intros u r' Hin. apply (Hmark u r'). now apply (delete_map_incl (userId s) _).
  - rewrite groupMessage_listen. eexists. eexists. split; [reflexivity|].
    destruct (groupMessage_frame s room content timestamp save c) as [Hact Hty].
    pose proof (groupMessage_chatRooms s room content timestamp save c) as Hrooms.
    split; [exact Hlive|]. rewrite Hact, Hty, Hrooms. now repeat split.
  - rewrite (ids_after_disconnect live s Hlive Hs). fold ids.
    unfold listen. rewrite disconnect_eq. eexists. eexists. split; [reflexivity|].
    unfold registered, disconnected.
    cbn [activeUsers chatRooms typingUsers with_typingUsers with_chatRooms
           with_activeUsers].
    split; [now apply NoDup_delete|]. split; [|split].
    + intro u. rewrite has_map_delete by exact Ha.
      rewrite has_delete by exact Hlive. now rewrite Hreg.
    + intros r m u Hin Hu. rewrite leaveAllRooms_fst in Hin.
      destruct (leaveAll_members_inherit s (chatRooms c) r m u Hsets Hin Hu)
        as (Hne & m0 & Hin0 & Hu0).
      apply In_delete_other; [now apply (Hmem r m0) | exact Hne].
    + intros u r Hin.
      assert (Hnd : NoDup (map fst (JsMap.delete (userId s) (typingUsers c))))
        by now apply NoDup_keys_delete.
      apply (In_get u r _ Hnd) in Hin.
      apply (get_delete_Some u (userId s) r (typingUsers c) Hm) in Hin as [Hg Hne].
      apply In_delete_other; [|exact Hne]. apply (Hmark u r). now apply get_In.
  - destruct (onPrivateMessage_present s sockets fields now c) as [out Hout].
    exists c, out. split; [exact Hout|]. now repeat split.
Qed.

Lemma run_session (trace : list Event) :
  forall live c,
    consistent c -> registered (map userId live) c ->
    inSession live trace = true -> distinctIds live trace = true ->
    forallb carriesPayload trace = true ->
    exists c' out,
      run trace c = Some (c', out)
      /\ consistent c' /\ registered (map userId (connectedAfter live trace)) c'.
Proof.
  induction trace as [|ev trace IH]; intros live c Hc Hreg Hs Hd Hp.
  - exists c, []. split; [reflexivity|]. split; assumption.
  - rewrite inSession_cons in Hs. apply andb_prop in Hs as [Hev Hrest].
    rewrite distinctIds_cons in Hd. apply andb_prop in Hd as [Hdev Hdrest].
    cbn [forallb] in Hp. apply andb_prop in Hp as [Hpev Hprest].
    destruct (step_session ev c live Hc Hreg Hev Hdev Hpev)
      as (c1 & out1 & Hstep & Hreg1).
    pose proof (dispatch_consistent ev c c1 out1 Hc Hstep) as Hc1.
    destruct (IH _ c1 Hc1 Hreg1 Hrest Hdrest Hprest) as (c' & out & Hrun & Hc' & Hreg').
    exists c', (out1 ++ out). cbn [run]. rewrite Hstep, Hrun.
    split; [reflexivity|]. split; [exact Hc' | exact Hreg'].
Qed.

Lemma registered_empty : registered [] emptyCoordinator.
Proof.
  split; [constructor|]. split; [reflexivity|]. split; [intros r m u []|intros u r []].
Qed.

Lemma consistent_empty : consistent emptyCoordinator.
Proof. split; [exact tidy_empty|]. split; constructor. Qed.

Lemma registered_members live c room u :
  registered live c -> memberOf u room c = true -> JsMap.has u (activeUsers c) = true.
Proof.
  intros (_ & Hreg & Hmem & _) Hin. unfold memberOf in Hin.
  destruct (JsMap.get room (chatRooms c)) as [m|] eqn:G; [|discriminate].
  rewrite Hreg. apply has_In. apply (Hmem room m); [now apply get_In|].
  now apply has_In.
Qed.

(** X20.  Suppose that every event other than a connection arrives on a
    socket that is connected at that moment, that no socket connects
    while a connected socket carries the same user id, and that every
    [joinRoom], [typing], [stopTyping] and [privateMessage] event comes
    with a payload object.  Then no listener lets an exception escape --
    the whole run is handled -- and afterwards the presence registry lists
    exactly the ids of the connected sockets, and every room member and
    every typing participant has a presence entry. *)
Theorem sessions_never_crash_the_server :
  forall trace : list Event,
    inSession [] trace = true ->
    distinctIds [] trace = true ->
    forallb carriesPayload trace = true ->
    exists c out,
      run trace emptyCoordinator = Some (c, out)
      /\ (forall u, JsMap.has u (activeUsers c)
                    = JsSet.has u (map userId (connectedAfter [] trace)))
      /\ (forall u room, memberOf u room c = true -> JsMap.has u (activeUsers c) = true)
      /\ (forall u r, JsMap.get u (typingUsers c) = Some r ->
            JsMap.has u (activeUsers c) = true).
Proof.
  intros trace Hs Hd Hp.
  destruct (run_session trace [] emptyCoordinator consistent_empty registered_empty
              Hs Hd Hp) as (c & out & Hrun & _ & Hreg).
  exists c, out. split; [exact Hrun|].
  pose proof Hreg as (_ & Hact & _ & Hmark).
  split; [exact Hact|]. split.
  - intros u room. now apply (registered_members _ c room u Hreg).
  - intros u r Hg. rewrite Hact. apply has_In. apply (Hmark u r). now apply get_In.
Qed.

Lemma sessions_never_crash_the_server_witness :
  exists c out, run aliceTypingTrace emptyCoordinator = Some (c, out).
Proof.
  destruct (sessions_never_crash_the_server aliceTypingTrace eq_refl eq_refl eq_refl)
    as (c & out & Hrun & _).
  now exists c, out.
Defined.

(** Each of the three conditions is needed: a [typing] event without a
    payload, and a [typing] event of a guest whose twin -- another socket
    with the same id -- has disconnected, both end the process. *)
Lemma sessions_that_crash_the_server :
  inSession [] (twoInRoomTrace ++ [Typing alice None]) = true
  /\ distinctIds [] (twoInRoomTrace ++ [Typing alice None]) = true
  /\ run (twoInRoomTrace ++ [Typing alice None]) emptyCoordinator = None
  /\ inSession [] (twinGuestsTrace
                   ++ [Disconnect alice 5; Typing aliceTwin (Some (Some "r2", true))])
     = true
  /\ forallb carriesPayload
       (twinGuestsTrace
        ++ [Disconnect alice 5; Typing aliceTwin (Some (Some "r2", true))]) = true
  /\ run (twinGuestsTrace
          ++ [Disconnect alice 5; Typing aliceTwin (Some (Some "r2", true))])
       emptyCoordinator = None.
Proof. repeat split; reflexivity. Qed.

(** X21.  Let [c] be a coordinator that such a run has produced: it
    stands for the moment at which the history query of a [joinRoom]
    settles, whatever has been handled since the join began.  What is
    left of the join changes nothing.  When the query was answered it
    succeeds exactly when the room still has its entry: it then emits the
    snapshot to the joining socket, [userJoined] and [updateParticipants]
    to the room, both participant lists naming, in member order, the
    members the room has at that moment; when the entry is gone (the
    members have left with [leaveRoom] in the meantime) the only output
    is the ["Failed to join room"] error.  In particular a join by a
    participant with a presence entry, during which nothing else is
    handled, always succeeds. *)
Theorem join_succeeds_while_the_room_exists :
  forall (trace : list Event) (c : Coordinator) (out0 : list Emit),
    inSession [] trace = true ->
    distinctIds [] trace = true ->
    forallb carriesPayload trace = true ->
    run trace emptyCoordinator = Some (c, out0) ->
    forall (socket : Socket) (room : string) (now : Z),
      stateOf (joinRoomAfterAwait socket room Answered now c) = c
      /\ (JsMap.get room (chatRooms c) = None ->
          outputOf (joinRoomAfterAwait socket room Answered now c)
          = [(ToSocket (socket_id socket), ErrorEv "Failed to join room")])
      /\ (forall members,
            JsMap.get room (chatRooms c) = Some members ->
            exists messages participants participants',
              map p_id participants = members
              /\ map p_id participants' = members
              /\ outputOf (joinRoomAfterAwait socket room Answered now c)
                 = [(ToSocket (socket_id socket), ChatHistoryEv messages participants);
                    (ToRoom room,
                     UserJoinedEv (userId socket) (username (user socket)) now);
                    (ToRoom room, UpdateParticipantsEv participants')])
      /\ (JsMap.has (userId socket) (activeUsers c) = true ->
          exists members participants participants',
            JsMap.get room
              (chatRooms (stateOf (joinRoom socket (Some room) Answered now c)))
            = Some members
            /\ In (userId socket) members
            /\ map p_id participants = members
            /\ map p_id participants' = members
            /\ outputOf (joinRoom socket (Some room) Answered now c)
               = snd (leavePreviousRooms socket room now (chatRooms c))
                 ++ [(ToSocket (socket_id socket),
                      ChatHistoryEv (findRoomMessages room (messageStore c))
                        participants);
                     (ToRoom room,
                      UserJoinedEv (userId socket) (username (user socket)) now);
                     (ToRoom room, UpdateParticipantsEv participants')]).
Proof.
  intros trace c out0 Hs Hd Hp Hrun socket room now.
  destruct (run_session trace [] emptyCoordinator consistent_empty registered_empty
              Hs Hd Hp) as (c0 & out & Hrun0 & _ & Hreg).
  rewrite Hrun in Hrun0. injection Hrun0 as <- _.
  destruct Hreg as (_ & Hact & Hmem & _).
  rewrite joinRoomAfterAwait_eq. unfold stateOf, outputOf. cbn [fst snd].
  split; [reflexivity|]. split; [|split].
  - intro Hgone. unfold joinOutput. now rewrite Hgone.
  - intros members Hg.
    assert (Hall : forall u, In u members -> JsMap.has u (activeUsers c) = true).
    { intros u Hu. rewrite Hact. apply has_In.
      apply (Hmem room members); [now apply get_In | exact Hu]. }
    destruct (traverse_describe_total true (activeUsers c) members Hall) as [ps Hps].
    destruct (traverse_describe_total false (activeUsers c) members Hall) as [ps' Hps'].
    exists (findRoomMessages room (messageStore c)), ps, ps'.
    split; [now apply (traverse_describe_ids true (activeUsers c))|].
    split; [now apply (traverse_describe_ids false (activeUsers c))|].
    unfold joinOutput. now rewrite Hg, Hps, Hps'.
  - intro Hactive. rewrite joinRoom_eq. cbn [fst snd chatRooms with_chatRooms].
    pose proof (memberOf_joined socket room now (chatRooms c) c) as Hjoined.
    unfold memberOf in Hjoined. cbn [chatRooms with_chatRooms] in Hjoined.
    destruct (JsMap.get room (joinedRooms socket room now (chatRooms c)))
      as [members|] eqn:G; [|discriminate].
    assert (Hall : forall u, In u members -> JsMap.has u (activeUsers c) = true).
    { intros u Hu.
      destruct (joined_members_inherit socket room now (chatRooms c) room members u
                  (get_In _ _ _ G) Hu) as [->|(m0 & Hin0 & Hu0)]; [exact Hactive|].
      rewrite Hact. apply has_In. now apply (Hmem room m0). }
    destruct (traverse_describe_total true (activeUsers c) members Hall) as [ps Hps].
    destruct (traverse_describe_total false (activeUsers c) members Hall) as [ps' Hps'].
    exists members, ps, ps'. split; [reflexivity|]. split; [now apply has_In|].
    split; [now apply (traverse_describe_ids true (activeUsers c))|].
    split; [now apply (traverse_describe_ids false (activeUsers c))|].
    unfold joinOutput. cbn [chatRooms activeUsers messageStore with_chatRooms].
    now rewrite G, Hps, Hps'.
Qed.

Lemma join_succeeds_while_the_room_exists_witness :
  outputOf (joinRoomAfterAwait bob "r2" Answered 9 (finalState interruptedJoinTrace))
  = [(ToSocket "sock-b", ErrorEv "Failed to join room")].
Proof.
  exact (proj1 (proj2 (join_succeeds_while_the_room_exists
                         interruptedJoinTrace (finalState interruptedJoinTrace)
                         (finalOutput interruptedJoinTrace)
                         eq_refl eq_refl eq_refl eq_refl bob "r2" 9%Z))
           eq_refl).
Defined.
